(** * WebExtensionTransformer: manifest dependency collection and CSP patching

    A shallow embedding of
    [packages/transformers/webextension/src/WebExtensionTransformer.js]:
    the JSON document as a value tree, the in-place rewrites as writes at
    JSON paths of a threaded state, the registration side channel as a list
    of dependencies, and exceptions as an error result. *)

From Stdlib Require Import String Ascii List Bool Arith NArith Lia PeanoNat.
From Stdlib Require Import ZArith.
From Stdlib Require Import Floats.PrimFloat.
From Stdlib Require Floats.SpecFloat Floats.FloatOps.
From Stdlib Require DecimalString.
Import ListNotations.
Local Open Scope string_scope.
Local Open Scope list_scope.
Local Open Scope nat_scope.

Set Implicit Arguments.
Set Warnings "-register-all".

(* ================================================================== *)
(** ** Strings as the code uses them *)

(** [arr.join(sep)] on an array of strings. *)
Fixpoint join (sep : string) (l : list string) : string :=
  match l with
  | [] => ""
  | [x] => x
  | x :: rest => x ++ sep ++ join sep rest
  end.

Fixpoint string_rev_acc (s acc : string) : string :=
  match s with
  | EmptyString => acc
  | String c s' => string_rev_acc s' (String c acc)
  end.

Definition string_rev (s : string) : string := string_rev_acc s "".

Fixpoint string_drop (n : nat) (s : string) : string :=
  match n, s with
  | O, _ => s
  | S n', String _ s' => string_drop n' s'
  | S _, EmptyString => ""
  end.

Fixpoint string_take (n : nat) (s : string) : string :=
  match n, s with
  | S n', String c s' => String c (string_take n' s')
  | _, _ => ""
  end.

(** [s.slice(0, -k)]: the string without its last [k] code units, empty
    when it has no more than [k] of them. *)
Definition slice_0_neg (k : nat) (s : string) : string :=
  string_take (String.length s - k) s.

(** Decimal rendering of an array index inside a template literal. *)
Definition nat_to_string (n : nat) : string :=
  DecimalString.NilZero.string_of_uint (Nat.to_uint n).

Definition string_eqb (a b : string) : bool := String.eqb a b.

(* ================================================================== *)
(** ** Ordinary JavaScript objects with string keys

    An object is kept as the list of its own properties in the order
    [for ... in], [Object.keys] and [JSON.stringify] enumerate them:
    array-index keys in ascending numeric order first, then the other keys
    in creation order. *)

Definition JsObject (V : Type) := list (string * V).

Fixpoint obj_get {V} (k : string) (o : JsObject V) : option V :=
  match o with
  | [] => None
  | (k', v) :: o' => if String.eqb k k' then Some v else obj_get k o'
  end.

Definition obj_has {V} (k : string) (o : JsObject V) : bool :=
  match obj_get k o with Some _ => true | None => false end.

Definition obj_keys {V} (o : JsObject V) : list string := map fst o.

(** [o[k] = v] for a key that is not an array index: an existing property
    keeps its place, a new one goes last. *)
Fixpoint obj_set {V} (k : string) (v : V) (o : JsObject V) : JsObject V :=
  match o with
  | [] => [(k, v)]
  | (k', v') :: o' =>
      if String.eqb k k' then (k, v) :: o' else (k', v') :: obj_set k v o'
  end.

Definition is_digit (c : ascii) : bool :=
  ((48 <=? nat_of_ascii c)%nat && (nat_of_ascii c <=? 57)%nat)%bool.

Fixpoint digits_value (acc : N) (s : string) : option N :=
  match s with
  | EmptyString => Some acc
  | String c s' =>
      if is_digit c then digits_value (acc * 10 + (N_of_ascii c - 48))%N s'
      else None
  end.

(** A key is an array index when it is the canonical decimal form of an
    integer below 2^32 - 1. *)
Definition array_index (k : string) : option N :=
  match k with
  | EmptyString => None
  | String c rest =>
      if (Ascii.eqb c "0" && negb (String.eqb rest ""))%bool then None
      else match digits_value 0 k with
           | Some n => if (n <? 4294967295)%N then Some n else None
           | None => None
           end
  end.

(** Creation of a property under any key: an array-index key is placed
    among the leading array-index keys, by value. *)
Fixpoint obj_insert_index {V} (n : N) (k : string) (v : V) (o : JsObject V)
  : JsObject V :=
  match o with
  | [] => [(k, v)]
  | (k', v') :: o' =>
      match array_index k' with
      | Some n' =>
          if (n <? n')%N then (k, v) :: (k', v') :: o'
          else (k', v') :: obj_insert_index n k v o'
      | None => (k, v) :: (k', v') :: o'
      end
  end.

Definition obj_define {V} (k : string) (v : V) (o : JsObject V) : JsObject V :=
  if obj_has k o then obj_set k v o
  else match array_index k with
       | Some n => obj_insert_index n k v o
       | None => obj_set k v o
       end.

(* ================================================================== *)
(** ** The policy parser

    Modelled from the spec: [parseCSP] is the npm package
    content-security-policy-parser, which is not part of the sources.  The
    spec gives its result as a mapping from directive name to the ordered
    list of source tokens.  The model splits the policy at [;], trims each
    piece, drops empty pieces, splits a piece at runs of white space, takes
    the first token as the directive name and keeps the first occurrence of
    a name.  Strings are sequences of code units below 256. *)

Definition is_space (c : ascii) : bool :=
  let n := nat_of_ascii c in
  (((9 <=? n)%nat && (n <=? 13)%nat) || (n =? 32)%nat || (n =? 160)%nat)%bool.

(** [s.split(c)] for a one-character separator. *)
Fixpoint split_char_acc (sep : ascii) (s : string) (cur : string)
  : list string :=
  match s with
  | EmptyString => [string_rev cur]
  | String c s' =>
      if Ascii.eqb c sep then string_rev cur :: split_char_acc sep s' ""
      else split_char_acc sep s' (String c cur)
  end.

Definition split_char (sep : ascii) (s : string) : list string :=
  split_char_acc sep s "".

(** The white-space separated tokens of an already trimmed, non-empty
    piece; for such a piece this is [piece.split(/\s+/g)]. *)
Fixpoint words_acc (s : string) (cur : string) : list string :=
  match s with
  | EmptyString =>
      match cur with EmptyString => [] | _ => [string_rev cur] end
  | String c s' =>
      if is_space c then
        match cur with
        | EmptyString => words_acc s' ""
        | _ => string_rev cur :: words_acc s' ""
        end
      else words_acc s' (String c cur)
  end.

Definition words (s : string) : list string := words_acc s "".

Definition parseCSP_directive (result : JsObject (list string))
  (directive : string) : JsObject (list string) :=
  match words directive with
  | [] => result
  | key :: split =>
      if obj_has key result then result else obj_define key split result
  end.

(** Modelled from the spec: the parse of a policy string, a mapping from
    directive name to the ordered list of its source tokens, in the order
    the directives first occur. *)
Definition parseCSP_model (policy : string) : JsObject (list string) :=
  fold_left parseCSP_directive (split_char ";" policy) [].

(* ================================================================== *)
(** ** The manifest document *)

(** A parsed JSON value.  Numbers are the 64-bit floats of JavaScript;
    an object holds its properties in enumeration order. *)
Inductive json : Type :=
| JNull
| JBool (b : bool)
| JNum (n : float)
| JStr (s : string)
| JArr (items : list json)
| JObj (props : list (string * json)).



(** Truthiness of a value read from the document; [None] is [undefined]. *)
Definition truthy (v : option json) : bool :=
  match v with
  | None => false
  | Some JNull => false
  | Some (JBool b) => b
  | Some (JNum n) => (negb (PrimFloat.eqb n 0%float) && PrimFloat.eqb n n)%bool
  | Some (JStr s) => negb (String.eqb s "")
  | Some (JArr _) => true
  | Some (JObj _) => true
  end.

(** One step of a JSON path: a property name or an array position. *)
Inductive seg := Key (k : string) | Idx (i : nat).

Definition path := list seg.

Definition seg_eqb (a b : seg) : bool :=
  match a, b with
  | Key k, Key k' => String.eqb k k'
  | Idx i, Idx i' => Nat.eqb i i'
  | _, _ => false
  end.

Definition seg_to_string (s : seg) : string :=
  match s with
  | Key k => k
  | Idx i => nat_to_string i
  end.

(** The pointer string the code builds for a path: ['/' + segs.join('/')],
    without escaping. *)
Definition pointer (p : path) : string :=
  "/" ++ join "/" (map seg_to_string p).

Definition get_seg (d : json) (s : seg) : option json :=
  match d, s with
  | JObj o, Key k => obj_get k o
  | JArr l, Idx i => nth_error l i
  | _, _ => None
  end.

Fixpoint get_path (d : json) (p : path) : option json :=
  match p with
  | [] => Some d
  | s :: p' =>
      match get_seg d s with
      | Some c => get_path c p'
      | None => None
      end
  end.

Fixpoint list_set {A} (i : nat) (x : A) (l : list A) : list A :=
  match l, i with
  | [], _ => []
  | _ :: l', O => x :: l'
  | y :: l', S i' => y :: list_set i' x l'
  end.

(** [d[s] = v]: a property of an object is replaced or created; an array
    element is replaced, or appended when the position is the array's
    length.  Any other combination is outside the model. *)
Definition set_seg (d : json) (s : seg) (v : json) : option json :=
  match d, s with
  | JObj o, Key k => Some (JObj (obj_set k v o))
  | JArr l, Idx i =>
      if (i <? length l)%nat then Some (JArr (list_set i v l))
      else if (i =? length l)%nat then Some (JArr (l ++ [v]))
      else None
  | _, _ => None
  end.

(** Assignment through a chain of references: the value at the end of the
    path is replaced inside the one document tree. *)
Fixpoint set_path (d : json) (p : path) (v : json) : option json :=
  match p with
  | [] => Some v
  | s :: p' =>
      match p' with
      | [] => set_seg d s v
      | _ =>
          match get_seg d s with
          | Some c =>
              match set_path c p' v with
              | Some c' => set_seg d s c'
              | None => None
              end
          | None => None
          end
      end
  end.

(** [Object.keys(v)] as path steps, for the values that have keys. *)
Definition own_segs (v : json) : list seg :=
  match v with
  | JObj o => map Key (obj_keys o)
  | JArr l => map Idx (seq 0 (length l))
  | _ => []
  end.

(* ================================================================== *)
(** ** Source positions, dependencies, diagnostics *)

Record Position := { line : nat; column : nat }.

(** An entry of the pointer index built by json-source-map. *)
Record Mapping := {
  m_key : option Position;
  m_keyEnd : option Position;
  m_value : Position;
  m_valueEnd : Position
}.

Record Range := { r_start : Position; r_end : Position }.

Inductive LocType := LKey | LValue.

Record Loc := { loc_filePath : string; loc_range : Range }.

Record EnvOpts := { context : string; sourceType : option string }.

(** The options object handed to [asset.addURLDependency]; [false] and
    [None] stand for an absent field. *)
Record DepOpts := {
  needsStableName : bool;
  pipeline : option string;
  loc : option Loc;
  resolveFrom : option string;
  env : option EnvOpts
}.

Record Dependency := { specifier : string; opts : DepOpts }.

Definition noOpts : DepOpts :=
  {| needsStableName := false; pipeline := None; loc := None;
     resolveFrom := None; env := None |}.

(** A thrown diagnostic with its one code frame: the file and the
    highlighted ranges, each with its message. *)
Record Diagnostic := {
  message : string;
  origin : string;
  frame_filePath : string;
  codeHighlights : list (Range * string)
}.

(** What a run can end with besides a value. [TypeError] is the
    JavaScript exception; [HostError] is a rejected file-system call;
    [OutOfModel] marks what this model does not follow: a value that is
    not a string handed to [asset.addURLDependency], whose parameter is a
    string; an object in place of an array, iterated through a [length]
    member of its own; and an array in place of the [dictionaries]
    object. *)
Inductive Exn :=
| ThrowableDiagnostic (d : Diagnostic)
| TypeError
| HostError
| OutOfModel.

Inductive Result (A : Type) : Type :=
| Ok (a : A)
| Throw (e : Exn).

Arguments Ok {A} a.
Arguments Throw {A} e.

(** The three schemas of [./schema], by name. *)
Inductive Schema := VersionSchema | MV3Schema | MV2Schema.

(** The collaborators of the transformer: file system, path module,
    dependency registration, source-location helper, markdown escaping of
    the [md] template tag, the policy parser, the bundled runtime, the
    JSON parser with source map, [JSON.stringify(data, null, 2)] and
    schema validation ([None]: no violation); and the two conversions of
    the language runtime that the [==] operator applies to a number and
    to a string, [Number::toString] and [StringToNumber]. *)
Class Host := {
  fs_exists : string -> bool;
  fs_readdir : string -> option (list string);
  glob : string -> option (list string);
  path_join : string -> string -> string;
  path_dirname : string -> string;
  path_relative : string -> string -> string;
  path_extname : string -> string;
  depToken : Dependency -> string;
  getJSONSourceLocation : Mapping -> option LocType -> Range;
  md_escape : string -> string;
  parseCSP : string -> JsObject (list string);
  AUTORELOAD_BG : string;
  this_filename : string;
  jsm_parse : string -> option (json * (string -> option Mapping));
  JSON_stringify : json -> string;
  validateSchema : Schema -> json -> string -> string -> option Diagnostic;
  number_to_string : float -> string;
  string_to_number : string -> float
}.

(** The pointer index [ptrs]: pointer string to mapping. *)
Definition Pointers := string -> option Mapping.

(* ================================================================== *)
(** ** State and errors

    The document is mutated in place and dependencies are registered on
    the asset; both are threaded as one state.  A thrown exception ends
    the run. *)

Record State := { program : json; deps : list Dependency }.

Definition M (A : Type) := State -> Result (A * State).

Definition ret {A} (a : A) : M A := fun s => Ok (a, s).

Definition bind {A B} (m : M A) (f : A -> M B) : M B :=
  fun s =>
    match m s with
    | Ok (a, s') => f a s'
    | Throw e => Throw e
    end.

Definition throw {A} (e : Exn) : M A := fun _ => Throw e.

Declare Scope m_scope.
Delimit Scope m_scope with M.
Notation "x <- m ;; k" := (bind m (fun x => k))
  (at level 100, m at next level, right associativity) : m_scope.
Notation "m ;; k" := (bind m (fun _ => k))
  (at level 100, right associativity) : m_scope.
Local Open Scope m_scope.

(** [for (const x of l) body(x)] *)
Fixpoint forM {A} (l : list A) (body : A -> M unit) : M unit :=
  match l with
  | [] => ret tt
  | x :: l' => body x ;; forM l' body
  end.

(** A loop that carries a local variable. *)
Fixpoint foldM {A B} (l : list A) (acc : B) (body : B -> A -> M B) : M B :=
  match l with
  | [] => ret acc
  | x :: l' => acc' <- body acc x ;; foldM l' acc' body
  end.

(** Reading the document through a path of references. *)
Definition readAt (p : path) : M (option json) :=
  fun s => Ok (get_path (program s) p, s).

(** [ref.k] where [ref] is the value at [p]: a [TypeError] on [undefined]
    and [null]. *)
Definition readProp (p : path) (k : string) : M (option json) :=
  fun s =>
    match get_path (program s) p with
    | None | Some JNull => Throw TypeError
    | Some v => Ok (get_seg v (Key k), s)
    end.

(** Assignment to the place a path denotes.  Assigning to a property of
    [undefined], of [null] or, the module being strict code, of a
    primitive value is a [TypeError]; a property this tree cannot hold (a
    named property of an array, an element past its end) is outside the
    model. *)
Definition writeAt (p : path) (v : json) : M unit :=
  fun s =>
    match set_path (program s) p v with
    | Some d => Ok (tt, {| program := d; deps := deps s |})
    | None =>
        match get_path (program s) (removelast p) with
        | Some (JArr _) | Some (JObj _) => Throw OutOfModel
        | _ => Throw TypeError
        end
    end.

(** [arr.push(v)] where [arr] is the array at [p]. *)
Definition pushAt (p : path) (v : json) : M unit :=
  fun s =>
    match get_path (program s) p with
    | Some (JArr l) => writeAt (p ++ [Idx (length l)]) v s
    | _ => Throw TypeError
    end.

(** A specifier handed to the registration or the path module has to be
    a string. *)
Definition asString (e : Exn) (v : option json) : M string :=
  match v with
  | Some (JStr s) => ret s
  | _ => throw e
  end.

(** [for (const x of l) ys.push(f(x))], the callback of [Array.map]. *)
Fixpoint mapM {A B} (f : A -> M B) (l : list A) : M (list B) :=
  match l with
  | [] => ret []
  | x :: l' => y <- f x ;; ys <- mapM f l' ;; ret (y :: ys)
  end.

(** [v?.k] *)
Definition optProp (v : option json) (k : string) : option json :=
  match v with
  | None | Some JNull => None
  | Some d => get_seg d (Key k)
  end.

(** A computed result as a step of a run. *)
Definition liftR {A} (r : Result A) : M A :=
  fun s =>
    match r with
    | Ok a => Ok (a, s)
    | Throw e => Throw e
    end.

(** [str[i]] inside the string: the one-character string at position [i]. *)
Definition string_at (i : nat) (s : string) : string :=
  match String.get i s with
  | Some c => String c ""
  | None => ""
  end.

(* ================================================================== *)
(** ** The CSP patcher *)

Definition UNSAFE_EVAL : string := "'unsafe-eval'".

Definition DEFAULT_SCRIPT_SRC : string :=
  "'self' 'unsafe-eval' blob: filesystem:".

Definition DEFAULT_POLICY : string :=
  "script-src 'self' 'unsafe-eval' blob: filesystem:;" ++
  "object-src 'self' blob: filesystem:;".

(** [arr.includes(x)] on an array of strings. *)
Definition includes (x : string) (l : list string) : bool :=
  existsb (String.eqb x) l.

(** The two conditional updates of the parsed policy. *)
Definition patchCSP (csp : JsObject (list string)) : JsObject (list string) :=
  let csp1 :=
    match obj_get "script-src" csp with
    | None => obj_set "script-src" [DEFAULT_SCRIPT_SRC] csp
    | Some _ => csp
    end in
  match obj_get "script-src" csp1 with
  | Some toks =>
      if includes UNSAFE_EVAL toks then csp1
      else obj_set "script-src" (toks ++ [UNSAFE_EVAL]) csp1
  | None => csp1
  end.

(** [for (const k in csp) policy += `${k} ${csp[k].join(' ')};`] *)
Definition serializeCSP (csp : JsObject (list string)) : string :=
  fold_left
    (fun policy kv => (policy ++ fst kv ++ " " ++ join " " (snd kv) ++ ";")%string)
    csp "".

Section Transformer.

Context {host : Host}.

Definition cspPatchHMR (policy : option string) : string :=
  match policy with
  | Some p =>
      if negb (String.eqb p "") then serializeCSP (patchCSP (parseCSP p))
      else DEFAULT_POLICY
  | None => DEFAULT_POLICY
  end.

(* ================================================================== *)
(** ** Loose equality on document values *)

(** [ToString] of a document value, as [==] applies it to an array or an
    object through [ToPrimitive], and [Array.prototype.join] to the
    elements of an array: an array is its elements joined by commas, a
    [null] element being the empty string; an object without a [toString]
    member of its own is ["[object Object]"]; an object with one, which in
    a parsed document is never callable, has no primitive value, and the
    conversion throws a [TypeError]. *)
Fixpoint toStringValue (v : json) : Result string :=
  match v with
  | JNull => Ok "null"
  | JBool b => Ok (if b then "true" else "false")
  | JNum n => Ok (number_to_string n)
  | JStr s => Ok s
  | JArr l =>
      match
        (fix elements (l : list json) : Result (list string) :=
           match l with
           | [] => Ok []
           | x :: l' =>
               match match x with
                     | JNull => Ok ""
                     | _ => toStringValue x
                     end with
               | Ok t =>
                   match elements l' with
                   | Ok ts => Ok (t :: ts)
                   | Throw e => Throw e
                   end
               | Throw e => Throw e
               end
           end) l
      with
      | Ok ts => Ok (join "," ts)
      | Throw e => Throw e
      end
  | JObj o => if obj_has "toString" o then Throw TypeError
              else Ok "[object Object]"
  end.

(** [ToNumber] of a value that is not [undefined]. *)
Definition toNumberValue (v : json) : Result float :=
  match v with
  | JNull => Ok 0%float
  | JBool b => Ok (if b then 1%float else 0%float)
  | JNum n => Ok n
  | JStr s => Ok (string_to_number s)
  | JArr _ | JObj _ =>
      match toStringValue v with
      | Ok p => Ok (string_to_number p)
      | Throw e => Throw e
      end
  end.

(** [v == n] for a number [n]; [None] is [undefined]. *)
Definition looseEqualsNumber (v : option json) (n : float) : Result bool :=
  match v with
  | None | Some JNull => Ok false
  | Some x =>
      match toNumberValue x with
      | Ok m => Ok (PrimFloat.eqb m n)
      | Throw e => Throw e
      end
  end.

(** [v == s] for a string [s]. *)
Definition looseEqualsString (v : option json) (s : string) : Result bool :=
  match v with
  | None | Some JNull => Ok false
  | Some (JStr x) => Ok (String.eqb x s)
  | Some (JNum n) => Ok (PrimFloat.eqb n (string_to_number s))
  | Some (JBool b) =>
      Ok (PrimFloat.eqb (if b then 1%float else 0%float) (string_to_number s))
  | Some x =>
      match toStringValue x with
      | Ok p => Ok (String.eqb p s)
      | Throw e => Throw e
      end
  end.

(** [v == 2] on a document value. *)
Definition looseEq2 (v : option json) : M bool :=
  liftR (looseEqualsNumber v 2%float).

(** [v == 'module'] on a document value. *)
Definition looseEqString (v : option json) (s : string) : M bool :=
  liftR (looseEqualsString v s).

(* ================================================================== *)
(** ** Dependency collection *)

Definition DEP_LOCS : list (list string) :=
  [ ["icons"];
    ["browser_action"; "default_icon"];
    ["browser_action"; "default_popup"];
    ["page_action"; "default_icon"];
    ["page_action"; "default_popup"];
    ["action"; "default_icon"];
    ["action"; "default_popup"];
    ["background"; "scripts"];
    ["background"; "page"];
    ["chrome_url_overrides"];
    ["devtools_page"];
    ["options_ui"; "page"];
    ["sidebar_action"; "default_icon"];
    ["sidebar_action"; "default_panel"];
    ["storage"; "managed_schema"];
    ["theme"; "images"; "theme_frame"];
    ["theme"; "images"; "additional_backgrounds"];
    ["user_scripts"; "api_script"] ].

(** [asset.addURLDependency(url, opts)]: registers and returns the token. *)
Definition addURLDependency (url : string) (o : DepOpts) : M string :=
  fun s =>
    let d := {| specifier := url; opts := o |} in
    Ok (depToken d, {| program := program s; deps := deps s ++ [d] |}).

Variable filePath : string.
Variable ptrs : Pointers.
Variable hot : bool.

(** [getJSONSourceLocation(ptrs[ptr], type)]; the helper dereferences its
    first argument, so a missing entry is a [TypeError]. *)
Definition sourceLocation (ptr : string) (type : option LocType) : M Range :=
  match ptrs ptr with
  | Some m => ret (getJSONSourceLocation m type)
  | None => throw TypeError
  end.

Definition invalidManifest (r : Range) (msg : string) : Exn :=
  ThrowableDiagnostic
    {| message := "Invalid Web Extension manifest";
       origin := "@parcel/transformer-webextension";
       frame_filePath := filePath;
       codeHighlights := [(r, msg)] |}.

Definition stable (r : Range) (pl : option string) : DepOpts :=
  {| needsStableName := true; pipeline := pl;
     loc := Some {| loc_filePath := filePath; loc_range := r |};
     resolveFrom := None; env := None |}.

(** Lines 54-93. *)
Definition collectLocales : M unit :=
  default_locale <- readProp [] "default_locale" ;;
  if truthy default_locale then
    let locales := path_join (path_dirname filePath) "_locales" in
    err <- (if negb (fs_exists locales) then ret (Some LKey)
            else
              l <- asString TypeError default_locale ;;
              if negb (fs_exists (path_join locales l)) then ret (Some LValue)
              else ret None) ;;
    match err with
    | Some e =>
        r <- sourceLocation "/default_locale" (Some e) ;;
        l <- asString TypeError default_locale ;;
        throw (invalidManifest r
                 ("Localization directory"
                  ++ md_escape (match e with LValue => " for " ++ l | LKey => "" end)
                  ++ " does not exist: "
                  ++ md_escape (path_relative (path_dirname filePath)
                                             (path_join locales l))))
    | None =>
        match fs_readdir locales with
        | None => throw HostError
        | Some entries =>
            forM entries (fun locale =>
              _ <- addURLDependency ("_locales/" ++ locale ++ "/messages.json")
                     {| needsStableName := true; pipeline := Some "raw";
                        loc := None; resolveFrom := None; env := None |} ;;
              ret tt)
        end
    end
  else ret tt.

(** [assets[j] = asset.addURLDependency(assets[j], {needsStableName, loc})]
    for the element at path [p] whose pointer is [ptr]. *)
Definition rewriteElement (p : path) : M unit :=
  a <- readAt p ;;
  r <- sourceLocation (pointer p) (Some LValue) ;;
  url <- asString OutOfModel a ;;
  tok <- addURLDependency url (stable r None) ;;
  writeAt p (JStr tok).

(** The loop over one asset list of a content script, lines 99-111:
    [sc] is the path of the entry, [k] is ["css"] or ["js"].  A number or
    [true] in place of the list has no [length] and the loop does not
    run; a string has one, and the assignment to its first index is a
    [TypeError] in strict code; an object that is read through a [length]
    member of its own is not followed. *)
Definition rewriteAssets (sc : path) (k : string) : M unit :=
  assets <- readProp sc k ;;
  if truthy assets then
    match assets with
    | Some (JArr l) =>
        forM (seq 0 (length l)) (fun j => rewriteElement (sc ++ [Key k; Idx j]))
    | Some (JStr _) => throw TypeError
    | Some (JObj _) => throw OutOfModel
    | _ => ret tt
    end
  else ret tt.

(** One round of the loop over [content_scripts], lines 97-120. *)
Definition collectContentScript (needRuntimeBG : bool) (i : nat) : M bool :=
  let sc := [Key "content_scripts"; Idx i] in
  forM ["css"; "js"] (rewriteAssets sc) ;;
  if hot then
    js <- readProp sc "js" ;;
    match js with
    | Some (JArr l) =>
        if negb (length l =? 0)%nat then
          tok <- addURLDependency "./runtime/autoreload.js"
                   {| needsStableName := false; pipeline := None; loc := None;
                      resolveFrom := Some this_filename; env := None |} ;;
          pushAt (sc ++ [Key "js"]) (JStr tok) ;;
          ret true
        else ret needRuntimeBG
    | _ => ret needRuntimeBG
    end
  else ret needRuntimeBG.

(** Lines 95-122; the result is [needRuntimeBG].  The elements of a
    string are one-character strings, which have neither [css] nor [js];
    a number or [true] has no [length]: in both cases nothing happens. *)
Definition collectContentScripts : M bool :=
  content_scripts <- readProp [] "content_scripts" ;;
  if truthy content_scripts then
    match content_scripts with
    | Some (JArr scs) =>
        foldM (seq 0 (length scs)) false collectContentScript
    | Some (JObj _) => throw OutOfModel
    | _ => ret false
    end
  else ret false.

(** One round of the loop over the keys of [dictionaries], lines
    125-162. *)
Definition collectDictionary (dict : string) : M unit :=
  sourceLoc <- sourceLocation ("/dictionaries/" ++ dict) (Some LValue) ;;
  dictFile <- readProp [Key "dictionaries"] dict ;;
  f <- asString TypeError dictFile ;;
  if negb (String.eqb (path_extname f) ".dic") then
    throw (invalidManifest sourceLoc "Dictionaries must be .dic files")
  else
    tok <- addURLDependency f (stable sourceLoc None) ;;
    writeAt [Key "dictionaries"; Key dict] (JStr tok) ;;
    _ <- addURLDependency (slice_0_neg 4 f ++ ".aff") (stable sourceLoc None) ;;
    ret tt.

(** Lines 123-164.  [for ... in] finds no key in a number or in [true];
    in a string it finds the index of the first character, whose
    one-character file either fails the extension check or cannot be
    assigned to; the indices of an array are not followed. *)
Definition collectDictionaries : M unit :=
  dictionaries <- readProp [] "dictionaries" ;;
  if truthy dictionaries then
    match dictionaries with
    | Some (JObj o) => forM (obj_keys o) collectDictionary
    | Some (JStr str) =>
        sourceLoc <- sourceLocation "/dictionaries/0" (Some LValue) ;;
        if negb (String.eqb (path_extname (string_at 0 str)) ".dic") then
          throw (invalidManifest sourceLoc "Dictionaries must be .dic files")
        else throw TypeError
    | Some (JArr _) => throw OutOfModel
    | _ => ret tt
    end
  else ret tt.

(** Lines 165-183.  A number or [true] in place of the array has no
    [length]; the first element of a string is a one-character string
    without icons, so that the registration receives [undefined], which
    is not followed. *)
Definition collectThemeIcons (isMV2 : bool) : M unit :=
  let browserActionName := if isMV2 then "browser_action" else "action" in
  action <- readProp [] browserActionName ;;
  let theme_icons := optProp action "theme_icons" in
  if truthy theme_icons then
    match theme_icons with
    | Some (JArr l) =>
        forM (seq 0 (length l)) (fun i =>
          let themeIcon := [Key browserActionName; Key "theme_icons"; Idx i] in
          forM ["light"; "dark"] (fun k =>
            r <- sourceLocation (pointer (themeIcon ++ [Key k])) (Some LValue) ;;
            icon <- readProp themeIcon k ;;
            url <- asString OutOfModel icon ;;
            tok <- addURLDependency url (stable r None) ;;
            writeAt (themeIcon ++ [Key k]) (JStr tok)))
    | Some (JStr _) =>
        _ <- sourceLocation
               (pointer [Key browserActionName; Key "theme_icons"; Idx 0;
                         Key "light"]) (Some LValue) ;;
        throw OutOfModel
    | Some (JObj _) => throw OutOfModel
    | _ => ret tt
    end
  else ret tt.

(** The files a pattern matches, registered one by one and located
    through [ptr]: lines 189-207. *)
Definition globDependencies (ptr pattern : string) : M (list string) :=
  match glob (path_join (path_dirname filePath) pattern) with
  | None => throw HostError
  | Some fps =>
      mapM (fun fp =>
        r <- sourceLocation ptr None ;;
        addURLDependency (path_relative (path_dirname filePath) fp)
          (stable r None)) fps
  end.

(** Lines 184-216.  A string in place of the array is read by index:
    in a version 2 manifest each character is a pattern of its own; in
    any other manifest the [resources] of a character is [undefined],
    which [path.join] rejects.  A number or [true] has no [length], and
    the empty array is stored in its place.  An object that is read
    through a [length] member of its own is not followed. *)
Definition collectWebAccessibleResources (isMV2 : bool) : M unit :=
  web_accessible_resources <- readProp [] "web_accessible_resources" ;;
  if truthy web_accessible_resources then
    match web_accessible_resources with
    | Some (JArr l) =>
        war <- foldM (seq 0 (length l)) [] (fun war i =>
          let entry := [Key "web_accessible_resources"; Idx i] in
          files <- (if isMV2 then readAt entry else readProp entry "resources") ;;
          pattern <- asString TypeError files ;;
          globFiles <- globDependencies
                         (pointer entry ++ (if isMV2 then "" else "/resources"))
                         pattern ;;
          if isMV2 then ret (war ++ map JStr globFiles)
          else
            writeAt (entry ++ [Key "resources"]) (JArr (map JStr globFiles)) ;;
            files' <- readAt entry ;;
            match files' with
            | Some v => ret (war ++ [v])
            | None => throw OutOfModel
            end) ;;
        writeAt [Key "web_accessible_resources"] (JArr war)
    | Some (JStr str) =>
        if isMV2 then
          war <- foldM (seq 0 (String.length str)) [] (fun war i =>
            globFiles <- globDependencies
                           (pointer [Key "web_accessible_resources"; Idx i])
                           (string_at i str) ;;
            ret (war ++ map JStr globFiles)) ;;
          writeAt [Key "web_accessible_resources"] (JArr war)
        else throw TypeError
    | Some (JObj _) => throw OutOfModel
    | _ => writeAt [Key "web_accessible_resources"] (JArr [])
    end
  else ret tt.

(** [parent[k] = asset.addURLDependency(parent[k], {needsStableName, loc,
    pipeline})] for the value at path [p], located through [ptr]. *)
Definition rewriteLocation (ptr : string) (p : path) : M unit :=
  v <- readAt p ;;
  r <- sourceLocation ptr (Some LValue) ;;
  url <- asString TypeError v ;;
  tok <- addURLDependency url
           (stable r (if String.eqb (path_extname url) ".json"
                      then Some "url" else None)) ;;
  writeAt p (JStr tok).

(** The walk [parent = parent[loc[i]]] down to [parent[lastLoc]]; the
    result is the path of the last value and the value. *)
Fixpoint walk (parent : path) (loc : list string) : M (path * option json) :=
  match loc with
  | [] => throw OutOfModel
  | [lastLoc] =>
      obj <- readProp parent lastLoc ;;
      ret (parent ++ [Key lastLoc], obj)
  | k :: rest =>
      _ <- readProp parent k ;;
      walk (parent ++ [Key k]) rest
  end.

(** One iteration of the loop over the table, lines 217-247. *)
Definition collectLocation (loc : list string) : M unit :=
  let location := ("/" ++ join "/" loc)%string in
  match ptrs location with
  | None => ret tt
  | Some _ =>
      po <- walk [] loc ;;
      let (p, obj) := po : path * option json in
      match obj with
      | Some (JStr _) => rewriteLocation location p
      | None | Some JNull => throw TypeError
      | Some v =>
          forM (own_segs v) (fun k =>
            rewriteLocation (location ++ "/" ++ seg_to_string k)%string (p ++ [k]))
      end
  end.

Definition collectLocations (table : list (list string)) : M unit :=
  forM table collectLocation.

Definition autoreloadBg (e : option EnvOpts) : DepOpts :=
  {| needsStableName := false; pipeline := None; loc := None;
     resolveFrom := Some this_filename; env := e |}.

(** Lines 248-268. *)
Definition wireBackgroundMV2 (needRuntimeBG : bool) : M unit :=
  if hot then
    csp <- readProp [] "content_security_policy" ;;
    policy <- match csp with
              | None => ret (cspPatchHMR None)
              | Some (JStr p) => ret (cspPatchHMR (Some p))
              | Some _ =>
                  if truthy csp then throw TypeError else ret (cspPatchHMR None)
              end ;;
    writeAt [Key "content_security_policy"] (JStr policy) ;;
    if needRuntimeBG then
      background <- readProp [] "background" ;;
      (if truthy background then ret tt
       else writeAt [Key "background"] (JObj [])) ;;
      scripts <- readProp [Key "background"] "scripts" ;;
      (if truthy scripts then ret tt
       else writeAt [Key "background"; Key "scripts"] (JArr [])) ;;
      tok <- addURLDependency "./runtime/autoreload-bg.js" (autoreloadBg None) ;;
      pushAt [Key "background"; Key "scripts"] (JStr tok)
    else ret tt
  else ret tt.

(** Lines 269-296. *)
Definition wireBackgroundMV3 (needRuntimeBG : bool) : M unit :=
  background <- readProp [] "background" ;;
  let service_worker := optProp background "service_worker" in
  if truthy service_worker then
    url <- asString OutOfModel service_worker ;;
    type <- readProp [Key "background"] "type" ;;
    isModule <- looseEqString type "module" ;;
    tok <- addURLDependency url
             {| needsStableName := true;
                pipeline := Some (if needRuntimeBG then "mv3-bg-sw" else "");
                loc := None; resolveFrom := None;
                env := Some {| context := "service-worker";
                               sourceType := Some (if isModule then "module"
                                                   else "script") |} |} ;;
    writeAt [Key "background"; Key "service_worker"] (JStr tok)
  else if needRuntimeBG then
    (if truthy background then ret tt
     else writeAt [Key "background"] (JObj [])) ;;
    tok <- addURLDependency "./runtime/autoreload-bg.js"
             (autoreloadBg (Some {| context := "service-worker";
                                    sourceType := None |})) ;;
    writeAt [Key "background"; Key "service_worker"] (JStr tok)
  else ret tt.

Definition collectDependencies : M unit :=
  manifest_version <- readProp [] "manifest_version" ;;
  isMV2 <- looseEq2 manifest_version ;;
  collectLocales ;;
  needRuntimeBG <- collectContentScripts ;;
  collectDictionaries ;;
  collectThemeIcons isMV2 ;;
  collectWebAccessibleResources isMV2 ;;
  collectLocations DEP_LOCS ;;
  if isMV2 then wireBackgroundMV2 needRuntimeBG
  else wireBackgroundMV3 needRuntimeBG.

End Transformer.

(* ================================================================== *)
(** ** The transformer entry point *)

Record Asset := {
  asset_filePath : string;
  asset_pipeline : option string;
  asset_code : string;
  asset_dependencies : list Dependency
}.

Definition setCode (a : Asset) (c : string) (ds : list Dependency) : Asset :=
  {| asset_filePath := asset_filePath a;
     asset_pipeline := asset_pipeline a;
     asset_code := c;
     asset_dependencies := ds |}.

Definition nl : string := String (ascii_of_nat 10) "".

(** The template literal of lines 325-330. *)
Definition wrapServiceWorker (bg code : string) : string :=
  nl ++ "        (function() {" ++
  nl ++ "          " ++ bg ++
  nl ++ "        })();" ++
  nl ++ "        " ++ code ++
  nl ++ "      ".

(** [v === n] against a number literal. *)
Definition strictEqNum (v : option json) (n : float) : bool :=
  match v with
  | Some (JNum m) => PrimFloat.eqb m n
  | _ => false
  end.

Section Transform.

Context {host : Host}.

Definition transform (asset : Asset) (hmrOptions : bool) : Result Asset :=
  let code := asset_code asset in
  match asset_pipeline asset with
  | Some "mv3-bg-sw" =>
      Ok (setCode asset (wrapServiceWorker AUTORELOAD_BG code)
            (asset_dependencies asset))
  | _ =>
      match jsm_parse code with
      | None => Throw HostError
      | Some (data, pointers) =>
          match data with
          | JNull => Throw TypeError
          | _ =>
              let version := get_seg data (Key "manifest_version") in
              let schema :=
                if strictEqNum version 3%float then MV3Schema
                else if strictEqNum version 2%float then MV2Schema
                else VersionSchema in
              match validateSchema schema data code (asset_filePath asset) with
              | Some d => Throw (ThrowableDiagnostic d)
              | None =>
                  match collectDependencies (asset_filePath asset) pointers
                          hmrOptions
                          {| program := data;
                             deps := asset_dependencies asset |} with
                  | Ok (_, s) =>
                      Ok (setCode asset (JSON_stringify (program s)) (deps s))
                  | Throw e => Throw e
                  end
              end
          end
      end
  end.

End Transform.

(* ================================================================== *)
(** ** A concrete host for worked examples

    [path.extname] follows the POSIX implementation of Node's path
    module: the extension of the last path component, trailing slashes
    ignored. *)

Record ExtScan := {
  startDot : option nat;
  startPart : nat;
  scan_end : option nat;
  matchedSlash : bool;
  preDotState : option bool;  (* None: 0, Some true: 1, Some false: -1 *)
  stopped : bool
}.

(** One round of the backwards loop of [posix.extname] at index [i]. *)
Definition extname_step (st : ExtScan) (ic : nat * ascii) : ExtScan :=
  let (i, c) := ic in
  if stopped st then st
  else if Ascii.eqb c "/" then
    if negb (matchedSlash st) then
      {| startDot := startDot st; startPart := i + 1; scan_end := scan_end st;
         matchedSlash := matchedSlash st; preDotState := preDotState st;
         stopped := true |}
    else st
  else
    let st1 :=
      match scan_end st with
      | None =>
          {| startDot := startDot st; startPart := startPart st;
             scan_end := Some (i + 1); matchedSlash := false;
             preDotState := preDotState st; stopped := false |}
      | Some _ => st
      end in
    if Ascii.eqb c "." then
      match startDot st1 with
      | None =>
          {| startDot := Some i; startPart := startPart st1;
             scan_end := scan_end st1; matchedSlash := matchedSlash st1;
             preDotState := preDotState st1; stopped := false |}
      | Some _ =>
          match preDotState st1 with
          | Some true => st1
          | _ =>
              {| startDot := startDot st1; startPart := startPart st1;
                 scan_end := scan_end st1; matchedSlash := matchedSlash st1;
                 preDotState := Some true; stopped := false |}
          end
      end
    else
      match startDot st1 with
      | Some _ =>
          {| startDot := startDot st1; startPart := startPart st1;
             scan_end := scan_end st1; matchedSlash := matchedSlash st1;
             preDotState := Some false; stopped := false |}
      | None => st1
      end.

Definition indexed_chars (s : string) : list (nat * ascii) :=
  combine (seq 0 (String.length s)) (list_ascii_of_string s).

Definition posix_extname (p : string) : string :=
  let st := fold_left extname_step (rev (indexed_chars p))
              {| startDot := None; startPart := 0; scan_end := None;
                 matchedSlash := true; preDotState := None;
                 stopped := false |} in
  match startDot st, scan_end st with
  | Some sd, Some e =>
      match preDotState st with
      | None => ""
      | Some true =>
          if ((sd =? e - 1)%nat && (sd =? startPart st + 1)%nat)%bool then ""
          else string_take (e - sd) (string_drop sd p)
      | Some false => string_take (e - sd) (string_drop sd p)
      end
  | _, _ => ""
  end.

(** A source-location helper for the examples: the key range when asked
    for the key, the value range when asked for the value or when the
    entry has no key, key start to value end when no type is given and
    the entry has a key. *)
Definition exampleSourceLocation (m : Mapping) (type : option LocType) : Range :=
  let value_range := {| r_start := m_value m; r_end := m_valueEnd m |} in
  match type, m_key m, m_keyEnd m with
  | None, Some k, _ => {| r_start := k; r_end := m_valueEnd m |}
  | Some LKey, Some k, Some ke => {| r_start := k; r_end := ke |}
  | _, _, _ => value_range
  end.

Fixpoint string_prefixb (p s : string) : bool :=
  match p, s with
  | EmptyString, _ => true
  | String a p', String b s' => (Ascii.eqb a b && string_prefixb p' s')%bool
  | String _ _, EmptyString => false
  end.

(** The directory part of a path with at least one [/]. *)
Definition example_dirname (p : string) : string :=
  match rev (split_char "/" p) with
  | _ :: d :: ds => join "/" (rev (d :: ds))
  | _ => "."
  end.

Definition example_relative (from to : string) : string :=
  if string_prefixb (from ++ "/") to
  then string_drop (String.length from + 1) to
  else to.

Fixpoint assoc_list {V} (k : string) (l : list (string * V)) : option V :=
  match l with
  | [] => None
  | (k', v) :: l' => if String.eqb k k' then Some v else assoc_list k l'
  end.

(** The conversions of the examples.  A string of decimal digits is read
    as the number it writes (exactly below 2^53), the empty string as 0;
    the other numeric literals do not occur in the examples and are read
    as NaN.  A whole number is written in decimal; the other numbers do
    not occur in the examples and are written as ["NaN"]. *)
Definition digit_float (c : ascii) : float :=
  nat_rect (fun _ => float) 0%float (fun _ f => (f + 1)%float)
    (nat_of_ascii c - 48).

Fixpoint digits_float (acc : float) (s : string) : option float :=
  match s with
  | EmptyString => Some acc
  | String c s' =>
      if is_digit c then digits_float (acc * 10 + digit_float c)%float s'
      else None
  end.

Definition example_string_to_number (s : string) : float :=
  match digits_float 0%float s with
  | Some f => f
  | None => PrimFloat.nan
  end.

Definition whole_number (f : float) : option Z :=
  match FloatOps.Prim2SF f with
  | SpecFloat.S754_zero _ => Some 0%Z
  | SpecFloat.S754_finite sign m e =>
      let magnitude :=
        match e with
        | Z0 => Some (Zpos m)
        | Zpos k => Some (Zpos m * 2 ^ Zpos k)%Z
        | Zneg k =>
            if (Zpos m mod 2 ^ Zpos k =? 0)%Z
            then Some (Zpos m / 2 ^ Zpos k)%Z else None
        end in
      option_map (fun z => if sign then (- z)%Z else z) magnitude
  | _ => None
  end.

Definition example_number_to_string (f : float) : string :=
  match whole_number f with
  | Some z => DecimalString.NilZero.string_of_int (Z.to_int z)
  | None => "NaN"
  end.

(** A host over a file system given as a table from directory to its
    entries and a table from glob pattern to its matches.  Paths are
    joined with [/] and not normalized; the token of a dependency shows
    its specifier. *)
Definition exampleHost (dirs globs : list (string * list string))
  (parse : string -> option (json * Pointers)) : Host :=
  {| fs_exists := fun p => obj_has p dirs;
     fs_readdir := fun p => assoc_list p dirs;
     glob := fun p => Some (match assoc_list p globs with
                            | Some l => l
                            | None => []
                            end);
     path_join := fun a b => (a ++ "/" ++ b)%string;
     path_dirname := example_dirname;
     path_relative := example_relative;
     path_extname := posix_extname;
     depToken := fun d => ("dep:" ++ specifier d)%string;
     getJSONSourceLocation := exampleSourceLocation;
     md_escape := fun s => s;
     parseCSP := parseCSP_model;
     AUTORELOAD_BG := "/* autoreload-bg */";
     this_filename := "/parcel/WebExtensionTransformer.js";
     jsm_parse := parse;
     JSON_stringify := fun _ => "{}";
     validateSchema := fun _ _ _ _ => None;
     number_to_string := example_number_to_string;
     string_to_number := example_string_to_number |}.

(** Every path of a document that has a value, in document order. *)
Fixpoint all_paths (d : json) : list path :=
  [] ::
  match d with
  | JArr l =>
      (fix elems (i : nat) (l : list json) : list path :=
         match l with
         | [] => []
         | x :: l' => map (cons (Idx i)) (all_paths x) ++ elems (S i) l'
         end) 0 l
  | JObj o =>
      (fix props (o : list (string * json)) : list path :=
         match o with
         | [] => []
         | (k, x) :: o' => map (cons (Key k)) (all_paths x) ++ props o'
         end) o
  | _ => []
  end.

(** A pointer index with an entry for every path of the document: the
    entry of the [n]-th path puts the key on line [2n] and the value on
    line [2n+1]; array elements have no key. *)
Fixpoint find_pointer (ptr : string) (n : nat) (ps : list path) : option Mapping :=
  match ps with
  | [] => None
  | p :: ps' =>
      if String.eqb ptr (if (length p =? 0)%nat then "" else pointer p) then
        let has_key := match last p (Idx 0) with Key _ => true | Idx _ => false end in
        let at_key c :=
          if has_key then Some {| line := 2 * n; column := c |} else None in
        Some {| m_key := at_key 0;
                m_keyEnd := at_key 1;
                m_value := {| line := 2 * n + 1; column := 0 |};
                m_valueEnd := {| line := 2 * n + 1; column := 1 |} |}
      else find_pointer ptr (S n) ps'
  end.

Definition pointersOf (d : json) : Pointers :=
  fun ptr => find_pointer ptr 0 (all_paths d).

(** The host of the worked examples: an extension in [/ext] with two
    locale directories and two images. *)
Definition demoHost : Host :=
  exampleHost
    [("/ext/_locales", ["de"; "en"]); ("/ext/_locales/en", ["messages.json"])]
    [("/ext/img/*.png", ["/ext/img/a.png"; "/ext/img/b.png"])]
    (fun _ => None).

(* ================================================================== *)
(** * Properties *)

(** ** Objects *)

Lemma obj_get_set_same {V} (k : string) (v : V) (o : JsObject V) :
  obj_get k (obj_set k v o) = Some v.
Proof.
  induction o as [|[k' v'] o IH]; simpl.
  - now rewrite String.eqb_refl.
  - destruct (String.eqb k k') eqn:E; simpl; rewrite ?String.eqb_refl, ?E; auto.
Qed.

Lemma obj_get_set_other {V} (k k' : string) (v : V) (o : JsObject V) :
  k <> k' -> obj_get k' (obj_set k v o) = obj_get k' o.
Proof.
  intros Hne. induction o as [|[k0 v0] o IH]; simpl.
  - destruct (String.eqb k' k) eqn:E; auto.
    apply String.eqb_eq in E. congruence.
  - destruct (String.eqb k k0) eqn:E; simpl.
    + apply String.eqb_eq in E. subst k0.
      destruct (String.eqb k' k) eqn:E'; auto.
      apply String.eqb_eq in E'. congruence.
    + now rewrite IH.
Qed.

Lemma obj_set_absent {V} (k : string) (v : V) (o : JsObject V) :
  obj_get k o = None -> obj_set k v o = o ++ [(k, v)].
Proof.
  induction o as [|[k' v'] o IH]; simpl; auto.
  destruct (String.eqb k k'); [discriminate|].
  intros H. now rewrite IH.
Qed.

Lemma obj_set_set {V} (k : string) (v w : V) (o : JsObject V) :
  obj_set k v (obj_set k w o) = obj_set k v o.
Proof.
  induction o as [|[k' v'] o IH]; simpl.
  - now rewrite String.eqb_refl.
  - destruct (String.eqb k k') eqn:E; simpl.
    + now rewrite String.eqb_refl.
    + now rewrite E, IH.
Qed.

Lemma obj_set_keys {V} (k : string) (v w : V) (o : JsObject V) :
  obj_get k o = Some w -> obj_keys (obj_set k v o) = obj_keys o.
Proof.
  unfold obj_keys.
  induction o as [|[k' v'] o IH]; simpl; [discriminate|].
  destruct (String.eqb k k') eqn:E; simpl.
  - apply String.eqb_eq in E. now subst.
  - intros H. now rewrite IH.
Qed.

(** ** The CSP patcher *)

Lemma includes_In (x : string) (l : list string) :
  includes x l = true <-> In x l.
Proof.
  unfold includes. rewrite existsb_exists. split.
  - intros [y [Hy E]]. apply String.eqb_eq in E. now subst.
  - intros H. exists x. split; auto. apply String.eqb_refl.
Qed.

Definition directiveText (kv : string * list string) : string :=
  (fst kv ++ " " ++ join " " (snd kv) ++ ";")%string.

Lemma string_app_assoc (a b c : string) :
  ((a ++ b) ++ c = a ++ (b ++ c))%string.
Proof. induction a; simpl; congruence. Qed.

Lemma string_app_empty_r (a : string) : (a ++ "" = a)%string.
Proof. induction a; simpl; congruence. Qed.

Lemma string_length_app (a b : string) :
  String.length (a ++ b) = String.length a + String.length b.
Proof. induction a; simpl; auto. Qed.

(** Two texts that differ still differ when the same text follows. *)
Lemma string_app_cancel_r (r : string) : forall a b : string,
  (a ++ r = b ++ r)%string -> a = b.
Proof.
  induction a as [|c a IH]; intros [|c' b] H; simpl in H.
  - reflexivity.
  - exfalso. apply (f_equal String.length) in H. simpl in H.
    rewrite string_length_app in H. lia.
  - exfalso. apply (f_equal String.length) in H. simpl in H.
    rewrite string_length_app in H. lia.
  - inversion H. f_equal. now apply IH.
Qed.

Lemma join_concat (sep : string) (l : list string) :
  join sep l = String.concat sep l.
Proof.
  induction l as [|x l IH]; [reflexivity|].
  destruct l as [|y l]; [reflexivity|].
  cbn [join String.concat] in *. now rewrite IH.
Qed.

(** The decimal notation of a natural number. *)
Definition decimal (n : nat) : string :=
  DecimalString.NilZero.string_of_uint (Nat.to_uint n).

Lemma serializeCSP_from (csp : JsObject (list string)) (acc : string) :
  fold_left (fun policy kv => (policy ++ directiveText kv)%string) csp acc
  = (acc ++ String.concat "" (map directiveText csp))%string.
Proof.
  revert acc. induction csp as [|kv csp IH]; intros acc; simpl.
  - now rewrite string_app_empty_r.
  - rewrite IH. destruct csp as [|kv' csp'].
    + simpl. now rewrite !string_app_empty_r.
    + rewrite string_app_assoc. reflexivity.
Qed.

(** The serialized policy is the directives in enumeration order, each
    written as name, space, tokens joined by spaces, semicolon. *)
Lemma serializeCSP_concat (csp : JsObject (list string)) :
  serializeCSP csp = String.concat "" (map directiveText csp).
Proof. unfold serializeCSP. apply (serializeCSP_from csp ""). Qed.

Lemma concat_empty_app (l1 l2 : list string) :
  String.concat "" (l1 ++ l2)
  = (String.concat "" l1 ++ String.concat "" l2)%string.
Proof.
  induction l1 as [|a l1 IH]; simpl; auto.
  destruct l1 as [|b l1]; simpl in *.
  - destruct l2; simpl; now rewrite ?string_app_empty_r.
  - rewrite IH. now rewrite string_app_assoc.
Qed.

Lemma patchCSP_present (csp : JsObject (list string)) (toks : list string) :
  obj_get "script-src" csp = Some toks ->
  In UNSAFE_EVAL toks ->
  patchCSP csp = csp.
Proof.
  intros Hg Hin. unfold patchCSP. rewrite Hg. rewrite Hg.
  apply includes_In in Hin. now rewrite Hin.
Qed.

Lemma patchCSP_lacking (csp : JsObject (list string)) (toks : list string) :
  obj_get "script-src" csp = Some toks ->
  ~ In UNSAFE_EVAL toks ->
  patchCSP csp = obj_set "script-src" (toks ++ [UNSAFE_EVAL]) csp.
Proof.
  intros Hg Hin. unfold patchCSP. rewrite Hg. rewrite Hg.
  destruct (includes UNSAFE_EVAL toks) eqn:E; auto.
  apply includes_In in E. contradiction.
Qed.

(** Without a [script-src] directive the default is stored as one array
    element, [includes] does not find the token inside it, and the token
    is pushed after it. *)
Lemma patchCSP_absent (csp : JsObject (list string)) :
  obj_get "script-src" csp = None ->
  patchCSP csp = csp ++ [("script-src", [DEFAULT_SCRIPT_SRC; UNSAFE_EVAL])].
Proof.
  intros Hg. unfold patchCSP. rewrite Hg.
  rewrite obj_get_set_same.
  replace (includes UNSAFE_EVAL [DEFAULT_SCRIPT_SRC]) with false by reflexivity.
  rewrite obj_set_set. now apply obj_set_absent.
Qed.

Section PatcherProperties.

Context {host : Host}.

Lemma cspPatchHMR_nonempty (p : string) :
  p <> "" -> cspPatchHMR (Some p) = serializeCSP (patchCSP (parseCSP p)).
Proof.
  intros Hp. unfold cspPatchHMR.
  destruct (String.eqb p "") eqn:E; auto.
  apply String.eqb_eq in E. contradiction.
Qed.

(** C3 (amended). For a non-empty policy whose [script-src] directive
    already holds ['unsafe-eval'], the patcher changes no directive: the
    parsed policy is returned as it is, so [script-src] keeps its tokens
    (with as many occurrences of ['unsafe-eval'] as it had, once when it
    had one) and every other directive keeps its token list in order; the
    output is the plain re-serialization of the parsed directives. *)
Theorem cspPatchHMR_keeps_patched_policy (p : string) (toks : list string) :
  p <> "" ->
  obj_get "script-src" (parseCSP p) = Some toks ->
  In UNSAFE_EVAL toks ->
  patchCSP (parseCSP p) = parseCSP p /\
  (forall k, obj_get k (patchCSP (parseCSP p)) = obj_get k (parseCSP p)) /\
  obj_get "script-src" (patchCSP (parseCSP p)) = Some toks /\
  (count_occ string_dec toks UNSAFE_EVAL = 1 ->
   exists toks', obj_get "script-src" (patchCSP (parseCSP p)) = Some toks' /\
                 count_occ string_dec toks' UNSAFE_EVAL = 1) /\
  cspPatchHMR (Some p) = String.concat "" (map directiveText (parseCSP p)).
Proof.
  intros Hp Hg Hin.
  pose proof (patchCSP_present _ Hg Hin) as E.
  rewrite (cspPatchHMR_nonempty Hp), E, serializeCSP_concat.
  repeat split; auto.
  intros Hc. exists toks. auto.
Qed.

(** When [script-src] exists without the token, the token is appended
    once at its end; directive names and order stay, and the other
    directives keep their tokens. *)
Lemma cspPatchHMR_appends_token (p : string) (toks : list string) :
  p <> "" ->
  obj_get "script-src" (parseCSP p) = Some toks ->
  ~ In UNSAFE_EVAL toks ->
  obj_get "script-src" (patchCSP (parseCSP p)) = Some (toks ++ [UNSAFE_EVAL]) /\
  (forall k, k <> "script-src" ->
             obj_get k (patchCSP (parseCSP p)) = obj_get k (parseCSP p)) /\
  obj_keys (patchCSP (parseCSP p)) = obj_keys (parseCSP p) /\
  cspPatchHMR (Some p)
  = String.concat "" (map directiveText (patchCSP (parseCSP p))).
Proof.
  intros Hp Hg Hin.
  rewrite (cspPatchHMR_nonempty Hp), serializeCSP_concat.
  rewrite (patchCSP_lacking _ Hg Hin).
  repeat split.
  - apply obj_get_set_same.
  - intros k Hk. apply obj_get_set_other. congruence.
  - eapply obj_set_keys; eauto.
Qed.

(** Without a [script-src] directive the output is the parsed directives
    in order, followed by a synthesized [script-src] whose source list
    carries the token twice. *)
Lemma cspPatchHMR_synthesizes_script_src (p : string) :
  p <> "" ->
  obj_get "script-src" (parseCSP p) = None ->
  cspPatchHMR (Some p)
  = (String.concat "" (map directiveText (parseCSP p))
     ++ "script-src 'self' 'unsafe-eval' blob: filesystem: 'unsafe-eval';")%string.
Proof.
  intros Hp Hg.
  rewrite (cspPatchHMR_nonempty Hp), serializeCSP_concat.
  rewrite (patchCSP_absent _ Hg), map_app, concat_empty_app.
  reflexivity.
Qed.

(** The policy the patcher returns when there is none to patch. *)
Lemma cspPatchHMR_default :
  cspPatchHMR None
  = "script-src 'self' 'unsafe-eval' blob: filesystem:;object-src 'self' blob: filesystem:;".
Proof. reflexivity. Qed.

End PatcherProperties.

(** Witness of C3 (amended): a patched policy goes through unchanged. *)
Lemma cspPatchHMR_keeps_patched_policy_witness :
  @cspPatchHMR demoHost (Some "default-src 'self'; script-src 'self' 'unsafe-eval'")
  = "default-src 'self';script-src 'self' 'unsafe-eval';".
Proof.
  pose proof (@cspPatchHMR_keeps_patched_policy demoHost
                "default-src 'self'; script-src 'self' 'unsafe-eval'"
                ["'self'"; "'unsafe-eval'"]) as H.
  destruct H as (_ & _ & _ & _ & H).
  - discriminate.
  - reflexivity.
  - simpl. auto.
  - rewrite H. reflexivity.
Defined.

(** C3 as stated fails: a [script-src] that holds ['unsafe-eval'] twice is
    returned with the token twice, in the output text and in its parse. *)
Lemma cspPatchHMR_keeps_duplicate_token :
  let p := "script-src 'unsafe-eval' 'unsafe-eval'" in
  (exists toks, obj_get "script-src" (@parseCSP demoHost p) = Some toks /\
                In UNSAFE_EVAL toks) /\
  @cspPatchHMR demoHost (Some p) = "script-src 'unsafe-eval' 'unsafe-eval';" /\
  (exists toks, obj_get "script-src"
                  (@parseCSP demoHost (@cspPatchHMR demoHost (Some p))) = Some toks /\
                count_occ string_dec toks UNSAFE_EVAL = 2) /\
  ~ (exists toks, obj_get "script-src"
                    (patchCSP (@parseCSP demoHost p)) = Some toks /\
                  count_occ string_dec toks UNSAFE_EVAL = 1).
Proof.
  cbv zeta. repeat split.
  - exists ["'unsafe-eval'"; "'unsafe-eval'"]. split; [reflexivity | simpl; auto].
  - exists ["'unsafe-eval'"; "'unsafe-eval'"]. split; reflexivity.
  - intros [toks [Hg Hc]]. vm_compute in Hg. inversion Hg; subst toks.
    vm_compute in Hc. discriminate.
Qed.

(** C4: at a policy without [script-src] the synthesized directive is not
    the default source list: the token follows it a second time. *)
Theorem cspPatchHMR_doubles_token_in_default :
  @cspPatchHMR demoHost (Some "object-src 'self'")
  = "object-src 'self';script-src 'self' 'unsafe-eval' blob: filesystem: 'unsafe-eval';" /\
  obj_get "script-src" (patchCSP (@parseCSP demoHost "object-src 'self'"))
  = Some ["'self' 'unsafe-eval' blob: filesystem:"; "'unsafe-eval'"].
Proof. split; reflexivity. Qed.

(* ================================================================== *)
(** ** Paths: reading after writing *)

(** Two paths diverge when they differ at a step both have. *)
Fixpoint diverges (p q : path) : bool :=
  match p, q with
  | a :: p', b :: q' => if seg_eqb a b then diverges p' q' else true
  | _, _ => false
  end.

Lemma seg_eqb_eq (a b : seg) : seg_eqb a b = true <-> a = b.
Proof.
  destruct a, b; simpl; split; intros H; try discriminate.
  - apply String.eqb_eq in H. congruence.
  - inversion H. apply String.eqb_refl.
  - apply Nat.eqb_eq in H. congruence.
  - inversion H. apply Nat.eqb_refl.
Qed.

Lemma seg_eqb_neq (a b : seg) : seg_eqb a b = false <-> a <> b.
Proof.
  split; intros H.
  - intros E. apply seg_eqb_eq in E. congruence.
  - destruct (seg_eqb a b) eqn:E; auto. apply seg_eqb_eq in E. contradiction.
Qed.

Lemma seg_eqb_refl (a : seg) : seg_eqb a a = true.
Proof. now apply seg_eqb_eq. Qed.

Lemma nth_error_list_set_same {A} (l : list A) (i : nat) (x : A) :
  i < length l -> nth_error (list_set i x l) i = Some x.
Proof.
  revert i. induction l as [|y l IH]; intros [|i] H; simpl in *; try lia; auto.
  apply IH. lia.
Qed.

Lemma nth_error_list_set_other {A} (l : list A) (i j : nat) (x : A) :
  i <> j -> nth_error (list_set i x l) j = nth_error l j.
Proof.
  revert i j.
  induction l as [|y l IH]; intros [|i] [|j] H; simpl; auto; try congruence.
Qed.

Lemma length_list_set {A} (l : list A) (i : nat) (x : A) :
  length (list_set i x l) = length l.
Proof.
  revert i. induction l as [|y l IH]; intros [|i]; simpl; auto.
Qed.

Lemma get_set_seg_same (d d' : json) (a : seg) (x : json) :
  set_seg d a x = Some d' -> get_seg d' a = Some x.
Proof.
  destruct d, a; simpl; try discriminate.
  - destruct (i <? length items) eqn:E1.
    + intros H. inversion H. simpl.
      apply nth_error_list_set_same. now apply Nat.ltb_lt.
    + destruct (i =? length items) eqn:E2; [|discriminate].
      intros H. inversion H. simpl. apply Nat.eqb_eq in E2. subst i.
      rewrite nth_error_app2 by lia. now rewrite Nat.sub_diag.
  - intros H. inversion H. simpl. apply obj_get_set_same.
Qed.

Lemma get_set_seg_other (d d' : json) (a b : seg) (x : json) :
  set_seg d a x = Some d' -> a <> b -> get_seg d' b = get_seg d b.
Proof.
  destruct d, a; simpl; try discriminate.
  - destruct (i <? length items) eqn:E1.
    + intros H Hne. inversion H. destruct b; simpl; auto.
      apply nth_error_list_set_other. congruence.
    + destruct (i =? length items) eqn:E2; [|discriminate].
      intros H Hne. inversion H. destruct b as [|j]; simpl; auto.
      apply Nat.eqb_eq in E2. subst i.
      destruct (Nat.lt_ge_cases j (length items)) as [Hj|Hj].
      * now rewrite nth_error_app1.
      * assert (length items < j) by (assert (length items <> j) by congruence; lia).
        transitivity (@None json).
        -- apply nth_error_None. rewrite length_app. simpl. lia.
        -- symmetry. apply nth_error_None. lia.
  - intros H Hne. inversion H. destruct b; simpl; auto.
    apply obj_get_set_other. congruence.
Qed.

Lemma set_path_cons (d : json) (a a' : seg) (p : path) (v : json) :
  set_path d (a :: a' :: p) v
  = match get_seg d a with
    | Some c => match set_path c (a' :: p) v with
                | Some c' => set_seg d a c'
                | None => None
                end
    | None => None
    end.
Proof. reflexivity. Qed.

Lemma set_path_cons_ne (d : json) (a : seg) (q : path) (v : json) :
  q <> [] ->
  set_path d (a :: q) v
  = match get_seg d a with
    | Some c => match set_path c q v with
                | Some c' => set_seg d a c'
                | None => None
                end
    | None => None
    end.
Proof. destruct q; [contradiction | reflexivity]. Qed.

(** A write reaches [d] through one [set_seg] at its first step. *)
Lemma set_path_head (d d' : json) (a : seg) (p : path) (v : json) :
  set_path d (a :: p) v = Some d' -> exists x, set_seg d a x = Some d'.
Proof.
  destruct p as [|a' p].
  - simpl. eauto.
  - rewrite set_path_cons.
    destruct (get_seg d a) as [c|]; [|discriminate].
    destruct (set_path c (a' :: p) v) as [c'|]; [|discriminate]. eauto.
Qed.

(** A write leaves every diverging path as it was. *)
Lemma set_path_frame (p : path) : forall (q : path) (d d' v : json),
  diverges p q = true ->
  set_path d p v = Some d' ->
  get_path d' q = get_path d q.
Proof.
  induction p as [|a p IH]; intros q d d' v Hdiv Hset;
    [simpl in Hdiv; discriminate|].
  destruct q as [|b q]; [simpl in Hdiv; discriminate|].
  simpl in Hdiv. destruct (seg_eqb a b) eqn:Eab.
  - apply seg_eqb_eq in Eab. subst b.
    destruct p as [|a' p]; [simpl in Hdiv; discriminate|].
    rewrite set_path_cons in Hset.
    destruct (get_seg d a) as [c|] eqn:Ec; [|discriminate].
    destruct (set_path c (a' :: p) v) as [c'|] eqn:Ec'; [|discriminate].
    cbn [get_path]. rewrite (get_set_seg_same _ _ _ Hset), Ec.
    eapply IH; eauto.
  - apply seg_eqb_neq in Eab.
    destruct (set_path_head _ _ _ _ Hset) as [x Hx].
    cbn [get_path]. now rewrite (get_set_seg_other _ _ Hx Eab).
Qed.

Lemma get_path_app (p r : path) : forall d : json,
  get_path d (p ++ r)
  = match get_path d p with Some c => get_path c r | None => None end.
Proof.
  induction p as [|a p IH]; intros d; simpl; auto.
  destruct (get_seg d a); auto.
Qed.

Lemma set_path_app (p r : path) : forall (d v : json),
  r <> [] ->
  set_path d (p ++ r) v
  = match get_path d p with
    | Some c => match set_path c r v with
                | Some c' => set_path d p c'
                | None => None
                end
    | None => None
    end.
Proof.
  induction p as [|a p IH]; intros d v Hr.
  - simpl. destruct (set_path d r v); auto.
  - change ((a :: p) ++ r) with (a :: (p ++ r)).
    rewrite set_path_cons_ne
      by (intros E; apply app_eq_nil in E; tauto).
    cbn [get_path].
    destruct (get_seg d a) as [c|] eqn:Ec; auto.
    rewrite IH by auto.
    destruct (get_path c p) as [c1|] eqn:Ec1; auto.
    destruct (set_path c1 r v) as [c1'|]; auto.
    destruct p as [|a' p].
    + simpl in Ec1. inversion Ec1. reflexivity.
    + rewrite set_path_cons, Ec. reflexivity.
Qed.

(** Replacing an absent or falsy value by an empty object shows nothing
    new strictly below. *)
Lemma get_path_below_fresh (p r : path) (d d' : json) :
  r <> [] ->
  truthy (get_path d p) = false ->
  set_path d p (JObj []) = Some d' ->
  get_path d' (p ++ r) = get_path d (p ++ r).
Proof.
  intros Hr Hnone Hset.
  rewrite !get_path_app.
  assert (Hold : match get_path d p with
                 | Some c => get_path c r
                 | None => None
                 end = None).
  { destruct (get_path d p) as [c|]; [|reflexivity].
    destruct r as [|b r]; [contradiction|].
    destruct c; try discriminate; destruct b; reflexivity. }
  rewrite Hold.
  assert (Hsame : get_path d' p = Some (JObj [])).
  { clear Hr Hnone Hold. revert d d' Hset.
    induction p as [|a p IH]; intros d d' Hset.
    - simpl in *. congruence.
    - destruct p as [|a' p].
      + cbn [set_path] in Hset. cbn [get_path].
        now rewrite (get_set_seg_same _ _ _ Hset).
      + rewrite set_path_cons in Hset.
        destruct (get_seg d a) as [c|]; [|discriminate].
        destruct (set_path c (a' :: p) (JObj [])) as [c'|] eqn:Ec'; [|discriminate].
        cbn [get_path]. rewrite (get_set_seg_same _ _ _ Hset).
        eapply IH; eauto. }
  rewrite Hsame. destruct r as [|b r]; [contradiction|].
  simpl. destruct b; reflexivity.
Qed.

(* ================================================================== *)
(** ** Runs of the state and error monad *)

Lemma bind_Ok {A B} (m : M A) (f : A -> M B) (s s'' : State) (b : B) :
  bind m f s = Ok (b, s'') ->
  exists a s', m s = Ok (a, s') /\ f a s' = Ok (b, s'').
Proof.
  unfold bind. destruct (m s) as [[a s']|e]; [|discriminate]. eauto.
Qed.

Lemma bind_Throw {A B} (m : M A) (f : A -> M B) (s : State) (e : Exn) :
  m s = Throw e -> bind m f s = Throw e.
Proof. unfold bind. now intros ->. Qed.

Lemma bind_step {A B} (m : M A) (f : A -> M B) (s s' : State) (a : A) :
  m s = Ok (a, s') -> bind m f s = f a s'.
Proof. unfold bind. now intros ->. Qed.

(** A computation that only inspects the state. *)
Definition reads_only {A} (m : M A) : Prop :=
  forall s a s', m s = Ok (a, s') -> s' = s.

Lemma forM_invariant {A} (I : State -> Prop) (l : list A) (body : A -> M unit) :
  (forall x s s', In x l -> I s -> body x s = Ok (tt, s') -> I s') ->
  forall s s', I s -> forM l body s = Ok (tt, s') -> I s'.
Proof.
  induction l as [|x l IH]; intros Hbody s s' Hs Hrun; simpl in Hrun.
  - inversion Hrun. now subst.
  - apply bind_Ok in Hrun. destruct Hrun as ([] & s1 & H1 & H2).
    apply (IH (fun y t t' Hy => Hbody y t t' (or_intror Hy)) s1 s'); auto.
    eapply Hbody; eauto. now left.
Qed.

Lemma forM_ext {A} (l : list A) (f g : A -> M unit) :
  (forall x, f x = g x) -> forM l f = forM l g.
Proof.
  intros H. induction l as [|x l IH]; simpl; auto. now rewrite H, IH.
Qed.

Lemma foldM_invariant {A B} (J : B -> State -> Prop) (P : A -> Prop)
  (l : list A) (body : B -> A -> M B) :
  (forall x acc acc' s s',
      In x l -> J acc s -> body acc x s = Ok (acc', s') -> J acc' s' /\ P x) ->
  forall acc acc' s s',
    J acc s -> foldM l acc body s = Ok (acc', s') -> J acc' s' /\ Forall P l.
Proof.
  induction l as [|x l IH]; intros Hbody acc acc' s s' Hs Hrun; simpl in Hrun.
  - inversion Hrun. subst. auto.
  - apply bind_Ok in Hrun. destruct Hrun as (acc1 & s1 & H1 & H2).
    destruct (Hbody x acc acc1 s s1 (or_introl eq_refl) Hs H1) as [HJ HP].
    destruct (IH (fun y a a' t t' Hy => Hbody y a a' t t' (or_intror Hy))
                 acc1 acc' s1 s' HJ H2) as [HJ' HPs].
    auto.
Qed.

(** An invariant that knows which elements a loop has been through. *)
Lemma foldM_prefix {A B} (J : list A -> B -> State -> Prop) (l : list A)
  (body : B -> A -> M B) :
  (forall done x rest acc acc' s s',
      l = done ++ x :: rest -> J done acc s ->
      body acc x s = Ok (acc', s') -> J (done ++ [x]) acc' s') ->
  forall acc acc' s s',
    J [] acc s -> foldM l acc body s = Ok (acc', s') -> J l acc' s'.
Proof.
  intros Hbody.
  assert (H : forall rest done acc acc' s s',
             l = done ++ rest -> J done acc s ->
             foldM rest acc body s = Ok (acc', s') -> J l acc' s').
  { induction rest as [|x rest IH]; intros done acc acc' s s' Hl HJ Hrun.
    - simpl in Hrun. inversion Hrun. subst. now rewrite app_nil_r.
    - simpl in Hrun. apply bind_Ok in Hrun.
      destruct Hrun as (acc1 & s1 & H1 & H2).
      apply (IH (done ++ [x]) acc1 acc' s1 s'); auto.
      + now rewrite <- app_assoc.
      + eapply Hbody; eauto. }
  intros acc acc' s s' HJ Hrun. eapply (H l []); eauto.
Qed.

Lemma forM_prefix {A} (J : list A -> State -> Prop) (l : list A)
  (body : A -> M unit) :
  (forall done x rest s s',
      l = done ++ x :: rest -> J done s ->
      body x s = Ok (tt, s') -> J (done ++ [x]) s') ->
  forall s s', J [] s -> forM l body s = Ok (tt, s') -> J l s'.
Proof.
  intros Hbody.
  assert (H : forall rest done s s',
             l = done ++ rest -> J done s ->
             forM rest body s = Ok (tt, s') -> J l s').
  { induction rest as [|x rest IH]; intros done s s' Hl HJ Hrun.
    - simpl in Hrun. inversion Hrun. subst. now rewrite app_nil_r.
    - simpl in Hrun. apply bind_Ok in Hrun.
      destruct Hrun as ([] & s1 & H1 & H2).
      apply (IH (done ++ [x]) s1 s'); auto.
      + now rewrite <- app_assoc.
      + eapply Hbody; eauto. }
  intros s s' HJ Hrun. eapply (H l []); eauto.
Qed.

Lemma mapM_invariant {A B} (I : State -> Prop) (l : list A) (f : A -> M B) :
  (forall x y s s', In x l -> I s -> f x s = Ok (y, s') -> I s') ->
  forall ys s s', I s -> mapM f l s = Ok (ys, s') -> I s'.
Proof.
  induction l as [|x l IH]; intros Hf ys s s' Hs Hrun; simpl in Hrun.
  - inversion Hrun. now subst.
  - apply bind_Ok in Hrun. destruct Hrun as (y & s1 & H1 & H2).
    apply bind_Ok in H2. destruct H2 as (ys1 & s2 & H2 & H3).
    inversion H3. subst.
    apply (IH (fun z w t t' Hz => Hf z w t t' (or_intror Hz)) ys1 s1 s'); auto.
    eapply Hf; eauto. now left.
Qed.

(** ** The changes a run makes

    [evolves W s s']: [s'] comes from [s] by registering dependencies and
    by writes to the document, each write satisfying [W] on its path, the
    value found there and the value stored. *)

Section Evolution.

Variable W : path -> option json -> json -> Prop.

Inductive evolves : State -> State -> Prop :=
| ev_refl s : evolves s s
| ev_dep s d s' :
    evolves {| program := program s; deps := deps s ++ [d] |} s' ->
    evolves s s'
| ev_write s p v d' s' :
    W p (get_path (program s) p) v ->
    set_path (program s) p v = Some d' ->
    evolves {| program := d'; deps := deps s |} s' ->
    evolves s s'.

Lemma evolves_trans (s1 s2 s3 : State) :
  evolves s1 s2 -> evolves s2 s3 -> evolves s1 s3.
Proof.
  induction 1; intros H3; auto.
  - eapply ev_dep; eauto.
  - eapply ev_write; eauto.
Qed.

Definition preserves {A} (m : M A) : Prop :=
  forall s a s', m s = Ok (a, s') -> evolves s s'.

Lemma reads_only_preserves {A} (m : M A) : reads_only m -> preserves m.
Proof. intros H s a s' Hrun. rewrite (H _ _ _ Hrun). constructor. Qed.

Lemma preserves_bind {A B} (m : M A) (f : A -> M B) :
  preserves m -> (forall a, preserves (f a)) -> preserves (bind m f).
Proof.
  intros Hm Hf s b s'' Hrun.
  apply bind_Ok in Hrun. destruct Hrun as (a & s' & H1 & H2).
  eapply evolves_trans; [eapply Hm | eapply Hf]; eauto.
Qed.

Lemma preserves_ret {A} (a : A) : preserves (ret a).
Proof. intros s b s' H. inversion H. constructor. Qed.

Lemma preserves_throw {A} (e : Exn) : preserves (@throw A e).
Proof. intros s b s' H. discriminate. Qed.

Lemma preserves_forM {A} (l : list A) (body : A -> M unit) :
  (forall x, In x l -> preserves (body x)) -> preserves (forM l body).
Proof.
  intros Hbody s [] s' Hrun.
  eapply forM_invariant with (I := fun t => evolves s t); [ | | exact Hrun].
  - intros x t t' Hx Ht Hb. eapply evolves_trans; eauto. eapply Hbody; eauto.
  - constructor.
Qed.

Lemma preserves_foldM {A B} (l : list A) (acc : B) (body : B -> A -> M B) :
  (forall x a, In x l -> preserves (body a x)) -> preserves (foldM l acc body).
Proof.
  intros Hbody s acc' s' Hrun.
  eapply (foldM_invariant (fun _ t => evolves s t) (fun _ => True));
    [ | | exact Hrun].
  - intros x a a' t t' Hx Ht Hb. split; auto.
    eapply evolves_trans; eauto. eapply Hbody; eauto.
  - constructor.
Qed.

Lemma preserves_mapM {A B} (l : list A) (f : A -> M B) :
  (forall x, In x l -> preserves (f x)) -> preserves (mapM f l).
Proof.
  intros Hf s ys s' Hrun.
  eapply mapM_invariant with (I := fun t => evolves s t); [ | | exact Hrun].
  - intros x y t t' Hx Ht Hb. eapply evolves_trans; eauto. eapply Hf; eauto.
  - constructor.
Qed.

Lemma preserves_writeAt (p : path) (v : json) :
  (forall s, W p (get_path (program s) p) v) -> preserves (writeAt p v).
Proof.
  intros HW s [] s' Hrun. unfold writeAt in Hrun.
  destruct (set_path (program s) p v) as [d'|] eqn:E;
    [|destruct (get_path _ _) as [[]|]; discriminate].
  inversion Hrun. subst. eapply ev_write; eauto. constructor.
Qed.

Lemma evolves_deps (s s' : State) :
  evolves s s' -> exists rest, deps s' = deps s ++ rest.
Proof.
  induction 1.
  - exists []. now rewrite app_nil_r.
  - destruct IHevolves as [rest Hr]. simpl in Hr.
    exists (d :: rest). rewrite Hr, <- app_assoc. reflexivity.
  - destruct IHevolves as [rest Hr]. simpl in Hr. eauto.
Qed.

(** A path no write reaches keeps its value: each write either diverges
    from it, or puts an empty object over an absent or falsy value,
    strictly above. *)
Definition spares (q : path) (p : path) (old : option json) (new : json) : Prop :=
  diverges p q = true \/
  (truthy old = false /\ new = JObj [] /\ exists r, r <> [] /\ q = p ++ r).

Lemma evolves_frame (q : path) (s s' : State) :
  (forall p old new, W p old new -> spares q p old new) ->
  evolves s s' ->
  get_path (program s') q = get_path (program s) q.
Proof.
  intros HW. induction 1; auto.
  rewrite IHevolves. simpl.
  destruct (HW _ _ _ H) as [Hd | (Hold & Hnew & r & Hr & Hq)].
  - eapply set_path_frame; eauto.
  - subst q v. eapply get_path_below_fresh; eauto.
Qed.

End Evolution.

Lemma evolves_mono (W W' : path -> option json -> json -> Prop) (s s' : State) :
  (forall p old new, W p old new -> W' p old new) ->
  evolves W s s' -> evolves W' s s'.
Proof.
  intros HWW. induction 1.
  - constructor.
  - eapply ev_dep; eauto.
  - eapply ev_write; eauto.
Qed.

Lemma preserves_mono (W W' : path -> option json -> json -> Prop) {A} (m : M A) :
  (forall p old new, W p old new -> W' p old new) ->
  preserves W m -> preserves W' m.
Proof. intros HWW Hm s a s' Hrun. eapply evolves_mono; eauto. Qed.

(** Inversion of the primitive operations on a run that ended well. *)

Lemma ret_run {A} (a b : A) (s s' : State) :
  ret a s = Ok (b, s') -> b = a /\ s' = s.
Proof. intros H. inversion H. auto. Qed.

Lemma readAt_run (p : path) (v : option json) (s s' : State) :
  readAt p s = Ok (v, s') -> v = get_path (program s) p /\ s' = s.
Proof. intros H. inversion H. auto. Qed.

Lemma readProp_run (p : path) (k : string) (v : option json) (s s' : State) :
  readProp p k s = Ok (v, s') ->
  s' = s /\
  exists d, get_path (program s) p = Some d /\ d <> JNull /\
            v = get_seg d (Key k).
Proof.
  unfold readProp. intros H.
  destruct (get_path (program s) p) as [d|]; [|discriminate].
  destruct d; try discriminate; inversion H; subst;
    (split; [reflexivity | eexists; repeat split; discriminate]).
Qed.

Lemma asString_run (e : Exn) (v : option json) (x : string) (s s' : State) :
  asString e v s = Ok (x, s') -> v = Some (JStr x) /\ s' = s.
Proof.
  unfold asString. intros H.
  destruct v as [[]|]; try discriminate. inversion H. auto.
Qed.

Lemma writeAt_run (p : path) (v : json) (u : unit) (s s' : State) :
  writeAt p v s = Ok (u, s') ->
  exists d', set_path (program s) p v = Some d' /\
             s' = {| program := d'; deps := deps s |}.
Proof.
  unfold writeAt. intros H.
  destruct (set_path (program s) p v) as [d'|];
    [|destruct (get_path _ _) as [[]|]; discriminate].
  inversion H. eauto.
Qed.

Lemma pushAt_run (p : path) (v : json) (u : unit) (s s' : State) :
  pushAt p v s = Ok (u, s') ->
  exists l d', get_path (program s) p = Some (JArr l) /\
               set_path (program s) (p ++ [Idx (length l)]) v = Some d' /\
               s' = {| program := d'; deps := deps s |}.
Proof.
  unfold pushAt. intros H.
  destruct (get_path (program s) p) as [[]|]; try discriminate.
  apply writeAt_run in H. destruct H as (d' & H1 & H2). eauto.
Qed.

Definition is_number_two (v : option json) : bool :=
  match v with Some (JNum n) => PrimFloat.eqb n 2%float | _ => false end.

Lemma liftR_run {A} (r : Result A) (a : A) (s s' : State) :
  liftR r s = Ok (a, s') -> s' = s /\ r = Ok a.
Proof.
  unfold liftR. intros H. destruct r; [|discriminate]. inversion H. auto.
Qed.

Lemma looseEqString_run {host : Host} (v : option json) (x : string) (b : bool)
  (s s' : State) :
  looseEqString v x s = Ok (b, s') -> s' = s /\ looseEqualsString v x = Ok b.
Proof. apply liftR_run. Qed.

Lemma looseEq2_run {host : Host} (v : option json) (b : bool) (s s' : State) :
  looseEq2 v s = Ok (b, s') ->
  s' = s /\ looseEqualsNumber v 2%float = Ok b.
Proof. apply liftR_run. Qed.

(** The number 2 is loosely equal to 2. *)
Lemma number_two_loose {host : Host} (v : option json) :
  is_number_two v = true -> looseEqualsNumber v 2%float = Ok true.
Proof.
  destruct v as [[]|]; try discriminate. simpl. now intros ->.
Qed.

Ltac run_inv :=
  repeat (match goal with
          | H : bind _ _ _ = Ok _ |- _ =>
              apply bind_Ok in H; destruct H as (? & ? & ? & H);
              cbv beta in H
          | H : ret _ _ = Ok _ |- _ =>
              let E := fresh "E" in
              apply ret_run in H; destruct H as [E ?];
              try (injection E as ? ?); subst
          | H : throw _ _ = Ok _ |- _ => discriminate H
          | H : readAt _ _ = Ok _ |- _ =>
              apply readAt_run in H; destruct H; subst
          | H : readProp _ _ _ = Ok _ |- _ =>
              apply readProp_run in H; destruct H as (? & ? & ? & ? & ?); subst
          | H : asString _ _ _ = Ok _ |- _ =>
              apply asString_run in H; destruct H; subst
          | H : writeAt _ _ _ = Ok _ |- _ =>
              apply writeAt_run in H; destruct H as (? & ? & ?); subst
          | H : pushAt _ _ _ = Ok _ |- _ =>
              apply pushAt_run in H; destruct H as (? & ? & ? & ? & ?); subst
          | H : looseEqString _ _ _ = Ok _ |- _ =>
              apply looseEqString_run in H; destruct H; subst
          | H : looseEq2 _ _ = Ok _ |- _ =>
              apply looseEq2_run in H; destruct H; subst
          end).

Ltac bind_inv H v s H1 :=
  apply bind_Ok in H; destruct H as (v & s & H1 & H); cbv beta in H.

Lemma addURLDependency_run {host : Host} (url : string) (o : DepOpts) (tok : string)
  (s s' : State) :
  addURLDependency url o s = Ok (tok, s') ->
  let d := {| specifier := url; opts := o |} in
  tok = depToken d /\ s' = {| program := program s; deps := deps s ++ [d] |}.
Proof. intros H. inversion H. auto. Qed.

Lemma sourceLocation_run {host : Host} (ptrs : Pointers) (ptr : string)
  (t : option LocType) (r : Range) (s s' : State) :
  sourceLocation ptrs ptr t s = Ok (r, s') ->
  s' = s /\ exists m, ptrs ptr = Some m /\ r = getJSONSourceLocation m t.
Proof.
  unfold sourceLocation. intros H.
  destruct (ptrs ptr) as [m|]; [|discriminate]. inversion H. eauto.
Qed.

Ltac host_inv :=
  repeat (run_inv;
          match goal with
          | H : addURLDependency _ _ _ = Ok _ |- _ =>
              apply addURLDependency_run in H; cbv zeta in H;
              destruct H; subst
          | H : sourceLocation _ _ _ _ = Ok _ |- _ =>
              apply sourceLocation_run in H; destruct H as (? & ? & ? & ?); subst
          end); run_inv.

Lemma get_path_prop (d c : json) (p : path) (k : string) :
  get_path d p = Some c ->
  get_path d (p ++ [Key k]) = get_seg c (Key k).
Proof.
  intros H. rewrite get_path_app, H. simpl.
  destruct (get_seg c (Key k)); reflexivity.
Qed.

(** From [ref = value at p] and [ref.k = v]: the value at [p ++ [k]]. *)
Ltac prop_fact :=
  match goal with
  | Hg : get_path ?d ?p = Some ?c, Hs : get_seg ?c (Key ?k) = ?v |- _ =>
      let F := fresh "Hold" in
      assert (F : get_path d (p ++ [Key k]) = v)
        by (rewrite (@get_path_prop _ _ _ k Hg); exact Hs);
      simpl app in F; clear Hs
  end.

Lemma root_value (s : State) (d : json) :
  get_path (program s) [] = Some d -> d = program s.
Proof. simpl. congruence. Qed.

Ltac root_fact :=
  repeat match goal with
         | Hg : get_path (program ?s) [] = Some ?d |- _ =>
             apply root_value in Hg; subst d
         end.

(** Inversion through the tests of a run as well. *)
Ltac run_split :=
  repeat (host_inv;
          match goal with
          | H : (match ?x with _ => _ end) _ = Ok _ |- _ =>
              destruct x eqn:?; try discriminate H
          end); host_inv.

(** [under pre p]: [p] is [pre] or lies below it. *)
Fixpoint under (pre p : path) : bool :=
  match pre, p with
  | [], _ => true
  | a :: pre', b :: p' => (seg_eqb a b && under pre' p')%bool
  | _ :: _, [] => false
  end.

Lemma under_refl (p : path) : under p p = true.
Proof.
  induction p as [|a p IH]; simpl; auto.
  rewrite IH. replace (seg_eqb a a) with true; auto.
  symmetry. now apply seg_eqb_eq.
Qed.

Lemma under_app (pre r : path) : under pre (pre ++ r) = true.
Proof.
  induction pre as [|a pre IH]; simpl; auto.
  rewrite IH. replace (seg_eqb a a) with true; auto.
  symmetry. now apply seg_eqb_eq.
Qed.

Lemma under_app_l (pre p r : path) :
  under pre p = true -> under pre (p ++ r) = true.
Proof.
  revert p. induction pre as [|a pre IH]; intros [|b p]; simpl; auto.
  - discriminate.
  - intros H. apply andb_true_iff in H. destruct H as [H1 H2].
    now rewrite H1, IH.
Qed.

Lemma under_shorter (pre r p : path) :
  under (pre ++ r) p = true -> under pre p = true.
Proof.
  revert p. induction pre as [|a pre IH]; intros p H; auto.
  destruct p as [|b p]; [simpl in H; discriminate|].
  simpl in *. apply andb_true_iff in H. destruct H as [H1 H2].
  rewrite H1. simpl. auto.
Qed.

(** A write below a prefix that diverges from [q] diverges from [q]. *)
Lemma under_diverges (pre p q : path) :
  under pre p = true -> diverges pre q = true -> diverges p q = true.
Proof.
  revert p q. induction pre as [|a pre IH]; intros p q Hu Hd.
  - simpl in Hd. discriminate.
  - destruct p as [|b p]; [simpl in Hu; discriminate|].
    destruct q as [|c q]; [simpl in Hd; discriminate|].
    simpl in *. apply andb_true_iff in Hu. destruct Hu as [Hab Hu].
    apply seg_eqb_eq in Hab. subst b.
    destruct (seg_eqb a c); auto.
Qed.

(** The writes that keep the tree growing: a value is stored where there
    was none, or a string replaces a string. *)
Definition mono_write (old : option json) (new : json) : Prop :=
  old = None \/ exists a b, old = Some (JStr a) /\ new = JStr b.

(** The wiring steps test for truthiness before they store: a value is
    stored where there was none or a falsy one. *)
Definition lax_write (old : option json) (new : json) : Prop :=
  truthy old = false \/ exists a b, old = Some (JStr a) /\ new = JStr b.

Lemma mono_lax (old : option json) (new : json) :
  mono_write old new -> lax_write old new.
Proof. intros [-> | H]; [now left | now right]. Qed.

(** A footprint says which paths may be written, and with which value. *)
Definition Footprint := path -> json -> bool.

Definition writes_in (F : Footprint) : path -> option json -> json -> Prop :=
  fun p old new => F p new = true /\ mono_write old new.

Definition writes_lax (F : Footprint) : path -> option json -> json -> Prop :=
  fun p old new => F p new = true /\ lax_write old new.

(** The table walk only replaces strings by strings. *)
Definition string_write (old : option json) (new : json) : Prop :=
  exists a b, old = Some (JStr a) /\ new = JStr b.

Definition rewrites_in (F : Footprint) : path -> option json -> json -> Prop :=
  fun p old new => F p new = true /\ string_write old new.

Definition below (pre : path) : Footprint := fun p _ => under pre p.

Definition is_empty_object (v : json) : bool :=
  match v with JObj [] => true | _ => false end.

Definition path_eqb (p q : path) : bool :=
  (under p q && under q p)%bool.

Lemma writes_in_mono (F F' : Footprint) :
  (forall p v, F p v = true -> F' p v = true) ->
  forall p old new, writes_in F p old new -> writes_in F' p old new.
Proof. intros HF p old new [H1 H2]. split; auto. Qed.

Section StepEvolution.

Context {host : Host}.
Variable filePath : string.
Variable ptrs : Pointers.
Variable hot : bool.

Lemma sourceLocation_reads_only (ptr : string) (t : option LocType) :
  reads_only (sourceLocation ptrs ptr t).
Proof. intros s a s' H. now apply sourceLocation_run in H. Qed.

Lemma readAt_reads_only (p : path) : reads_only (readAt p).
Proof. intros s a s' H. now apply readAt_run in H. Qed.

Lemma readProp_reads_only (p : path) (k : string) : reads_only (readProp p k).
Proof. intros s a s' H. now apply readProp_run in H. Qed.

Lemma asString_reads_only (e : Exn) (v : option json) :
  reads_only (asString e v).
Proof. intros s a s' H. now apply asString_run in H. Qed.

Lemma looseEq2_reads_only (v : option json) : reads_only (looseEq2 v).
Proof. intros s a s' H. now apply looseEq2_run in H. Qed.

Lemma looseEqString_reads_only (v : option json) (x : string) :
  reads_only (looseEqString v x).
Proof. intros s a s' H. now apply looseEqString_run in H. Qed.

Lemma addURLDependency_preserves W (url : string) (o : DepOpts) :
  preserves W (addURLDependency url o).
Proof.
  intros s tok s' H. unfold addURLDependency in H. inversion H.
  eapply ev_dep. constructor.
Qed.

Lemma rewriteElement_run (p : path) (s s' : State) :
  rewriteElement filePath ptrs p s = Ok (tt, s') ->
  exists url m d',
    get_path (program s) p = Some (JStr url) /\
    ptrs (pointer p) = Some m /\
    let dep := {| specifier := url;
                  opts := stable filePath (getJSONSourceLocation m (Some LValue)) None |} in
    set_path (program s) p (JStr (depToken dep)) = Some d' /\
    s' = {| program := d'; deps := deps s ++ [dep] |}.
Proof.
  intros H. unfold rewriteElement in H. host_inv.
  simpl in *. eauto 10.
Qed.

Lemma evolves_dep_step W (s : State) (d : Dependency) :
  evolves W s {| program := program s; deps := deps s ++ [d] |}.
Proof. eapply ev_dep. constructor. Qed.

Lemma evolves_write_step (W : path -> option json -> json -> Prop)
  (s : State) (p : path) (v d' : json) (ds : list Dependency) :
  W p (get_path (program s) p) v ->
  set_path (program s) p v = Some d' ->
  ds = deps s ->
  evolves W s {| program := d'; deps := ds |}.
Proof. intros HW Hs ->. eapply ev_write; eauto. constructor. Qed.

Lemma rewriteElement_preserves (F : Footprint) (p : path) :
  (forall v, F p v = true) ->
  preserves (writes_in F) (rewriteElement filePath ptrs p).
Proof.
  intros HF s [] s' H. apply rewriteElement_run in H.
  destruct H as (url & m & d' & Hg & Hp & Hs & ->).
  eapply evolves_trans; [apply evolves_dep_step|].
  eapply evolves_write_step; simpl; eauto.
  split; [apply HF|]. right. rewrite Hg. eauto.
Qed.

Lemma pushAt_preserves (F : Footprint) (p : path) (v : json) :
  (forall n, F (p ++ [Idx n]) v = true) ->
  preserves (writes_in F) (pushAt p v).
Proof.
  intros HF s [] s' H. run_inv.
  eapply evolves_write_step; eauto.
  split; [apply HF|]. left.
  rewrite get_path_app.
  match goal with Hg : get_path _ p = Some _ |- _ => rewrite Hg end.
  simpl. assert (E : nth_error x (length x) = None) by (apply nth_error_None; lia).
  now rewrite E.
Qed.

(** Structural steps of a preservation proof. *)
Ltac pres_step :=
  match goal with
  | |- preserves _ (ret _) => apply preserves_ret
  | |- preserves _ (throw _) => apply preserves_throw
  | |- preserves _ (addURLDependency _ _) => apply addURLDependency_preserves
  | |- preserves _ (readProp _ _) =>
      apply reads_only_preserves, readProp_reads_only
  | |- preserves _ (readAt _) =>
      apply reads_only_preserves, readAt_reads_only
  | |- preserves _ (asString _ _) =>
      apply reads_only_preserves, asString_reads_only
  | |- preserves _ (sourceLocation _ _ _) =>
      apply reads_only_preserves, sourceLocation_reads_only
  | |- preserves _ (looseEq2 _) =>
      apply reads_only_preserves, looseEq2_reads_only
  | |- preserves _ (looseEqString _ _) =>
      apply reads_only_preserves, looseEqString_reads_only
  | |- preserves _ (bind _ _) => apply preserves_bind; [|intros ?]
  | |- preserves _ (if ?b then _ else _) => destruct b
  | |- preserves _ (match ?x with _ => _ end) => destruct x
  end.

Ltac loop_step :=
  match goal with
  | |- preserves _ (forM _ _) => apply preserves_forM; intros ? ?
  | |- preserves _ (mapM _ _) => apply preserves_mapM; intros ? ?
  | |- preserves _ (foldM _ _ _) => apply preserves_foldM; intros ? ? ?
  end.

Ltac pres := repeat pres_step.

Ltac pres_loops := repeat first [pres_step | loop_step].

Lemma collectLocales_preserves W : preserves W (collectLocales filePath ptrs).
Proof. unfold collectLocales. pres_loops. Qed.

Lemma collectContentScript_preserves (needRuntimeBG : bool) (i : nat) :
  preserves (writes_in (below [Key "content_scripts"; Idx i]))
            (collectContentScript filePath ptrs hot needRuntimeBG i).
Proof.
  unfold collectContentScript, rewriteAssets. cbv zeta. pres_loops.
  - apply rewriteElement_preserves. intros v. unfold below.
    apply (under_app [Key "content_scripts"; Idx i]).
  - apply pushAt_preserves. intros n. unfold below.
    apply (under_app [Key "content_scripts"; Idx i]).
Qed.

Lemma collectContentScripts_preserves :
  preserves (writes_in (below [Key "content_scripts"]))
            (collectContentScripts filePath ptrs hot).
Proof.
  unfold collectContentScripts. pres_loops.
  eapply preserves_mono; [|apply collectContentScript_preserves].
  apply writes_in_mono. intros p v. unfold below.
  apply (under_shorter [Key "content_scripts"] [Idx x]).
Qed.

Lemma collectDictionaries_preserves :
  preserves (writes_in (below [Key "dictionaries"]))
            (collectDictionaries filePath ptrs).
Proof.
  unfold collectDictionaries.
  apply preserves_bind; [pres|]. intros dictionaries.
  destruct (truthy dictionaries); [|pres].
  destruct dictionaries as [[]|]; pres.
  apply preserves_forM. intros dict Hin s [] s' H.
  unfold collectDictionary in H. host_inv.
  destruct (negb (path_extname _ =? ".dic")%string); [discriminate|].
  host_inv. prop_fact.
  eapply evolves_trans; [apply evolves_dep_step|].
  eapply evolves_trans; [|apply evolves_dep_step].
  eapply evolves_write_step; simpl; eauto.
  split; [reflexivity|]. right. rewrite Hold. eauto.
Qed.

Definition browserActionName (isMV2 : bool) : string :=
  if isMV2 then "browser_action" else "action".

Lemma collectThemeIcons_preserves (isMV2 : bool) :
  preserves (writes_in (below [Key (browserActionName isMV2); Key "theme_icons"]))
            (collectThemeIcons filePath ptrs isMV2).
Proof.
  unfold collectThemeIcons. fold (browserActionName isMV2).
  apply preserves_bind; [pres|]. intros action. cbv zeta.
  destruct (truthy (optProp action "theme_icons")); [|pres].
  destruct (optProp action "theme_icons") as [[]|]; pres.
  apply preserves_forM. intros i Hi.
  apply preserves_forM. intros k Hk s [] s' H. host_inv. prop_fact.
  eapply evolves_trans; [apply evolves_dep_step|].
  eapply evolves_write_step; simpl; eauto.
  split.
  - unfold below. simpl. rewrite String.eqb_refl. reflexivity.
  - right. simpl app. rewrite Hold. eauto.
Qed.

(** No write at all: the run only registers dependencies. *)
Definition no_write : path -> option json -> json -> Prop :=
  fun _ _ _ => False.

Lemma evolves_no_write (s s' : State) :
  evolves no_write s s' -> program s' = program s.
Proof.
  induction 1; auto. contradiction.
Qed.

(** The writes of the web-accessible-resources step: all of them at or
    below the field; for version 2 the only write stores an array of
    tokens in the field itself. *)
Definition war_write (isMV2 : bool) : path -> option json -> json -> Prop :=
  fun p old new =>
    under [Key "web_accessible_resources"] p = true /\
    (isMV2 = true ->
     p = [Key "web_accessible_resources"] /\
     exists l', new = JArr (map JStr l')).

Lemma globDependencies_no_write (ptr pattern : string) :
  preserves no_write (globDependencies filePath ptrs ptr pattern).
Proof.
  unfold globDependencies. destruct (glob _); [|pres].
  apply preserves_mapM. intros fp _. pres.
Qed.

Lemma collectWebAccessibleResources_preserves (isMV2 : bool) :
  preserves (war_write isMV2)
            (collectWebAccessibleResources filePath ptrs isMV2).
Proof.
  unfold collectWebAccessibleResources.
  assert (Hfinal : forall xs,
            preserves (war_write isMV2)
              (writeAt [Key "web_accessible_resources"] (JArr (map JStr xs)))).
  { intros xs. apply preserves_writeAt. intros t.
    split; [reflexivity|]. intros _. split; [reflexivity | eauto]. }
  assert (Hglob : forall ptr pat,
            preserves (war_write isMV2)
              (globDependencies filePath ptrs ptr pat)).
  { intros ptr pat.
    eapply preserves_mono; [|apply globDependencies_no_write]. intros ? ? ? []. }
  assert (Hloop : forall (idx : list nat)
                         (body : list json -> nat -> M (list json)),
            (forall war i, preserves (war_write isMV2) (body war i)) ->
            (forall war i war' t t', body war i t = Ok (war', t') ->
               (exists xs, war = map JStr xs) -> exists xs, war' = map JStr xs) ->
            preserves (war_write isMV2)
              (war <- foldM idx [] body ;;
               writeAt [Key "web_accessible_resources"] (JArr war))).
  { intros idx body Hbody Hstr s [] s' H. bind_inv H war s1 Hfold.
    apply (foldM_invariant
             (fun war t => evolves (war_write isMV2) s t /\
                           exists xs, war = map JStr xs)
             (fun _ => True)) in Hfold.
    - destruct Hfold as [[Hev [xs ->]] _].
      eapply evolves_trans; [exact Hev|]. eapply Hfinal; eauto.
    - intros i war0 war' t t' Hi [Hev Hxs] Hb. split; [split|exact I].
      + eapply evolves_trans; [exact Hev|]. eapply Hbody; eauto.
      + eapply Hstr; eauto.
    - split; [constructor | exists []; reflexivity]. }
  apply preserves_bind; [pres|]. intros w.
  destruct (truthy w); [|pres].
  destruct w as [[| b | n | str | l | o]|];
    try solve [pres | apply (Hfinal [])].
  - destruct isMV2; [|pres].
    apply Hloop.
    + intros war i. pres. apply Hglob.
    + intros war i war' t t' Hb [xs ->]. bind_inv Hb toks t1 Hg.
      apply ret_run in Hb. destruct Hb as [-> _].
      exists (xs ++ toks). now rewrite map_app.
  - destruct isMV2.
    + apply Hloop.
      * intros war i. cbv zeta. pres. apply Hglob.
      * intros war i war' t t' Hb [xs ->]. cbv zeta in Hb.
        bind_inv Hb files t1 Hf. bind_inv Hb pat t2 Hp.
        bind_inv Hb toks t3 Hg.
        apply ret_run in Hb. destruct Hb as [-> _].
        exists (xs ++ toks). now rewrite map_app.
    + assert (Hw : forall p v,
                under [Key "web_accessible_resources"] p = true ->
                preserves (war_write false) (writeAt p v)).
      { intros p v Hu. apply preserves_writeAt. intros t.
        split; auto. discriminate. }
      apply preserves_bind; [|intros war; apply Hw; reflexivity].
      apply preserves_foldM. intros i war Hi. cbv zeta. pres.
      * apply Hglob.
      * apply Hw. reflexivity.
Qed.

Definition has_ptr (loc : list string) : bool :=
  match ptrs ("/" ++ join "/" loc)%string with Some _ => true | None => false end.

(** The table locations, with their subtrees, that have an index entry. *)
Definition locations_footprint (table : list (list string)) : Footprint :=
  fun p _ => existsb (fun loc => (has_ptr loc && under (map Key loc) p)%bool) table.

Lemma rewriteLocation_preserves (F : Footprint) (ptr : string) (p : path) :
  (forall v, F p v = true) ->
  preserves (rewrites_in F) (rewriteLocation filePath ptrs ptr p).
Proof.
  intros HF s [] s' H. unfold rewriteLocation in H. host_inv.
  eapply evolves_trans; [apply evolves_dep_step|].
  eapply evolves_write_step; simpl; eauto.
  split; [apply HF|]. unfold string_write.
  match goal with Hg : get_path _ p = Some _ |- _ => rewrite Hg end. eauto.
Qed.

Lemma walk_run (loc : list string) : forall (parent p : path)
  (obj : option json) (s s' : State),
  walk parent loc s = Ok ((p, obj), s') ->
  s' = s /\ p = parent ++ map Key loc /\ obj = get_path (program s) p.
Proof.
  induction loc as [|k loc IH]; intros parent p obj s s' H; [discriminate|].
  destruct loc as [|k' loc].
  - simpl in H. run_inv.
    repeat split; auto.
    symmetry. now apply get_path_prop.
  - change (walk parent (k :: k' :: loc))
      with (_ <- readProp parent k ;; walk (parent ++ [Key k]) (k' :: loc)) in H.
    run_inv. apply IH in H. destruct H as (-> & -> & ->).
    rewrite <- app_assoc. auto.
Qed.

Lemma collectLocation_preserves (table : list (list string)) (loc : list string) :
  In loc table ->
  preserves (rewrites_in (locations_footprint table))
            (collectLocation filePath ptrs loc).
Proof.
  intros Hin. unfold collectLocation. cbv zeta.
  destruct (ptrs ("/" ++ join "/" loc)%string) as [m|] eqn:Eptr; [|pres].
  assert (HF : forall r v, locations_footprint table (map Key loc ++ r) v = true).
  { intros r v. unfold locations_footprint. apply existsb_exists.
    exists loc. split; auto. unfold has_ptr. rewrite Eptr. apply under_app. }
  intros s [] s' H. run_inv. destruct x as [p obj].
  match goal with Hw : walk _ _ _ = Ok _ |- _ =>
    apply walk_run in Hw; destruct Hw as (-> & -> & ->) end.
  change ([] ++ map Key loc) with (map Key loc) in *.
  destruct (get_path (program s) (map Key loc)) as [v|] eqn:Ev; [|discriminate].
  assert (Hleaf : forall ptr, preserves (rewrites_in (locations_footprint table))
            (rewriteLocation filePath ptrs ptr (map Key loc))).
  { intros ptr. apply rewriteLocation_preserves. intros w.
    rewrite <- (app_nil_r (map Key loc)). apply HF. }
  assert (Hkeys : forall f w, preserves (rewrites_in (locations_footprint table))
            (forM (own_segs w) (fun k =>
               rewriteLocation filePath ptrs (f k) (map Key loc ++ [k])))).
  { intros f w. apply preserves_forM. intros k Hk.
    apply rewriteLocation_preserves. intros w'. apply HF. }
  destruct v; try discriminate;
    first [ exact (Hleaf _ _ _ _ H) | exact (Hkeys _ _ _ _ _ H) ].
Qed.

Lemma collectLocations_preserves (table : list (list string)) :
  preserves (rewrites_in (locations_footprint table))
            (collectLocations filePath ptrs table).
Proof.
  unfold collectLocations. apply preserves_forM. intros loc Hin.
  now apply collectLocation_preserves.
Qed.

(** The writes of the version 2 wiring after the policy is stored. *)
Definition scripts_footprint (needRuntimeBG : bool) : Footprint :=
  fun p new =>
    (needRuntimeBG &&
     ((path_eqb p [Key "background"] && is_empty_object new)
      || under [Key "background"; Key "scripts"] p))%bool.

Lemma get_path_key (d : json) (k : string) :
  get_path d [Key k] = get_seg d (Key k).
Proof. simpl. destruct (get_seg d (Key k)); reflexivity. Qed.

(** [if (!ref.k) ref.k = v]: the value is stored when the property is
    absent or falsy. *)
Lemma ensure_evolves (W : path -> option json -> json -> Prop)
  (p : path) (k : string) (v : json) (x : option json)
  (s s1 s3 : State) (u : unit) :
  readProp p k s = Ok (x, s1) ->
  (if truthy x then ret tt else writeAt (p ++ [Key k]) v) s1 = Ok (u, s3) ->
  (x = get_path (program s) (p ++ [Key k]) ->
   truthy x = false -> W (p ++ [Key k]) x v) ->
  evolves W s s3 /\
  deps s3 = deps s /\
  ((truthy x = true /\ s3 = s) \/
   (truthy x = false /\
    set_path (program s) (p ++ [Key k]) v = Some (program s3))).
Proof.
  intros Hr Hw HW. apply readProp_run in Hr.
  destruct Hr as (-> & c & Hc & _ & ->).
  pose proof (@get_path_prop _ _ _ k Hc) as Hold.
  destruct (truthy (get_seg c (Key k))) eqn:Et.
  - apply ret_run in Hw. destruct Hw as [_ ->].
    split; [constructor|]. split; auto.
  - apply writeAt_run in Hw. destruct Hw as (d' & Hset & ->).
    split; [|split; auto].
    eapply evolves_write_step; eauto. rewrite Hold. apply HW; auto.
Qed.

Lemma wireBackgroundMV2_run (needRuntimeBG : bool) (s s' : State) :
  wireBackgroundMV2 hot needRuntimeBG s = Ok (tt, s') ->
  (hot = false /\ s' = s) \/
  (hot = true /\
   exists policy d1,
     ((exists p, get_seg (program s) (Key "content_security_policy")
                 = Some (JStr p) /\
                 policy = cspPatchHMR (Some p)) \/
      (truthy (get_seg (program s) (Key "content_security_policy")) = false /\
       policy = cspPatchHMR None)) /\
     set_path (program s) [Key "content_security_policy"] (JStr policy) = Some d1 /\
     evolves (writes_lax (scripts_footprint needRuntimeBG))
             {| program := d1; deps := deps s |} s').
Proof.
  unfold wireBackgroundMV2. intros H.
  destruct hot; [right; split; auto | left; run_inv; auto].
  bind_inv H csp s1 Hcsp. apply readProp_run in Hcsp.
  destruct Hcsp as (-> & d & Hd & _ & ->). apply root_value in Hd. subst d.
  bind_inv H policy s2 Hpol.
  assert (Hcases : s2 = s /\
            ((exists p, get_seg (program s) (Key "content_security_policy")
                        = Some (JStr p) /\
                        policy = cspPatchHMR (Some p)) \/
             (truthy (get_seg (program s) (Key "content_security_policy")) = false /\
              policy = cspPatchHMR None))).
  { destruct (get_seg (program s) (Key "content_security_policy")) as [v|].
    - destruct v;
        try (destruct (truthy _) eqn:Et; [discriminate|]);
        apply ret_run in Hpol; destruct Hpol as [-> ->]; eauto.
    - apply ret_run in Hpol. destruct Hpol as [-> ->]. auto. }
  destruct Hcases as [-> Hcases]. clear Hpol.
  bind_inv H u1 s3 Hw. apply writeAt_run in Hw. destruct Hw as (d1 & Hset & ->).
  exists policy, d1. repeat split; auto.
  destruct needRuntimeBG; [|run_inv; constructor].
  bind_inv H bg s4 Hbg. bind_inv H u2 s6 Hmk.
  destruct (@ensure_evolves (writes_lax (scripts_footprint true))
              _ _ _ _ _ _ _ _ Hbg Hmk) as (Hev1 & _ & _).
  { intros _ Et. split; [reflexivity | now left]. }
  bind_inv H sc s7 Hsc. bind_inv H u3 s9 Hmk2.
  destruct (@ensure_evolves (writes_lax (scripts_footprint true))
              _ _ _ _ _ _ _ _ Hsc Hmk2) as (Hev2 & _ & _).
  { intros _ Et. split; [reflexivity | now left]. }
  bind_inv H tok s10 Hdep.
  eapply evolves_trans; [exact Hev1|].
  eapply evolves_trans; [exact Hev2|].
  eapply evolves_trans; [eapply addURLDependency_preserves; eauto|].
  pose proof (@pushAt_preserves (scripts_footprint true)
                [Key "background"; Key "scripts"] (JStr tok)
                (fun n => eq_refl)) as Hpush.
  apply Hpush in H.
  eapply evolves_mono; [|exact H].
  intros p old new [HF Hm]. split; [exact HF | now apply mono_lax].
Qed.

Definition worker_footprint (needRuntimeBG : bool) : Footprint :=
  fun p new =>
    ((path_eqb p [Key "background"] && is_empty_object new && needRuntimeBG)
     || path_eqb p [Key "background"; Key "service_worker"])%bool.

Lemma optProp_path (d : json) (k1 k2 : string) (v : json) :
  optProp (get_seg d (Key k1)) k2 = Some v ->
  get_path d [Key k1; Key k2] = Some v.
Proof.
  unfold optProp. simpl.
  destruct (get_seg d (Key k1)) as [[]|]; try discriminate; simpl; intros ->;
    reflexivity.
Qed.

Lemma wireBackgroundMV3_preserves (needRuntimeBG : bool) :
  preserves (writes_lax (worker_footprint needRuntimeBG))
            (wireBackgroundMV3 needRuntimeBG).
Proof.
  intros s [] s' H. unfold wireBackgroundMV3 in H.
  bind_inv H bg s1 Hbg. pose proof Hbg as Hbg'.
  apply readProp_run in Hbg'. destruct Hbg' as (-> & d & Hd & _ & ->).
  apply root_value in Hd. subst d. cbv zeta in H.
  destruct (truthy (optProp (get_seg (program s) (Key "background"))
                            "service_worker")) eqn:Esw.
  - host_inv.
    eapply evolves_trans; [apply evolves_dep_step|].
    eapply evolves_write_step; eauto.
    split; [reflexivity|]. right. simpl program.
    match goal with Ho : optProp _ _ = Some _ |- _ =>
      rewrite (@optProp_path _ _ _ _ Ho) end.
    eauto.
  - destruct needRuntimeBG; [|run_inv; constructor].
    bind_inv H u s3 Hmk.
    destruct (@ensure_evolves (writes_lax (worker_footprint true))
                _ _ _ _ _ _ _ _ Hbg Hmk) as (Hev & Hdeps & Hcase).
    { intros _ Et. split; [reflexivity | now left]. }
    eapply evolves_trans; [exact Hev|].
    assert (Hold : truthy
              (get_path (program s3) [Key "background"; Key "service_worker"])
              = false).
    { destruct Hcase as [[Hsome ->] | [Hnone Hset]].
      - assert (E : get_path (program s)
                      [Key "background"; Key "service_worker"]
                    = optProp (get_seg (program s) (Key "background"))
                        "service_worker").
        { cbn [get_path].
          destruct (get_seg (program s) (Key "background")) as [b|];
            [|reflexivity].
          destruct b; cbn [optProp get_seg]; try reflexivity;
            destruct (obj_get _ _); reflexivity. }
        rewrite E. exact Esw.
      - simpl app in Hset. cbn [set_path] in Hset. cbn [get_path].
        rewrite (get_set_seg_same _ _ _ Hset). reflexivity. }
    host_inv.
    eapply evolves_trans; [apply evolves_dep_step|].
    eapply evolves_write_step; eauto.
    split; [reflexivity|]. left. exact Hold.
Qed.

(** The footprint of the rewriting steps of lines 95-183. *)
Definition rewrite_footprint (isMV2 : bool) : Footprint :=
  fun p v =>
    (under [Key "content_scripts"] p
     || under [Key "dictionaries"] p
     || under [Key (browserActionName isMV2); Key "theme_icons"] p)%bool.

(** The writes of lines 95-247: those of the first steps, those of the
    table walk, and those of the web-accessible resources. *)
Definition rewrites (isMV2 : bool) : path -> option json -> json -> Prop :=
  fun p old new =>
    writes_in (rewrite_footprint isMV2) p old new \/
    rewrites_in (locations_footprint DEP_LOCS) p old new \/
    war_write isMV2 p old new.

(** A run of [collectDependencies] that ends well: the steps up to the
    table walk change the state within their footprint, then the wiring
    of the manifest version runs. *)
Lemma collectDependencies_run (s s' : State) :
  collectDependencies filePath ptrs hot s = Ok (tt, s') ->
  exists isMV2 s1 needRuntimeBG s2 s6,
    looseEqualsNumber (get_seg (program s) (Key "manifest_version")) 2%float
    = Ok isMV2 /\
    collectLocales filePath ptrs s = Ok (tt, s1) /\
    program s1 = program s /\
    collectContentScripts filePath ptrs hot s1 = Ok (needRuntimeBG, s2) /\
    evolves (rewrites isMV2) s1 s6 /\
    (if isMV2 then wireBackgroundMV2 hot needRuntimeBG s6
     else wireBackgroundMV3 needRuntimeBG s6) = Ok (tt, s').
Proof.
  unfold collectDependencies. intros H.
  bind_inv H mv s0 Hmv. apply readProp_run in Hmv.
  destruct Hmv as (-> & d & Hd & _ & ->). apply root_value in Hd. subst d.
  bind_inv H isMV2 s0 Hv. apply looseEq2_run in Hv. destruct Hv as [-> Hv].
  bind_inv H u1 s1 Hloc. destruct u1.
  bind_inv H need s2 Hcs.
  bind_inv H u3 s3 Hdict. bind_inv H u4 s4 Hth. bind_inv H u5 s5 Hwar.
  bind_inv H u6 s6 Hlocs.
  exists isMV2, s1, need, s2, s6. repeat split; auto.
  - apply (@collectLocales_preserves no_write) in Hloc.
    now apply evolves_no_write in Hloc.
  - eapply evolves_trans.
    { eapply evolves_mono; [|eapply collectContentScripts_preserves; eauto].
      intros p old new Hw. left. revert Hw. apply writes_in_mono.
      intros q v Hq. unfold rewrite_footprint, below in *. now rewrite Hq. }
    eapply evolves_trans.
    { eapply evolves_mono; [|eapply collectDictionaries_preserves; eauto].
      intros p old new Hw. left. revert Hw. apply writes_in_mono.
      intros q v Hq. unfold rewrite_footprint, below in *.
      rewrite Hq. now rewrite orb_true_r. }
    eapply evolves_trans.
    { eapply evolves_mono; [|eapply collectThemeIcons_preserves; eauto].
      intros p old new Hw. left. revert Hw. apply writes_in_mono.
      intros q v Hq. unfold rewrite_footprint, below in *.
      rewrite Hq. now rewrite !orb_true_r. }
    eapply evolves_trans.
    { eapply evolves_mono; [|eapply collectWebAccessibleResources_preserves; eauto].
      intros p old new Hw. right. now right. }
    eapply evolves_mono; [|eapply collectLocations_preserves; eauto].
    intros p old new Hw. right. now left.
  - destruct isMV2; exact H.
Qed.

(** A path that diverges from every place the rewriting steps write. *)
Definition off_rewrites (isMV2 : bool) (q : path) : Prop :=
  diverges [Key "content_scripts"] q = true /\
  diverges [Key "dictionaries"] q = true /\
  diverges [Key (browserActionName isMV2); Key "theme_icons"] q = true /\
  diverges [Key "web_accessible_resources"] q = true /\
  (forall loc, In loc DEP_LOCS -> has_ptr loc = true ->
               diverges (map Key loc) q = true).

Lemma rewrites_spare (isMV2 : bool) (q : path) :
  off_rewrites isMV2 q ->
  forall p old new, rewrites isMV2 p old new -> spares q p old new.
Proof.
  intros (Hcs & Hdict & Hth & Hwar & Hlocs) p old new
    [[HF _] | [[HF _] | [Hu _]]]; left.
  - unfold rewrite_footprint in HF.
    apply orb_true_iff in HF. destruct HF as [HF | HF].
    apply orb_true_iff in HF. destruct HF as [HF | HF].
    + eapply under_diverges; eauto.
    + eapply under_diverges; eauto.
    + eapply under_diverges; eauto.
  - unfold locations_footprint in HF. apply existsb_exists in HF.
    destruct HF as (loc & Hin & Hloc). apply andb_true_iff in Hloc.
    destruct Hloc as [Hptr Hunder]. eapply under_diverges; eauto.
  - eapply under_diverges; eauto.
Qed.

Lemma scripts_spare (needRuntimeBG : bool) (q : path) :
  diverges [Key "background"] q = true ->
  forall p old new,
    writes_lax (scripts_footprint needRuntimeBG) p old new -> spares q p old new.
Proof.
  intros Hq p old new [HF _]. left.
  unfold scripts_footprint in HF.
  apply andb_true_iff in HF. destruct HF as [_ HF].
  apply orb_true_iff in HF. destruct HF as [HF | HF].
  - apply andb_true_iff in HF. destruct HF as [HF _].
    unfold path_eqb in HF. apply andb_true_iff in HF. destruct HF as [_ HF].
    eapply under_diverges; eauto.
  - apply (under_shorter [Key "background"] [Key "scripts"]) in HF.
    eapply under_diverges; eauto.
Qed.

Lemma path_eqb_eq (p q : path) : path_eqb p q = true -> p = q.
Proof.
  unfold path_eqb. revert q.
  induction p as [|a p IH]; intros [|b q] H; simpl in H; try discriminate; auto.
  apply andb_true_iff in H. destruct H as [H1 H2].
  apply andb_true_iff in H1. destruct H1 as [Hab H1].
  apply andb_true_iff in H2. destruct H2 as [_ H2].
  apply seg_eqb_eq in Hab. subst b. f_equal. apply IH.
  now rewrite H1, H2.
Qed.

Lemma is_empty_object_eq (v : json) : is_empty_object v = true -> v = JObj [].
Proof. destruct v as [| | | | |[|]]; simpl; congruence. Qed.

(** Storing an empty object as [background] shows nothing at a path
    below it. *)
Lemma fresh_background_spares (k : string) (p : path) (old : option json)
  (new : json) :
  path_eqb p [Key "background"] = true ->
  is_empty_object new = true ->
  lax_write old new ->
  spares [Key "background"; Key k] p old new.
Proof.
  intros Hp Hnew Hm. apply path_eqb_eq in Hp. apply is_empty_object_eq in Hnew.
  subst. right. split; [|split].
  - destruct Hm as [Hf | (a & b & _ & Hb)]; [exact Hf | discriminate].
  - reflexivity.
  - exists [Key k]. split; [discriminate | reflexivity].
Qed.

Lemma scripts_spare_sibling (needRuntimeBG : bool) (k : string) :
  diverges [Key "background"; Key "scripts"] [Key "background"; Key k] = true ->
  forall p old new,
    writes_lax (scripts_footprint needRuntimeBG) p old new ->
    spares [Key "background"; Key k] p old new.
Proof.
  intros Hk p old new [HF Hm].
  unfold scripts_footprint in HF.
  apply andb_true_iff in HF. destruct HF as [_ HF].
  apply orb_true_iff in HF. destruct HF as [HF | HF].
  - apply andb_true_iff in HF. destruct HF as [Hp Hnew].
    now apply fresh_background_spares.
  - left. eapply under_diverges; eauto.
Qed.

Lemma worker_spare (needRuntimeBG : bool) (q : path) :
  diverges [Key "background"] q = true ->
  forall p old new,
    writes_lax (worker_footprint needRuntimeBG) p old new -> spares q p old new.
Proof.
  intros Hq p old new [HF _]. left.
  unfold worker_footprint in HF.
  apply orb_true_iff in HF. destruct HF as [HF | HF].
  - apply andb_true_iff in HF. destruct HF as [HF _].
    apply andb_true_iff in HF. destruct HF as [HF _].
    apply path_eqb_eq in HF. subst p. exact Hq.
  - apply path_eqb_eq in HF. subst p.
    apply (@under_diverges [Key "background"]); auto.
Qed.

Lemma worker_spare_sibling (needRuntimeBG : bool) (k : string) :
  diverges [Key "background"; Key "service_worker"] [Key "background"; Key k]
  = true ->
  forall p old new,
    writes_lax (worker_footprint needRuntimeBG) p old new ->
    spares [Key "background"; Key k] p old new.
Proof.
  intros Hk p old new [HF Hm].
  unfold worker_footprint in HF.
  apply orb_true_iff in HF. destruct HF as [HF | HF].
  - apply andb_true_iff in HF. destruct HF as [HF _].
    apply andb_true_iff in HF. destruct HF as [Hp Hnew].
    now apply fresh_background_spares.
  - left. apply path_eqb_eq in HF. now subst p.
Qed.

(** The version 2 wiring leaves a path alone when it diverges from the
    policy field and either diverges from [background] or is a sibling of
    [background.scripts]. *)
Lemma wireBackgroundMV2_frame (needRuntimeBG : bool) (q : path) (s s' : State) :
  wireBackgroundMV2 hot needRuntimeBG s = Ok (tt, s') ->
  diverges [Key "content_security_policy"] q = true ->
  (diverges [Key "background"] q = true \/
   exists k, q = [Key "background"; Key k] /\
             diverges [Key "background"; Key "scripts"] q = true) ->
  get_path (program s') q = get_path (program s) q.
Proof.
  intros Hrun Hcsp Hbg. apply wireBackgroundMV2_run in Hrun.
  destruct Hrun as [[_ ->] | (_ & policy & d1 & _ & Hset & Hev)]; auto.
  transitivity (get_path d1 q).
  - destruct Hbg as [Hd | (k & -> & Hd)].
    + eapply evolves_frame in Hev; [exact Hev | now apply scripts_spare].
    + eapply evolves_frame in Hev; [exact Hev | now apply scripts_spare_sibling].
  - eapply set_path_frame; eauto.
Qed.

Lemma wireBackgroundMV3_frame (needRuntimeBG : bool) (q : path) (s s' : State) :
  wireBackgroundMV3 needRuntimeBG s = Ok (tt, s') ->
  (diverges [Key "background"] q = true \/
   exists k, q = [Key "background"; Key k] /\
             diverges [Key "background"; Key "service_worker"] q = true) ->
  get_path (program s') q = get_path (program s) q.
Proof.
  intros Hrun Hbg. apply wireBackgroundMV3_preserves in Hrun.
  destruct Hbg as [Hd | (k & -> & Hd)].
  - eapply evolves_frame in Hrun; [exact Hrun | now apply worker_spare].
  - eapply evolves_frame in Hrun; [exact Hrun | now apply worker_spare_sibling].
Qed.

End StepEvolution.

(* ================================================================== *)
(** ** End-to-end properties of dependency collection *)

Lemma off_rewrites_top (isMV2 : bool) (ptrs : Pointers) (k : string) :
  existsb (String.eqb k)
    ("content_scripts" :: "dictionaries" :: "browser_action" :: "action"
     :: "web_accessible_resources" :: map (fun loc => hd "" loc) DEP_LOCS) = false ->
  off_rewrites ptrs isMV2 [Key k].
Proof.
  intros Hk.
  assert (Hd : forall k', In k' ("content_scripts" :: "dictionaries"
                 :: "browser_action" :: "action" :: "web_accessible_resources"
                 :: map (fun loc => hd "" loc) DEP_LOCS) ->
               forall r, diverges (Key k' :: r) [Key k] = true).
  { intros k' Hin r. simpl.
    destruct (String.eqb k' k) eqn:E; auto.
    apply String.eqb_eq in E. subst k'.
    assert (existsb (String.eqb k) ("content_scripts" :: "dictionaries"
                 :: "browser_action" :: "action" :: "web_accessible_resources"
                 :: map (fun loc => hd "" loc) DEP_LOCS) = true).
    { apply existsb_exists. exists k. split; auto. apply String.eqb_refl. }
    congruence. }
  repeat split.
  - apply Hd. now left.
  - apply Hd. right. now left.
  - destruct isMV2; apply Hd; [do 2 right | do 3 right]; now left.
  - apply Hd. do 4 right. now left.
  - intros loc Hin _.
    destruct loc as [|k' loc'].
    + exfalso. revert Hin. clear. simpl. intuition discriminate.
    + apply Hd. do 5 right. apply (in_map (fun loc => hd "" loc)) in Hin.
      exact Hin.
Qed.

(** Two different locations of the table diverge, and every location
    diverges from the fields the other steps write. *)
Definition table_apart : bool :=
  forallb (fun a =>
    forallb (fun b =>
      if list_eq_dec string_dec a b then true
      else diverges (map Key a) (map Key b)) DEP_LOCS) DEP_LOCS.

Definition location_clear (isMV2 : bool) (loc : list string) : bool :=
  let q := map Key loc in
  (diverges [Key "content_scripts"] q
   && diverges [Key "dictionaries"] q
   && diverges [Key (browserActionName isMV2); Key "theme_icons"] q
   && diverges [Key "web_accessible_resources"] q
   && diverges [Key "content_security_policy"] q
   && (diverges [Key "background"] q
       || (if list_eq_dec string_dec loc ["background"; "page"] then true else false)
       || (if list_eq_dec string_dec loc ["background"; "scripts"] then true else false)))%bool.

Lemma table_apart_true : table_apart = true.
Proof. vm_compute. reflexivity. Qed.

Lemma table_clear_true (isMV2 : bool) :
  forallb (location_clear isMV2) DEP_LOCS = true.
Proof. destruct isMV2; vm_compute; reflexivity. Qed.

Lemma table_locations_diverge (a b : list string) :
  In a DEP_LOCS -> In b DEP_LOCS -> a <> b ->
  diverges (map Key a) (map Key b) = true.
Proof.
  intros Ha Hb Hne. pose proof table_apart_true as H.
  unfold table_apart in H. rewrite forallb_forall in H.
  specialize (H a Ha). rewrite forallb_forall in H. specialize (H b Hb).
  destruct (list_eq_dec string_dec a b); [contradiction | exact H].
Qed.

Section EndToEnd.

Context {host : Host}.
Variable filePath : string.
Variable ptrs : Pointers.

(** C5. For a version 2 manifest without a [content_security_policy]
    field, a run of dependency collection with hot reload that ends well
    leaves the fixed default policy in that field. *)
Theorem hot_reload_default_policy (d : json) (ds : list Dependency) (s' : State) :
  is_number_two (get_seg d (Key "manifest_version")) = true ->
  get_seg d (Key "content_security_policy") = None ->
  collectDependencies filePath ptrs true {| program := d; deps := ds |}
  = Ok (tt, s') ->
  get_seg (program s') (Key "content_security_policy")
  = Some (JStr "script-src 'self' 'unsafe-eval' blob: filesystem:;object-src 'self' blob: filesystem:;").
Proof.
  intros Hv Hnone Hrun.
  apply collectDependencies_run in Hrun.
  destruct Hrun
    as (isMV2 & s1 & need & s2 & s6 & Hmv & Hloc & Hp1 & Hcs & Hev & Hwire).
  simpl program in *. rewrite (number_two_loose _ Hv) in Hmv.
  injection Hmv as <-.
  assert (Hoff : off_rewrites ptrs true [Key "content_security_policy"])
    by (apply off_rewrites_top; reflexivity).
  pose proof (evolves_frame (rewrites_spare Hoff) Hev) as Hframe.
  rewrite !get_path_key, Hp1, Hnone in Hframe.
  apply wireBackgroundMV2_run in Hwire.
  destruct Hwire as [[Hhot _] | (_ & policy & d1 & Hcases & Hset & Hev2)];
    [discriminate|].
  destruct Hcases as [(p & Hp & _) | [_ ->]]; [congruence|].
  assert (Hsp : forall p old new,
             writes_lax (scripts_footprint need) p old new ->
             spares [Key "content_security_policy"] p old new)
    by (apply scripts_spare; reflexivity).
  pose proof (evolves_frame Hsp Hev2) as Hframe2.
  rewrite !get_path_key in Hframe2. rewrite Hframe2. simpl program.
  cbn [set_path] in Hset. rewrite (get_set_seg_same _ _ _ Hset).
  reflexivity.
Qed.

Definition localeDependency (locale : string) : Dependency :=
  {| specifier := ("_locales/" ++ locale ++ "/messages.json")%string;
     opts := {| needsStableName := true; pipeline := Some "raw";
                loc := None; resolveFrom := None; env := None |} |}.

Lemma register_locales (entries : list string) (s : State) :
  forM entries (fun locale =>
    _ <- addURLDependency ("_locales/" ++ locale ++ "/messages.json")%string
           {| needsStableName := true; pipeline := Some "raw";
              loc := None; resolveFrom := None; env := None |} ;;
    ret tt) s
  = Ok (tt, {| program := program s;
               deps := deps s ++ map localeDependency entries |}).
Proof.
  revert s. induction entries as [|e entries IH]; intros s.
  - simpl. unfold ret. rewrite app_nil_r. now destruct s.
  - cbn [forM]. unfold bind at 1. unfold bind at 1.
    unfold addURLDependency at 1. unfold ret at 1.
    rewrite IH. simpl. rewrite <- app_assoc. reflexivity.
Qed.

(** The registered dependencies only grow along a run that ends well,
    starting with what the localization step registered. *)
Lemma collectDependencies_deps (hot : bool) (s s' : State) :
  collectDependencies filePath ptrs hot s = Ok (tt, s') ->
  exists s1 rest,
    collectLocales filePath ptrs s = Ok (tt, s1) /\
    deps s' = deps s1 ++ rest.
Proof.
  intros Hrun. apply collectDependencies_run in Hrun.
  destruct Hrun
    as (isMV2 & s1 & need & s2 & s6 & Hmv & Hloc & Hp1 & Hcs & Hev & Hwire).
  apply evolves_deps in Hev. destruct Hev as [r1 Hr1].
  assert (Hw : exists r2, deps s' = deps s6 ++ r2).
  { destruct isMV2.
    - apply wireBackgroundMV2_run in Hwire.
      destruct Hwire as [[_ ->] | (_ & policy & d1 & _ & _ & Hev)].
      + exists []. now rewrite app_nil_r.
      + apply evolves_deps in Hev. exact Hev.
    - apply wireBackgroundMV3_preserves in Hwire.
      now apply evolves_deps in Hwire. }
  destruct Hw as [r2 Hr2]. exists s1, (r1 ++ r2). split; auto.
  rewrite Hr2, Hr1. now rewrite app_assoc.
Qed.

(** C1. With [default_locale] set to a non-empty string: a missing
    [_locales] directory throws a diagnostic whose one highlight is the
    range of the [default_locale] key; a missing locale subdirectory
    throws a diagnostic whose one highlight is the range of the value,
    with a message that names the locale; the two differ as soon as the
    two ranges or the two escaped texts differ; and when both directories
    exist, one dependency per entry of [_locales] is registered for
    [_locales/<entry>/messages.json], stable-named and on the raw
    pipeline, before anything else. *)
Theorem default_locale_directories (hot : bool) (d : json)
  (ds : list Dependency) (l : string) (isMV2 : bool) (m : Mapping) :
  get_seg d (Key "default_locale") = Some (JStr l) ->
  l <> "" ->
  looseEqualsNumber (get_seg d (Key "manifest_version")) 2%float = Ok isMV2 ->
  ptrs "/default_locale" = Some m ->
  let locales := path_join (path_dirname filePath) "_locales" in
  let s := {| program := d; deps := ds |} in
  let missing :=
    md_escape (path_relative (path_dirname filePath) (path_join locales l)) in
  let onKey :=
    {| message := "Invalid Web Extension manifest";
       origin := "@parcel/transformer-webextension";
       frame_filePath := filePath;
       codeHighlights :=
         [(getJSONSourceLocation m (Some LKey),
           ("Localization directory" ++ md_escape ""
            ++ " does not exist: " ++ missing)%string)] |} in
  let onValue :=
    {| message := "Invalid Web Extension manifest";
       origin := "@parcel/transformer-webextension";
       frame_filePath := filePath;
       codeHighlights :=
         [(getJSONSourceLocation m (Some LValue),
           ("Localization directory" ++ md_escape (" for " ++ l)
            ++ " does not exist: " ++ missing)%string)] |} in
  (fs_exists locales = false ->
   collectDependencies filePath ptrs hot s
   = Throw (ThrowableDiagnostic onKey)) /\
  (fs_exists locales = true -> fs_exists (path_join locales l) = false ->
   collectDependencies filePath ptrs hot s
   = Throw (ThrowableDiagnostic onValue)) /\
  (getJSONSourceLocation m (Some LKey) <> getJSONSourceLocation m (Some LValue)
   \/ md_escape "" <> md_escape (" for " ++ l)%string ->
   onKey <> onValue) /\
  (fs_exists locales = true -> fs_exists (path_join locales l) = true ->
   forall entries, fs_readdir locales = Some entries ->
     let registered :=
       map (fun entry =>
              {| specifier := ("_locales/" ++ entry ++ "/messages.json")%string;
                 opts := {| needsStableName := true; pipeline := Some "raw";
                            loc := None; resolveFrom := None;
                            env := None |} |}) entries in
     collectLocales filePath ptrs s
     = Ok (tt, {| program := d; deps := ds ++ registered |}) /\
     forall s', collectDependencies filePath ptrs hot s = Ok (tt, s') ->
       exists rest, deps s' = ds ++ registered ++ rest).
Proof.
  intros Hl Hne Hv Hm locales s missing onKey onValue.
  assert (Hd : d <> JNull) by (intros ->; discriminate).
  assert (Ht : truthy (Some (JStr l)) = true).
  { simpl. destruct (String.eqb l "") eqn:E; auto.
    apply String.eqb_eq in E. contradiction. }
  assert (Hread : forall k t, program t = d ->
            readProp [] k t = Ok (get_seg d (Key k), t)).
  { intros k t Ht'. unfold readProp. simpl. rewrite Ht'.
    destruct d; try reflexivity. contradiction. }
  assert (Hstart : forall e,
            collectLocales filePath ptrs s = Throw e ->
            collectDependencies filePath ptrs hot s = Throw e).
  { intros e He. unfold collectDependencies.
    rewrite (@bind_step _ _ _ _ _ _ _ (Hread "manifest_version" s eq_refl)).
    assert (E2 : looseEq2 (get_seg d (Key "manifest_version")) s
                 = Ok (isMV2, s))
      by (unfold looseEq2, liftR; now rewrite Hv).
    rewrite (@bind_step _ _ _ _ _ _ _ E2).
    now apply bind_Throw. }
  assert (Hwell : fs_exists locales = true ->
            fs_exists (path_join locales l) = true ->
            forall entries, fs_readdir locales = Some entries ->
            collectLocales filePath ptrs s
            = Ok (tt, {| program := d;
                         deps := ds ++ map localeDependency entries |})).
  { intros H H0 entries H1. unfold collectLocales.
    rewrite (@bind_step _ _ _ _ _ _ _ (Hread "default_locale" s eq_refl)), Hl, Ht.
    cbv zeta. fold locales. rewrite H. simpl negb. cbv iota.
    unfold asString at 1. unfold bind at 2. unfold ret at 1.
    rewrite H0. simpl negb. cbv iota.
    unfold bind at 1. unfold ret at 1. rewrite H1.
    apply register_locales. }
  split; [|split; [|split]].
  - intros Hno. apply Hstart. unfold collectLocales.
    rewrite (@bind_step _ _ _ _ _ _ _ (Hread "default_locale" s eq_refl)), Hl, Ht.
    cbv zeta. fold locales. rewrite Hno. simpl negb. cbv iota.
    unfold sourceLocation. rewrite Hm.
    reflexivity.
  - intros Hyes Hno. apply Hstart. unfold collectLocales.
    rewrite (@bind_step _ _ _ _ _ _ _ (Hread "default_locale" s eq_refl)), Hl, Ht.
    cbv zeta. fold locales. rewrite Hyes. simpl negb. cbv iota.
    unfold asString at 1. unfold bind at 2. unfold ret at 1.
    rewrite Hno. simpl negb. cbv iota.
    unfold sourceLocation. rewrite Hm.
    reflexivity.
  - intros Hdiff E. unfold onKey, onValue in E.
    injection E as Er Em. destruct Hdiff as [Hr | Ht']; [contradiction|].
    apply Ht'. exact (string_app_cancel_r _ _ _ Em).
  - intros H H0 entries H1 registered.
    change registered with (map localeDependency entries).
    split; [now apply Hwell|].
    intros s' Hrun. apply collectDependencies_deps in Hrun.
    destruct Hrun as (s1 & rest & Hloc & Hdeps).
    exists rest. rewrite Hdeps, app_assoc. f_equal.
    rewrite (Hwell H H0 entries H1) in Hloc. inversion Hloc. reflexivity.
Qed.

End EndToEnd.

(* ================================================================== *)
(** ** The service-worker wrapper mode *)

Definition json_whitespace (c : ascii) : bool :=
  let n := nat_of_ascii c in
  ((n =? 32) || (n =? 9) || (n =? 10) || (n =? 13))%bool.

Fixpoint skip_json_whitespace (s : string) : string :=
  match s with
  | String c s' => if json_whitespace c then skip_json_whitespace s' else s
  | EmptyString => s
  end.

(** A JSON text begins, after white space, with the first character of a
    value: an object, an array, a string, a number or a literal. *)
Definition may_start_json (s : string) : bool :=
  match skip_json_whitespace s with
  | String c _ =>
      (existsb (Ascii.eqb c)
         (ascii_of_nat 34 :: list_ascii_of_string "{[-tfn") || is_digit c)%bool
  | EmptyString => false
  end.

(** C8. An asset on the ['mv3-bg-sw'] pipeline is returned with its
    dependencies untouched and with its code replaced by the auto-reload
    background snippet, wrapped in an immediately invoked function, ahead
    of the original code. The result does not depend on the parser, the
    schema validation or any other collaborator than the bundled snippet,
    and the output cannot be parsed as JSON. *)
Theorem service_worker_wrapper_mode (host : Host) (asset : Asset) (hmr : bool) :
  asset_pipeline asset = Some "mv3-bg-sw" ->
  let out :=
    (nl ++ "        (function() {"
     ++ nl ++ "          " ++ AUTORELOAD_BG
     ++ nl ++ "        })();"
     ++ nl ++ "        " ++ asset_code asset
     ++ nl ++ "      ")%string in
  transform asset hmr
  = Ok {| asset_filePath := asset_filePath asset;
          asset_pipeline := asset_pipeline asset;
          asset_code := out;
          asset_dependencies := asset_dependencies asset |} /\
  may_start_json out = false /\
  (forall host' : Host,
      @AUTORELOAD_BG host' = @AUTORELOAD_BG host ->
      @transform host' asset hmr = @transform host asset hmr).
Proof.
  intros Hp out. unfold transform, setCode. rewrite !Hp.
  split; [reflexivity|]. split; [reflexivity|].
  intros host' Hbg. now rewrite Hbg.
Qed.

(* ================================================================== *)
(** ** Writes below one place *)

Lemma get_set_path_same (p : path) : forall (d d' x : json),
  set_path d p x = Some d' -> get_path d' p = Some x.
Proof.
  induction p as [|a p IH]; intros d d' x H.
  - simpl in *. congruence.
  - destruct p as [|a' p].
    + cbn [set_path] in H. cbn [get_path].
      now rewrite (get_set_seg_same _ _ _ H).
    + rewrite set_path_cons in H.
      destruct (get_seg d a) as [c|]; [|discriminate].
      destruct (set_path c (a' :: p) x) as [c'|] eqn:Ec'; [|discriminate].
      cbn [get_path]. rewrite (get_set_seg_same _ _ _ H).
      eapply IH; eauto.
Qed.

Lemma list_set_twice {A} (l : list A) (i : nat) (x y : A) :
  list_set i y (list_set i x l) = list_set i y l.
Proof.
  revert i. induction l as [|z l IH]; intros [|i]; simpl; auto.
  now rewrite IH.
Qed.

Lemma list_set_middle {A} (l1 l2 : list A) (x y : A) :
  list_set (length l1) y (l1 ++ x :: l2) = l1 ++ y :: l2.
Proof. induction l1 as [|z l1 IH]; simpl; auto. now rewrite IH. Qed.

Lemma list_set_nth {A} (l : list A) (i : nat) (x : A) :
  nth_error l i = Some x -> list_set i x l = l.
Proof.
  revert i. induction l as [|z l IH]; intros [|i]; simpl; auto.
  - congruence.
  - intros H. now rewrite IH.
Qed.

Lemma obj_set_same {V} (k : string) (v : V) (o : JsObject V) :
  obj_get k o = Some v -> obj_set k v o = o.
Proof.
  induction o as [|[k' v'] o IH]; simpl; [discriminate|].
  destruct (String.eqb k k') eqn:E.
  - apply String.eqb_eq in E. subst. congruence.
  - intros H. now rewrite IH.
Qed.

Lemma set_seg_twice (d d1 : json) (a : seg) (x y : json) :
  set_seg d a x = Some d1 -> set_seg d1 a y = set_seg d a y.
Proof.
  destruct d, a; simpl; try discriminate.
  - destruct (i <? length items) eqn:E1.
    + intros H. inversion H. subst. simpl.
      rewrite length_list_set, E1. now rewrite list_set_twice.
    + destruct (i =? length items) eqn:E2; [|discriminate].
      intros H. inversion H. subst. simpl.
      apply Nat.eqb_eq in E2. subst i.
      rewrite length_app. simpl.
      replace (length items <? length items + 1) with true
        by (symmetry; apply Nat.ltb_lt; lia).
      now rewrite (list_set_middle items [] x y).
  - intros H. inversion H. subst. simpl. now rewrite obj_set_set.
Qed.

Lemma set_seg_same (d c : json) (a : seg) :
  get_seg d a = Some c -> set_seg d a c = Some d.
Proof.
  destruct d, a; simpl; try discriminate.
  - intros H.
    assert (i < length items) by (apply nth_error_Some; congruence).
    replace (i <? length items) with true by (symmetry; now apply Nat.ltb_lt).
    now rewrite (list_set_nth _ _ H).
  - intros H. now rewrite (obj_set_same _ _ H).
Qed.

(** A second write at the same place overrides the first. *)
Lemma set_path_twice (p : path) : forall (d d1 x y : json),
  set_path d p x = Some d1 -> set_path d1 p y = set_path d p y.
Proof.
  induction p as [|a p IH]; intros d d1 x y H; [reflexivity|].
  destruct p as [|a' p].
  - cbn [set_path] in *. eapply set_seg_twice; eauto.
  - rewrite set_path_cons in H. rewrite !set_path_cons.
    destruct (get_seg d a) as [c|] eqn:Ec; [|discriminate].
    destruct (set_path c (a' :: p) x) as [c1|] eqn:Ec1; [|discriminate].
    rewrite (get_set_seg_same _ _ _ H).
    rewrite (IH _ _ _ y Ec1).
    destruct (set_path c (a' :: p) y) as [c2|]; auto.
    eapply set_seg_twice; eauto.
Qed.

(** Writing back what is there changes nothing. *)
Lemma set_path_same (p : path) : forall (d v : json),
  get_path d p = Some v -> set_path d p v = Some d.
Proof.
  induction p as [|a p IH]; intros d v H.
  - simpl in *. congruence.
  - cbn [get_path] in H.
    destruct (get_seg d a) as [c|] eqn:Ec; [|discriminate].
    destruct p as [|a' p].
    + simpl in H. inversion H. subst. cbn [set_path]. now apply set_seg_same.
    + rewrite set_path_cons, Ec, (IH _ _ H). now apply set_seg_same.
Qed.

Lemma set_path_element (p : path) (d v : json) (l : list json) (j : nat) :
  get_path d p = Some (JArr l) ->
  j < length l ->
  set_path d (p ++ [Idx j]) v = set_path d p (JArr (list_set j v l)).
Proof.
  intros Hg Hj. rewrite set_path_app by discriminate. rewrite Hg.
  cbn [set_path set_seg].
  replace (j <? length l) with true by (symmetry; now apply Nat.ltb_lt).
  reflexivity.
Qed.

Lemma set_path_push (p : path) (d v : json) (l : list json) :
  get_path d p = Some (JArr l) ->
  set_path d (p ++ [Idx (length l)]) v = set_path d p (JArr (l ++ [v])).
Proof.
  intros Hg. rewrite set_path_app by discriminate. rewrite Hg.
  cbn [set_path set_seg]. rewrite Nat.ltb_irrefl, Nat.eqb_refl. reflexivity.
Qed.

Lemma set_path_property (p : path) (d v : json) (o : list (string * json))
  (k : string) :
  get_path d p = Some (JObj o) ->
  set_path d (p ++ [Key k]) v = set_path d p (JObj (obj_set k v o)).
Proof.
  intros Hg. rewrite set_path_app by discriminate. now rewrite Hg.
Qed.

Unset Implicit Arguments.

(* ================================================================== *)
(** ** Content scripts *)

Section ContentScripts.

Context {host : Host}.
Variable filePath : string.
Variable ptrs : Pointers.
Variable hot : bool.

(** The dependency registered for the string [url] whose array element
    has the index entry [m]: stable-named, located at the value range. *)
Definition assetDependency (url : string) (m : Mapping) : Dependency :=
  {| specifier := url;
     opts := {| needsStableName := true; pipeline := None;
                loc := Some {| loc_filePath := filePath;
                               loc_range := getJSONSourceLocation m (Some LValue) |};
                resolveFrom := None; env := None |} |}.

(** The dependencies of the elements of the array at [p], from index [j]
    on: one for each string that has an index entry. *)
Fixpoint elementDependencies (p : path) (j : nat) (l : list json)
  : list Dependency :=
  match l with
  | [] => []
  | v :: l' =>
      match v, ptrs (pointer (p ++ [Idx j])) with
      | JStr url, Some m => [assetDependency url m]
      | _, _ => []
      end ++ elementDependencies p (S j) l'
  end.

(** The string leaf that replaces a path: the token of its dependency. *)
Definition tokenValue (d : Dependency) : json := JStr (depToken d).

Lemma rewrite_elements_run (p : path) : forall (todo done : list json)
  (s s' : State),
  get_path (program s) p = Some (JArr (done ++ todo)) ->
  forM (seq (length done) (length todo))
       (fun j => rewriteElement filePath ptrs (p ++ [Idx j])) s = Ok (tt, s') ->
  length (elementDependencies p (length done) todo) = length todo /\
  set_path (program s) p
    (JArr (done ++ map tokenValue (elementDependencies p (length done) todo)))
  = Some (program s') /\
  deps s' = deps s ++ elementDependencies p (length done) todo.
Proof.
  induction todo as [|v todo IH]; intros done s s' Hg Hrun.
  - simpl in Hrun. apply ret_run in Hrun. destruct Hrun as [_ ->].
    simpl. rewrite !app_nil_r in *. split; auto. split; auto.
    now apply set_path_same.
  - cbn [length seq forM] in Hrun. bind_inv Hrun u s1 H1. destruct u.
    apply rewriteElement_run in H1.
    destruct H1 as (url & m & d1 & Hold & Hptr & Hset & ->).
    cbv zeta in Hset.
    rewrite get_path_app, Hg in Hold. cbn [get_path get_seg] in Hold.
    rewrite nth_error_app2, Nat.sub_diag in Hold by lia. simpl in Hold.
    inversion Hold. subst v. clear Hold.
    rewrite (@set_path_element _ _ _ _ _ Hg) in Hset
      by (rewrite length_app; simpl; lia).
    rewrite list_set_middle in Hset.
    set (dep := {| specifier := url;
                   opts := stable filePath
                             (getJSONSourceLocation m (Some LValue)) None |}) in *.
    specialize (IH (done ++ [tokenValue dep])
                   {| program := d1; deps := deps s ++ [dep] |} s').
    rewrite length_app in IH. simpl length in IH.
    replace (length done + 1) with (S (length done)) in IH by lia.
    destruct IH as (Hlen & Hset' & Hdeps).
    + simpl program. rewrite <- app_assoc. simpl.
      eapply get_set_path_same; eauto.
    + exact Hrun.
    + cbn [elementDependencies]. rewrite Hptr.
      change (assetDependency url m) with dep.
      simpl app. simpl length. split; [now rewrite Hlen|]. split.
      * simpl program in Hset'. rewrite (@set_path_twice _ _ _ _ _ Hset) in Hset'.
        rewrite <- app_assoc in Hset'. exact Hset'.
      * rewrite Hdeps. simpl deps. now rewrite <- app_assoc.
Qed.

(** The elements of an asset list of an entry; none when the field is
    absent. *)
Definition assets (c : json) (k : string) : list json :=
  match get_seg c (Key k) with
  | Some (JArr l) => l
  | _ => []
  end.

Lemma rewriteAssets_run (sc : path) (k : string) (c : json) (s s' : State) :
  get_path (program s) sc = Some c ->
  rewriteAssets filePath ptrs sc k s = Ok (tt, s') ->
  let ds := elementDependencies (sc ++ [Key k]) 0 (assets c k) in
  length ds = length (assets c k) /\
  deps s' = deps s ++ ds /\
  match get_seg c (Key k) with
  | Some (JArr _) =>
      set_path (program s) (sc ++ [Key k]) (JArr (map tokenValue ds))
      = Some (program s')
  | _ => s' = s
  end.
Proof.
  intros Hg Hrun ds. unfold rewriteAssets in Hrun.
  bind_inv Hrun a s1 Hr. apply readProp_run in Hr.
  destruct Hr as (-> & c' & Hg' & _ & ->).
  rewrite Hg in Hg'. inversion Hg'. subst c'. clear Hg'.
  subst ds. unfold assets.
  destruct (get_seg c (Key k)) as [[| | | |l|]|] eqn:Ek;
    try (destruct (truthy _); try discriminate Hrun;
         apply ret_run in Hrun; destruct Hrun as [_ ->]; simpl;
         rewrite app_nil_r; auto; fail).
  assert (Hp : get_path (program s) (sc ++ [Key k]) = Some (JArr ([] ++ l))).
  { rewrite (@get_path_prop _ _ _ k Hg). exact Ek. }
  pose proof (@rewrite_elements_run (sc ++ [Key k]) l [] s s' Hp) as Hel.
  simpl length in Hel. simpl app in Hel.
  change (truthy (Some (JArr l))) with true in Hrun. cbv iota in Hrun.
  destruct Hel as (H1 & H2 & H3); [|auto].
  erewrite forM_ext; [exact Hrun|].
  intros j. cbv beta. now rewrite <- app_assoc.
Qed.

Lemma diverges_siblings (p : path) (a b : seg) (r r' : path) :
  a <> b -> diverges (p ++ a :: r) (p ++ b :: r') = true.
Proof.
  intros Hab. induction p as [|c p IH]; simpl.
  - apply seg_eqb_neq in Hab. now rewrite Hab.
  - replace (seg_eqb c c) with true by (symmetry; now apply seg_eqb_eq).
    exact IH.
Qed.

Definition autoreloadDependency : Dependency :=
  {| specifier := "./runtime/autoreload.js";
     opts := {| needsStableName := false; pipeline := None; loc := None;
                resolveFrom := Some this_filename; env := None |} |}.

(** Whether a content script gets the auto-reload client: hot reload is
    on and its [js] list has an element. *)
Definition reloads (c : json) : bool :=
  (hot && negb (length (assets c "js") =? 0))%bool.

(** The dependencies one content script registers, in order. *)
Definition entryDependencies (i : nat) (c : json) : list Dependency :=
  elementDependencies [Key "content_scripts"; Idx i; Key "css"] 0 (assets c "css")
  ++ elementDependencies [Key "content_scripts"; Idx i; Key "js"] 0 (assets c "js")
  ++ (if reloads c then [autoreloadDependency] else []).

(** What the document holds for a content script after its round. *)
Definition entryRewritten (i : nat) (c : json) (d : json) : Prop :=
  (forall l, get_seg c (Key "css") = Some (JArr l) ->
     get_path d [Key "content_scripts"; Idx i; Key "css"]
     = Some (JArr (map tokenValue
          (elementDependencies [Key "content_scripts"; Idx i; Key "css"] 0 l)))) /\
  (forall l, get_seg c (Key "js") = Some (JArr l) ->
     get_path d [Key "content_scripts"; Idx i; Key "js"]
     = Some (JArr (map tokenValue
          (elementDependencies [Key "content_scripts"; Idx i; Key "js"] 0 l)
          ++ (if reloads c then [tokenValue autoreloadDependency] else [])))).

Lemma sibling_property (d1 d c : json) (sc : path) (k k' : string) (v : json) :
  get_path d sc = Some c ->
  set_path d (sc ++ [Key k]) v = Some d1 ->
  k <> k' ->
  exists c1, get_path d1 sc = Some c1 /\
             get_seg c1 (Key k') = get_seg c (Key k').
Proof.
  intros Hg Hset Hne.
  pose proof (@get_set_path_same _ _ _ _ Hset) as Hsame.
  rewrite get_path_app in Hsame.
  destruct (get_path d1 sc) as [c1|] eqn:Ec1; [|discriminate].
  exists c1. split; auto.
  rewrite <- (@get_path_prop _ _ _ k' Ec1), <- (@get_path_prop _ _ _ k' Hg).
  eapply set_path_frame; eauto.
  apply diverges_siblings. congruence.
Qed.

Lemma collectContentScript_run (needRuntimeBG need' : bool) (i : nat)
  (c : json) (s s' : State) :
  get_path (program s) [Key "content_scripts"; Idx i] = Some c ->
  collectContentScript filePath ptrs hot needRuntimeBG i s = Ok (need', s') ->
  need' = (if reloads c then true else needRuntimeBG) /\
  deps s' = deps s ++ entryDependencies i c /\
  length (elementDependencies [Key "content_scripts"; Idx i; Key "css"] 0
            (assets c "css")) = length (assets c "css") /\
  length (elementDependencies [Key "content_scripts"; Idx i; Key "js"] 0
            (assets c "js")) = length (assets c "js") /\
  entryRewritten i c (program s').
Proof.
  intros Hg Hrun. unfold collectContentScript in Hrun. cbv zeta in Hrun.
  set (sc := [Key "content_scripts"; Idx i]) in *.
  bind_inv Hrun u s2 Hloops. destruct u.
  cbn [forM] in Hloops.
  bind_inv Hloops u s1 Hcss. destruct u.
  bind_inv Hloops u s2' Hjs. destruct u.
  apply ret_run in Hloops. destruct Hloops as [_ <-].
  (* the css list *)
  destruct (rewriteAssets_run _ _ _ _ _ Hg Hcss) as (Hlen1 & Hdeps1 & Hcase1).
  (* the entry after the css list was rewritten *)
  assert (Hc1 : exists c1, get_path (program s1) sc = Some c1 /\
                           get_seg c1 (Key "js") = get_seg c (Key "js")).
  { destruct (get_seg c (Key "css")) as [[| | | |l|]|]; try (subst s1; eauto).
    eapply sibling_property; eauto. discriminate. }
  destruct Hc1 as (c1 & Hg1 & Ejs).
  assert (Eassets : assets c1 "js" = assets c "js")
    by (unfold assets; now rewrite Ejs).
  destruct (rewriteAssets_run _ _ _ _ _ Hg1 Hjs) as (Hlen2 & Hdeps2 & Hcase2).
  rewrite Eassets in *. rewrite Ejs in Hcase2.
  (* the css list is still there after the js list was rewritten *)
  assert (Hcss2 : forall l, get_seg c (Key "css") = Some (JArr l) ->
            get_path (program s2) (sc ++ [Key "css"])
            = Some (JArr (map tokenValue
                (elementDependencies (sc ++ [Key "css"]) 0 l)))).
  { intros l El. unfold assets in Hcase1. rewrite El in Hcase1.
    transitivity (get_path (program s1) (sc ++ [Key "css"])).
    - destruct (get_seg c (Key "js")) as [[| | | |l'|]|];
        try (subst s2; reflexivity).
      eapply set_path_frame; eauto.
      apply diverges_siblings. discriminate.
    - eapply get_set_path_same; eauto. }
  (* the js list after its rewriting *)
  assert (Hjs2 : get_path (program s2) (sc ++ [Key "js"])
                 = match get_seg c (Key "js") with
                   | Some (JArr l) =>
                       Some (JArr (map tokenValue
                               (elementDependencies (sc ++ [Key "js"]) 0 l)))
                   | other => other
                   end).
  { unfold assets in Hcase2.
    destruct (get_seg c (Key "js")) as [[| | | |l|]|] eqn:E;
      try (subst s2; rewrite (@get_path_prop _ _ _ "js" Hg1); exact Ejs).
    eapply get_set_path_same; eauto. }
  clear Hcase1 Hcase2 Hcss Hjs.
  assert (Hdeps : deps s2 = deps s
            ++ elementDependencies (sc ++ [Key "css"]) 0 (assets c "css")
            ++ elementDependencies (sc ++ [Key "js"]) 0 (assets c "js")).
  { rewrite Hdeps2, Hdeps1, <- app_assoc. reflexivity. }
  clear Hdeps1 Hdeps2.
  unfold entryDependencies, entryRewritten, reloads.
  change [Key "content_scripts"; Idx i; Key "css"] with (sc ++ [Key "css"]).
  change [Key "content_scripts"; Idx i; Key "js"] with (sc ++ [Key "js"]).
  (* without the auto-reload client *)
  assert (Hplain : s' = s2 -> need' = needRuntimeBG ->
            (hot && negb (length (assets c "js") =? 0))%bool = false ->
            need' = (if (hot && negb (length (assets c "js") =? 0))%bool
                     then true else needRuntimeBG) /\
            deps s' = deps s
              ++ elementDependencies (sc ++ [Key "css"]) 0 (assets c "css")
              ++ elementDependencies (sc ++ [Key "js"]) 0 (assets c "js")
              ++ (if (hot && negb (length (assets c "js") =? 0))%bool
                  then [autoreloadDependency] else []) /\
            length (elementDependencies (sc ++ [Key "css"]) 0 (assets c "css"))
            = length (assets c "css") /\
            length (elementDependencies (sc ++ [Key "js"]) 0 (assets c "js"))
            = length (assets c "js") /\
            (forall l, get_seg c (Key "css") = Some (JArr l) ->
               get_path (program s') (sc ++ [Key "css"])
               = Some (JArr (map tokenValue
                    (elementDependencies (sc ++ [Key "css"]) 0 l)))) /\
            (forall l, get_seg c (Key "js") = Some (JArr l) ->
               get_path (program s') (sc ++ [Key "js"])
               = Some (JArr (map tokenValue
                    (elementDependencies (sc ++ [Key "js"]) 0 l)
                    ++ (if (hot && negb (length (assets c "js") =? 0))%bool
                        then [tokenValue autoreloadDependency] else []))))).
  { intros -> -> ->. rewrite !app_nil_r. repeat split; auto.
    intros l El. rewrite Hjs2, El, app_nil_r. reflexivity. }
  destruct hot.
  - bind_inv Hrun js s3 Hread. apply readProp_run in Hread.
    destruct Hread as (-> & c2 & Hg2 & _ & ->).
    rewrite <- (@get_path_prop _ _ _ "js" Hg2), Hjs2 in Hrun.
    destruct (get_seg c (Key "js")) as [[| | | |l|]|] eqn:El;
      try (apply ret_run in Hrun; destruct Hrun as [-> ->];
           apply Hplain; auto; unfold assets; rewrite El; reflexivity).
    assert (Ea : assets c "js" = l) by (unfold assets; now rewrite El).
    rewrite Ea in *.
    rewrite length_map, Hlen2 in Hrun. simpl andb in *.
    destruct (length l =? 0) eqn:E0; simpl negb in *;
      cbv beta iota delta [negb] in Hrun.
    + apply ret_run in Hrun. destruct Hrun as [-> ->]. now apply Hplain.
    + clear Hplain.
      bind_inv Hrun tok s4 Hdep. apply addURLDependency_run in Hdep.
      cbv zeta in Hdep. destruct Hdep as [-> ->].
      bind_inv Hrun u s5 Hpush. apply pushAt_run in Hpush.
      destruct Hpush as (arr & d5 & Harr & Hpush & ->).
      apply ret_run in Hrun. destruct Hrun as [-> ->].
      simpl program in *. rewrite Hjs2 in Harr. inversion Harr. subst arr.
      rewrite (@set_path_push _ _ _ _ Hjs2) in Hpush.
      repeat split; auto.
      * simpl deps. rewrite Hdeps, <- !app_assoc. reflexivity.
      * intros l' El'. rewrite <- (Hcss2 l' El').
        eapply set_path_frame; eauto.
        apply (diverges_siblings sc (Key "js") (Key "css") [] []). discriminate.
      * intros l' El'. inversion El'. subst l'.
        eapply get_set_path_same; eauto.
  - apply ret_run in Hrun. destruct Hrun as [-> ->]. now apply Hplain.
Qed.

(** The dependencies of the entries [scs], numbered from [i]. *)
Fixpoint entriesDependencies (i : nat) (scs : list json) : list Dependency :=
  match scs with
  | [] => []
  | c :: rest => entryDependencies i c ++ entriesDependencies (S i) rest
  end.

Lemma entriesDependencies_snoc (l : list json) (c : json) : forall i,
  entriesDependencies i (l ++ [c])
  = entriesDependencies i l ++ entryDependencies (i + length l) c.
Proof.
  induction l as [|x l IH]; intros i; simpl.
  - rewrite app_nil_r. f_equal. lia.
  - rewrite IH, <- app_assoc. do 3 f_equal. lia.
Qed.

Lemma firstn_succ {A} (l : list A) (i : nat) (x : A) :
  nth_error l i = Some x -> firstn (S i) l = firstn i l ++ [x].
Proof.
  revert i. induction l as [|y l IH]; intros [|i] H; simpl in *; try discriminate.
  - now inversion H.
  - now rewrite (IH i H).
Qed.

Lemma seq_prefix (n : nat) (done rest : list nat) (x : nat) :
  seq 0 n = done ++ x :: rest -> x = length done /\ x < n.
Proof.
  intros H.
  assert (Hlen : length done < n).
  { rewrite <- (length_seq n 0), H, length_app. simpl. lia. }
  split.
  - pose proof (@seq_nth n 0 (length done) 0 Hlen) as Hn.
    rewrite H, app_nth2, Nat.sub_diag in Hn by lia. simpl in Hn. lia.
  - pose proof (@seq_nth n 0 (length done) 0 Hlen) as Hn.
    rewrite H, app_nth2, Nat.sub_diag in Hn by lia. simpl in Hn. lia.
Qed.

Lemma below_spare (pre q : path) :
  diverges pre q = true ->
  forall p old new, writes_in (below pre) p old new -> spares q p old new.
Proof.
  intros Hd p old new [Hu _]. left. eapply under_diverges; eauto.
Qed.

Lemma diverges_index (p : path) (i j : nat) (r : path) :
  i <> j -> diverges (p ++ [Idx i]) (p ++ Idx j :: r) = true.
Proof.
  intros Hij. apply (diverges_siblings p (Idx i) (Idx j) [] r). congruence.
Qed.

(** The content-script step on an array, in terms of the dependencies
    of its entries. *)
Lemma content_scripts_run (scs : list json) (needRuntimeBG : bool)
  (s s' : State) :
  get_seg (program s) (Key "content_scripts") = Some (JArr scs) ->
  collectContentScripts filePath ptrs hot s = Ok (needRuntimeBG, s') ->
  needRuntimeBG = existsb reloads scs /\
  deps s' = deps s ++ entriesDependencies 0 scs /\
  (forall i c, nth_error scs i = Some c ->
     (forall k, k = "css" \/ k = "js" ->
        length (elementDependencies [Key "content_scripts"; Idx i; Key k] 0
                  (assets c k)) = length (assets c k)) /\
     entryRewritten i c (program s')).
Proof.
  intros Hcs Hrun. unfold collectContentScripts in Hrun.
  bind_inv Hrun v s0 Hread. apply readProp_run in Hread.
  destruct Hread as (-> & d & Hd & _ & ->). apply root_value in Hd. subst d.
  rewrite Hcs in Hrun. change (truthy (Some (JArr scs))) with true in Hrun.
  cbv iota in Hrun.
  set (J := fun (done : list nat) (need : bool) (t : State) =>
    let i := length done in
    (forall i'', i <= i'' ->
       get_path (program t) [Key "content_scripts"; Idx i'']
       = get_path (program s) [Key "content_scripts"; Idx i'']) /\
    need = existsb reloads (firstn i scs) /\
    deps t = deps s ++ entriesDependencies 0 (firstn i scs) /\
    (forall i' c, i' < i -> nth_error scs i' = Some c ->
       (forall k, k = "css" \/ k = "js" ->
          length (elementDependencies [Key "content_scripts"; Idx i'; Key k] 0
                    (assets c k)) = length (assets c k)) /\
       entryRewritten i' c (program t))).
  assert (HJ : J (seq 0 (length scs)) needRuntimeBG s').
  { eapply (foldM_prefix J); [| |exact Hrun].
    - intros done x rest acc acc' t t' Hl (Hfr & Hneed & Hdeps & Hdone) Hbody.
      destruct (seq_prefix _ _ _ _ Hl) as [-> Hlt].
      destruct (nth_error scs (length done)) as [c|] eqn:Ec;
        [|apply nth_error_None in Ec; lia].
      assert (Hg : get_path (program t) [Key "content_scripts"; Idx (length done)]
                   = Some c).
      { rewrite Hfr by lia. cbn [get_path]. rewrite Hcs. cbn [get_seg].
        now rewrite Ec. }
      pose proof Hbody as Hev. apply collectContentScript_preserves in Hev.
      destruct (collectContentScript_run _ _ _ _ _ _ Hg Hbody)
        as (Hn & Hd & Hl1 & Hl2 & Hrew).
      unfold J. rewrite length_app. simpl length.
      replace (length done + 1) with (S (length done)) by lia.
      rewrite (firstn_succ _ _ _ Ec).
      split; [|split; [|split]].
      + intros i'' Hi''. rewrite <- Hfr by lia.
        eapply evolves_frame; [|exact Hev].
        apply below_spare.
        apply (diverges_index [Key "content_scripts"]). lia.
      + rewrite existsb_app. simpl. rewrite orb_false_r, <- Hneed, Hn.
        destruct (reloads c); [now rewrite orb_true_r | now rewrite orb_false_r].
      + rewrite Hd, Hdeps, entriesDependencies_snoc, <- app_assoc.
        do 3 f_equal. rewrite length_firstn. lia.
      + intros i' c0 Hi' Hc0.
        destruct (Nat.eq_dec i' (length done)) as [-> | Hne].
        * rewrite Ec in Hc0. inversion Hc0. subst c0. split; [|exact Hrew].
          intros k [-> | ->]; assumption.
        * destruct (Hdone i' c0) as [Hlen [Hc Hj]]; [lia | assumption |].
          split; [exact Hlen|]. split.
          -- intros l El. rewrite <- (Hc l El).
             eapply evolves_frame; [|exact Hev]. apply below_spare.
             apply (diverges_index [Key "content_scripts"]). lia.
          -- intros l El. rewrite <- (Hj l El).
             eapply evolves_frame; [|exact Hev]. apply below_spare.
             apply (diverges_index [Key "content_scripts"]). lia.
    - unfold J. simpl. split; [auto|]. split; [auto|]. split.
      + now rewrite app_nil_r.
      + intros i' c Hi'. lia. }
  destruct HJ as (_ & Hneed & Hdeps & Hall).
  rewrite length_seq, firstn_all in *.
  split; [exact Hneed|]. split; [exact Hdeps|].
  intros i c Hc. apply Hall; auto. apply nth_error_Some. congruence.
Qed.





End ContentScripts.

(* ================================================================== *)
(** ** Dictionaries *)

Lemma string_take_app (a b : string) :
  string_take (String.length a) (a ++ b) = a.
Proof. induction a; simpl; [destruct b; reflexivity | congruence]. Qed.

(** On a path that ends in [.dic], [slice(0, -4)] is the path without
    that ending. *)
Lemma slice_dic (stem : string) : slice_0_neg 4 (stem ++ ".dic") = stem.
Proof.
  unfold slice_0_neg. rewrite string_length_app. simpl String.length.
  replace (String.length stem + 4 - 4) with (String.length stem) by lia.
  apply string_take_app.
Qed.

Section Dictionaries.

Context {host : Host}.
Variable filePath : string.
Variable ptrs : Pointers.

(** The two dependencies of a dictionary entry: the file itself and the
    file named by its path with the last four characters replaced by
    [.aff], both stable-named and located at the entry's value. *)
Definition dictionaryDependencies (f : string) (m : Mapping) : list Dependency :=
  [ assetDependency filePath f m;
    assetDependency filePath (slice_0_neg 4 f ++ ".aff")%string m ].

Definition entryDictionaryDependencies (o : list (string * json)) (k : string)
  : list Dependency :=
  match obj_get k o, ptrs ("/dictionaries/" ++ k)%string with
  | Some (JStr f), Some m => dictionaryDependencies f m
  | _, _ => []
  end.

Lemma collectDictionary_inv (dict : string) (s s' : State) :
  collectDictionary filePath ptrs dict s = Ok (tt, s') ->
  exists f m d',
    get_path (program s) [Key "dictionaries"; Key dict] = Some (JStr f) /\
    ptrs ("/dictionaries/" ++ dict)%string = Some m /\
    path_extname f = ".dic" /\
    set_path (program s) [Key "dictionaries"; Key dict]
      (tokenValue (assetDependency filePath f m)) = Some d' /\
    s' = {| program := d'; deps := deps s ++ dictionaryDependencies f m |}.
Proof.
  intros H. unfold collectDictionary in H.
  bind_inv H r s1 Hloc. apply sourceLocation_run in Hloc.
  destruct Hloc as (-> & m & Hm & ->).
  bind_inv H v s1 Hread. apply readProp_run in Hread.
  destruct Hread as (-> & c & Hc & _ & ->).
  bind_inv H f s1 Hstr. apply asString_run in Hstr. destruct Hstr as [Hf ->].
  destruct (String.eqb (path_extname f) ".dic") eqn:Eext; [|discriminate].
  apply String.eqb_eq in Eext. simpl negb in H. cbv iota in H.
  bind_inv H tok s1 Hdep. apply addURLDependency_run in Hdep.
  cbv zeta in Hdep. destruct Hdep as [-> ->].
  bind_inv H u s1 Hw. apply writeAt_run in Hw. destruct Hw as (d' & Hset & ->).
  bind_inv H tok2 s1 Hdep. apply addURLDependency_run in Hdep.
  cbv zeta in Hdep. destruct Hdep as [-> ->].
  apply ret_run in H. destruct H as [_ ->].
  exists f, m, d'. repeat split; auto.
  - rewrite <- Hf. apply (@get_path_prop _ _ [Key "dictionaries"] dict Hc).
  - simpl. now rewrite <- app_assoc.
Qed.

(** X16. For an entry of [dictionaries] holding the string [f], with an
    index entry under [/dictionaries/<key>]: when the extension of [f] is
    not [.dic] the round throws the manifest diagnostic, its one highlight
    on the range of the entry's value with the message ['Dictionaries
    must be .dic files'], and registers nothing; otherwise it registers
    exactly two dependencies, both stable-named and located at that
    range: [f] itself, whose token replaces the entry's value, and [f]
    with its last four characters replaced by [.aff], which is the file of
    the same base name whenever [f] ends in [.dic].  A run of the whole
    step that ends well has done so for every entry, in enumeration
    order. *)
Theorem dictionaries_rewritten :
  (forall (s : State) (o : list (string * json)) (dict f : string) (m : Mapping),
      get_seg (program s) (Key "dictionaries") = Some (JObj o) ->
      obj_get dict o = Some (JStr f) ->
      ptrs ("/dictionaries/" ++ dict)%string = Some m ->
      (path_extname f <> ".dic" ->
       collectDictionary filePath ptrs dict s
       = Throw (ThrowableDiagnostic
                  {| message := "Invalid Web Extension manifest";
                     origin := "@parcel/transformer-webextension";
                     frame_filePath := filePath;
                     codeHighlights :=
                       [(getJSONSourceLocation m (Some LValue),
                         "Dictionaries must be .dic files")] |})) /\
      (path_extname f = ".dic" ->
       exists d',
         set_path (program s) [Key "dictionaries"; Key dict]
           (tokenValue (assetDependency filePath f m)) = Some d' /\
         collectDictionary filePath ptrs dict s
         = Ok (tt, {| program := d';
                      deps := deps s
                              ++ [assetDependency filePath f m;
                                  assetDependency filePath
                                    (slice_0_neg 4 f ++ ".aff")%string m] |}) /\
         forall stem, f = (stem ++ ".dic")%string ->
           (slice_0_neg 4 f ++ ".aff")%string = (stem ++ ".aff")%string)) /\
  (forall (s s' : State) (o : list (string * json)),
      get_seg (program s) (Key "dictionaries") = Some (JObj o) ->
      NoDup (obj_keys o) ->
      collectDictionaries filePath ptrs s = Ok (tt, s') ->
      deps s' = deps s ++ flat_map (entryDictionaryDependencies o) (obj_keys o) /\
      forall k v, obj_get k o = Some v ->
        exists f m,
          v = JStr f /\ ptrs ("/dictionaries/" ++ k)%string = Some m /\
          path_extname f = ".dic" /\
          get_path (program s') [Key "dictionaries"; Key k]
          = Some (tokenValue (assetDependency filePath f m))).
Proof.
  split.
  - intros s o dict f m Hd Ho Hm.
    destruct (program s) as [| | | | |o0] eqn:Eprog; try discriminate.
    simpl in Hd.
    assert (Hread : readProp [Key "dictionaries"] dict s = Ok (Some (JStr f), s)).
    { unfold readProp. rewrite Eprog. simpl. rewrite Hd. simpl. now rewrite Ho. }
    assert (Hstart : forall A (k : string -> M A),
              collectDictionary filePath ptrs dict s
              = (if negb (String.eqb (path_extname f) ".dic")
                 then throw (invalidManifest filePath
                               (getJSONSourceLocation m (Some LValue))
                               "Dictionaries must be .dic files")
                 else
                   tok <- addURLDependency f
                            (stable filePath
                               (getJSONSourceLocation m (Some LValue)) None) ;;
                   writeAt [Key "dictionaries"; Key dict] (JStr tok) ;;
                   _ <- addURLDependency (slice_0_neg 4 f ++ ".aff")%string
                          (stable filePath
                             (getJSONSourceLocation m (Some LValue)) None) ;;
                   ret tt) s).
    { intros _ _. unfold collectDictionary, sourceLocation. rewrite Hm.
      unfold bind at 1. unfold ret at 1.
      rewrite (@bind_step _ _ _ _ _ _ _ Hread). reflexivity. }
    specialize (Hstart unit (fun _ => ret tt)).
    split.
    + intros Hne. rewrite Hstart.
      destruct (String.eqb (path_extname f) ".dic") eqn:E; [|reflexivity].
      apply String.eqb_eq in E. contradiction.
    + intros He. rewrite Hstart, He. simpl negb. cbv iota.
      eexists. split.
      * cbn [set_path get_seg]. rewrite Hd.
        cbn [set_seg]. reflexivity.
      * split.
        -- unfold bind, addURLDependency, writeAt, ret. simpl.
           rewrite Eprog. cbn [set_path get_seg]. rewrite Hd.
           cbn [set_seg program deps]. rewrite <- app_assoc. reflexivity.
        -- intros stem ->. now rewrite slice_dic.
  - intros s s' o Hd Hnd Hrun. unfold collectDictionaries in Hrun.
    bind_inv Hrun v s0 Hread. apply readProp_run in Hread.
    destruct Hread as (-> & d & Hroot & _ & ->). apply root_value in Hroot.
    subst d. rewrite Hd in Hrun.
    change (truthy (Some (JObj o))) with true in Hrun. cbv iota in Hrun.
    assert (Hval : forall k, get_path (program s) [Key "dictionaries"; Key k]
                             = obj_get k o).
    { intros k. cbn [get_path]. rewrite Hd. cbn [get_seg].
      destruct (obj_get k o); reflexivity. }
    set (J := fun (done : list string) (t : State) =>
      (forall k, ~ In k done ->
         get_path (program t) [Key "dictionaries"; Key k] = obj_get k o) /\
      deps t = deps s ++ flat_map (entryDictionaryDependencies o) done /\
      (forall k, In k done ->
         exists f m,
           obj_get k o = Some (JStr f) /\ ptrs ("/dictionaries/" ++ k)%string = Some m /\
           path_extname f = ".dic" /\
           get_path (program t) [Key "dictionaries"; Key k]
           = Some (tokenValue (assetDependency filePath f m)))).
    assert (HJ : J (obj_keys o) s').
    { eapply (forM_prefix J); [| |exact Hrun].
      - intros done x rest t t' Hl (Hfr & Hdeps & Hdone) Hbody.
        assert (Hx : ~ In x done).
        { rewrite Hl in Hnd. apply NoDup_remove_2 in Hnd.
          intros Hin. apply Hnd. apply in_or_app. now left. }
        apply collectDictionary_inv in Hbody.
        destruct Hbody as (f & m & d' & Hold & Hm & Hext & Hset & ->).
        rewrite (Hfr x Hx) in Hold.
        assert (Hother : forall k, k <> x ->
                  get_path d' [Key "dictionaries"; Key k]
                  = get_path (program t) [Key "dictionaries"; Key k]).
        { intros k Hk. eapply set_path_frame; eauto.
          apply (diverges_siblings [Key "dictionaries"] (Key x) (Key k) [] []).
          congruence. }
        split; [|split].
        + intros k Hk. simpl program. rewrite Hother.
          * apply Hfr. intros Hin. apply Hk. apply in_or_app. now left.
          * intros ->. apply Hk. apply in_or_app. right. now left.
        + assert (E : entryDictionaryDependencies o x = dictionaryDependencies f m)
            by (unfold entryDictionaryDependencies; now rewrite Hold, Hm).
          cbn [deps]. rewrite Hdeps, flat_map_app. cbn [flat_map].
          rewrite E, app_nil_r, <- app_assoc. reflexivity.
        + intros k Hk. apply in_app_or in Hk. destruct Hk as [Hk | [<- | []]].
          * destruct (Hdone k Hk) as (f' & m' & H1 & H2 & H3 & H4).
            exists f', m'. repeat split; auto. simpl program.
            rewrite Hother; auto. intros ->. contradiction.
          * exists f, m. repeat split; auto. simpl program.
            eapply get_set_path_same; eauto.
      - unfold J. split; [|split].
        + intros k _. apply Hval.
        + simpl. now rewrite app_nil_r.
        + intros k []. }
    destruct HJ as (_ & Hdeps & Hall). split; auto.
    intros k v Hk.
    destruct (Hall k) as (f & m & H1 & H2 & H3 & H4).
    + unfold obj_keys. clear - Hk. induction o as [|[k' v'] o IH]; simpl in *.
      * discriminate.
      * destruct (String.eqb k k') eqn:E.
        -- apply String.eqb_eq in E. now left.
        -- right. auto.
    + exists f, m. repeat split; auto. congruence.
Qed.

End Dictionaries.

(* ================================================================== *)
(** ** The service worker of a version 3 manifest *)

Section ServiceWorker.

Context {host : Host}.
Variable filePath : string.
Variable ptrs : Pointers.

(** The dependency that replaces a declared service worker. *)
Definition workerDependency (url : string) (needRuntimeBG isModule : bool)
  : Dependency :=
  {| specifier := url;
     opts := {| needsStableName := true;
                pipeline := Some (if needRuntimeBG then "mv3-bg-sw" else "");
                loc := None; resolveFrom := None;
                env := Some {| context := "service-worker";
                               sourceType := Some (if isModule then "module"
                                                   else "script") |} |} |}.

(** The dependency on the bundled auto-reload background script that
    stands in for a missing service worker. *)
Definition reloadWorkerDependency : Dependency :=
  {| specifier := "./runtime/autoreload-bg.js";
     opts := {| needsStableName := false; pipeline := None; loc := None;
                resolveFrom := Some this_filename;
                env := Some {| context := "service-worker";
                               sourceType := None |} |} |}.




End ServiceWorker.

(** A decidable sufficient condition for [off_rewrites]. *)
Definition off_rewrites_b (isMV2 : bool) (q : path) : bool :=
  (diverges [Key "content_scripts"] q
   && diverges [Key "dictionaries"] q
   && diverges [Key (browserActionName isMV2); Key "theme_icons"] q
   && diverges [Key "web_accessible_resources"] q
   && forallb (fun loc => diverges (map Key loc) q) DEP_LOCS)%bool.

Lemma off_rewrites_b_sound (ptrs : Pointers) (isMV2 : bool) (q : path) :
  off_rewrites_b isMV2 q = true -> off_rewrites ptrs isMV2 q.
Proof.
  unfold off_rewrites_b. intros H.
  repeat (apply andb_true_iff in H; destruct H as [H ?]).
  repeat split; auto.
  intros loc Hin _.
  match goal with Hf : forallb _ _ = true |- _ =>
    rewrite forallb_forall in Hf; now apply Hf end.
Qed.

Section ServiceWorkerEndToEnd.

Context {host : Host}.
Variable filePath : string.
Variable ptrs : Pointers.


End ServiceWorkerEndToEnd.

(* ================================================================== *)
(** ** Locations without an index entry *)

Section SkippedLocations.

Context {host : Host}.
Variable filePath : string.
Variable ptrs : Pointers.

(** No content script receives the auto-reload client: [content_scripts]
    is no object, and when it is an array none of its entries has a [js]
    array with an element. *)
Definition scriptless (d : json) : Prop :=
  match get_seg d (Key "content_scripts") with
  | Some (JArr scs) =>
      forall c x l, In c scs -> get_seg c (Key "js") <> Some (JArr (x :: l))
  | Some (JObj _) => False
  | _ => True
  end.

Lemma scriptless_flag (hot need : bool) (s1 s2 : State) :
  scriptless (program s1) ->
  collectContentScripts filePath ptrs hot s1 = Ok (need, s2) ->
  need = false.
Proof.
  unfold scriptless. intros Hless Hrun.
  destruct (get_seg (program s1) (Key "content_scripts"))
    as [[| | | |scs|]|] eqn:E; try contradiction;
    try (unfold collectContentScripts in Hrun;
         bind_inv Hrun v s0 Hread; apply readProp_run in Hread;
         destruct Hread as (-> & d & Hd & _ & ->); apply root_value in Hd;
         subst d; rewrite E in Hrun;
         destruct (truthy _); apply ret_run in Hrun; now destruct Hrun).
  destruct (content_scripts_run filePath ptrs hot scs need s1 s2 E Hrun)
    as (-> & _).
  destruct (existsb (reloads hot) scs) eqn:Ex; [|reflexivity].
  apply existsb_exists in Ex. destruct Ex as (c & Hc & Hr).
  unfold reloads, assets in Hr. apply andb_true_iff in Hr.
  destruct Hr as [_ Hr].
  destruct (get_seg c (Key "js")) as [[| | | |l|]|] eqn:Ejs;
    try discriminate Hr.
  destruct l as [|x l]; [discriminate Hr|].
  exfalso. exact (Hless c x l Hc Ejs).
Qed.

Lemma unflagged_wiring_frame (hot : bool) (q : path) (s s' : State) :
  wireBackgroundMV2 hot false s = Ok (tt, s') ->
  diverges [Key "content_security_policy"] q = true ->
  get_path (program s') q = get_path (program s) q.
Proof.
  intros Hrun Hcsp. apply wireBackgroundMV2_run in Hrun.
  destruct Hrun as [[_ ->] | (_ & policy & d1 & _ & Hset & Hev)]; auto.
  transitivity (get_path d1 q).
  - eapply evolves_frame in Hev; [exact Hev|].
    intros p old new [HF _]. discriminate HF.
  - eapply set_path_frame; eauto.
Qed.

(** C10 (amended). A location of the table whose pointer has no entry in
    the index is skipped by the table walk: its iteration writes nothing
    and registers nothing.  Over the whole of dependency collection the
    value at that path stays as it was, with one exception:
    [background.scripts] of a version 2 manifest, under hot reload, when
    a content script has received the auto-reload client. *)
Theorem location_without_pointer_untouched (hot : bool) (loc : list string) :
  In loc DEP_LOCS ->
  ptrs ("/" ++ String.concat "/" loc)%string = None ->
  (forall s, collectLocation filePath ptrs loc s = Ok (tt, s)) /\
  (forall d ds s',
      collectDependencies filePath ptrs hot {| program := d; deps := ds |}
      = Ok (tt, s') ->
      (loc = ["background"; "scripts"] ->
       hot = false \/
       looseEqualsNumber (get_seg d (Key "manifest_version")) 2%float
       = Ok false \/
       scriptless d) ->
      get_path (program s') (map Key loc) = get_path d (map Key loc)).
Proof.
  intros Hin Hptr. rewrite <- join_concat in Hptr. split.
  - intros s. unfold collectLocation. cbv zeta. now rewrite Hptr.
  - intros d ds s' Hrun Hexc.
    apply collectDependencies_run in Hrun.
    destruct Hrun
      as (isMV2 & s1 & need & s2 & s6 & Hmv & Hloc & Hp1 & Hcs & Hev & Hwire).
    simpl program in *.
    pose proof (table_clear_true isMV2) as Hclear.
    rewrite forallb_forall in Hclear. specialize (Hclear loc Hin).
    unfold location_clear in Hclear. cbv zeta in Hclear.
    repeat (apply andb_true_iff in Hclear; destruct Hclear as [Hclear ?]).
    assert (Hoff : off_rewrites ptrs isMV2 (map Key loc)).
    { repeat split; auto.
      intros loc' Hin' Hptr'. apply table_locations_diverge; auto.
      intros ->. unfold has_ptr in Hptr'. now rewrite Hptr in Hptr'. }
    pose proof (evolves_frame (rewrites_spare Hoff) Hev) as Hframe.
    rewrite Hp1 in Hframe. rewrite <- Hframe.
    match goal with Hb : (_ || _ || _)%bool = true |- _ => rename Hb into Hbg end.
    apply orb_true_iff in Hbg. destruct Hbg as [Hbg | Hscripts].
    + apply orb_true_iff in Hbg.
      assert (Hcase : diverges [Key "background"] (map Key loc) = true \/
                      loc = ["background"; "page"]).
      { destruct Hbg as [Hbg | Hpage]; auto.
        destruct (list_eq_dec string_dec loc ["background"; "page"]); auto.
        discriminate. }
      destruct isMV2.
      * eapply wireBackgroundMV2_frame; eauto.
        destruct Hcase as [Hd | ->]; [now left | right].
        exists "page". split; reflexivity.
      * eapply wireBackgroundMV3_frame; eauto.
        destruct Hcase as [Hd | ->]; [now left | right].
        exists "page". split; reflexivity.
    + destruct (list_eq_dec string_dec loc ["background"; "scripts"])
        as [-> | ]; [|discriminate].
      destruct isMV2.
      * destruct (Hexc eq_refl) as [-> | [Hv | Hless]]; [|congruence|].
        -- apply wireBackgroundMV2_run in Hwire.
           destruct Hwire as [[_ ->] | [Hhot _]]; [reflexivity | discriminate].
        -- rewrite <- Hp1 in Hless.
           rewrite (scriptless_flag _ _ _ _ Hless Hcs) in Hwire.
           eapply unflagged_wiring_frame; eauto.
      * eapply wireBackgroundMV3_frame; eauto. right.
        exists "scripts". split; reflexivity.
Qed.

End SkippedLocations.

(* ================================================================== *)
(** * Worked examples

    The manifests below are run on [demoHost], with the pointer index of
    the manifest itself. *)

Definition demoPath : string := "/ext/manifest.json".

Definition demoManifestV2 : json :=
  JObj [("manifest_version", JNum 2%float);
        ("default_locale", JStr "en");
        ("content_scripts",
           JArr [JObj [("js", JArr [JStr "cs.js"]);
                       ("css", JArr [JStr "cs.css"])];
                 JObj [("css", JArr [JStr "only.css"])]]);
        ("dictionaries", JObj [("en", JStr "dict/en.dic")]);
        ("web_accessible_resources", JArr [JStr "img/*.png"]);
        ("icons", JObj [("16", JStr "icon.png")])].


(** The state a run ends in; the start state when it throws. *)
Definition final_state {A} (s : State) (r : Result (A * State)) : State :=
  match r with
  | Ok (_, s') => s'
  | Throw _ => s
  end.

Definition start (d : json) : State := {| program := d; deps := [] |}.

Definition demoRun (hot : bool) (d : json) : Result (unit * State) :=
  @collectDependencies demoHost demoPath (pointersOf d) hot (start d).

Definition demoFinal (hot : bool) (d : json) : State :=
  final_state (start d) (demoRun hot d).

(** A host whose file system is empty. *)
Definition bareHost : Host := exampleHost [] [] (fun _ => None).

Definition lineMapping (n : nat) : Mapping :=
  {| m_key := Some {| line := 2 * n; column := 0 |};
     m_keyEnd := Some {| line := 2 * n; column := 1 |};
     m_value := {| line := 2 * n + 1; column := 0 |};
     m_valueEnd := {| line := 2 * n + 1; column := 1 |} |}.

(** A pointer index given as a table. *)
Definition indexOf (table : list (string * Mapping)) : Pointers :=
  fun ptr => assoc_list ptr table.

Definition localeIndex : Pointers :=
  indexOf [("/default_locale", lineMapping 2)].

(** A host with a [_locales] directory that lacks the locale [en]. *)
Definition germanHost : Host :=
  exampleHost [("/ext/_locales", ["de"])] [] (fun _ => None).

(** Witness of C1: the two locale directories of the demo extension are
    registered; on an empty file system the diagnostic sits on the key, on
    line 4; without the directory of the locale it sits on the value, on
    line 5, and names the locale. *)
Lemma default_locale_directories_witness :
  @collectLocales demoHost demoPath localeIndex (start demoManifestV2)
  = Ok (tt, {| program := demoManifestV2;
               deps :=
                 [ {| specifier := "_locales/de/messages.json";
                      opts := {| needsStableName := true;
                                 pipeline := Some "raw"; loc := None;
                                 resolveFrom := None; env := None |} |};
                   {| specifier := "_locales/en/messages.json";
                      opts := {| needsStableName := true;
                                 pipeline := Some "raw"; loc := None;
                                 resolveFrom := None; env := None |} |} ] |}) /\
  @collectDependencies bareHost demoPath localeIndex false
    (start demoManifestV2)
  = Throw (ThrowableDiagnostic
             {| message := "Invalid Web Extension manifest";
                origin := "@parcel/transformer-webextension";
                frame_filePath := "/ext/manifest.json";
                codeHighlights :=
                  [({| r_start := {| line := 4; column := 0 |};
                       r_end := {| line := 4; column := 1 |} |},
                    "Localization directory does not exist: _locales/en")] |}) /\
  @collectDependencies germanHost demoPath localeIndex false
    (start demoManifestV2)
  = Throw (ThrowableDiagnostic
             {| message := "Invalid Web Extension manifest";
                origin := "@parcel/transformer-webextension";
                frame_filePath := "/ext/manifest.json";
                codeHighlights :=
                  [({| r_start := {| line := 5; column := 0 |};
                       r_end := {| line := 5; column := 1 |} |},
                    "Localization directory for en does not exist: _locales/en")] |}).
Proof.
  split; [|split].
  - pose proof (@default_locale_directories demoHost demoPath localeIndex
                  false demoManifestV2 [] "en" true (lineMapping 2)
                  eq_refl ltac:(discriminate) eq_refl eq_refl) as H.
    cbv zeta in H. destruct H as (_ & _ & _ & H).
    destruct (H eq_refl eq_refl ["de"; "en"] eq_refl) as [H1 _]. exact H1.
  - pose proof (@default_locale_directories bareHost demoPath localeIndex
                  false demoManifestV2 [] "en" true (lineMapping 2)
                  eq_refl ltac:(discriminate) eq_refl eq_refl) as H.
    cbv zeta in H. destruct H as (H & _). exact (H eq_refl).
  - pose proof (@default_locale_directories germanHost demoPath localeIndex
                  false demoManifestV2 [] "en" true (lineMapping 2)
                  eq_refl ltac:(discriminate) eq_refl eq_refl) as H.
    cbv zeta in H. destruct H as (_ & H & _). exact (H eq_refl eq_refl).
Defined.

Definition slashedDictionary : json :=
  JObj [("manifest_version", JNum 2%float);
        ("dictionaries", JObj [("en", JStr "dict/en.dic/")])].

(** C2. The affix file is named by cutting the last four characters of
    the path, whatever they are: a path whose last component ends in
    [.dic] and is followed by a slash has the extension [.dic], passes the
    check, and the second dependency of the run is on [dict/en..aff], not
    on the sibling [dict/en.aff]. *)
Lemma dictionary_sibling_of_slashed_path :
  @path_extname demoHost "dict/en.dic/" = ".dic" /\
  map specifier (deps (demoFinal false slashedDictionary))
  = ["dict/en.dic/"; "dict/en..aff"] /\
  exists s', demoRun false slashedDictionary = Ok (tt, s').
Proof.
  split; [reflexivity|]. split; [vm_compute; reflexivity|].
  eexists. vm_compute. reflexivity.
Qed.

(** Witness of C5. *)
Lemma hot_reload_default_policy_witness :
  get_seg demoManifestV2 (Key "content_security_policy") = None /\
  get_seg (program (demoFinal true demoManifestV2))
    (Key "content_security_policy")
  = Some (JStr "script-src 'self' 'unsafe-eval' blob: filesystem:;object-src 'self' blob: filesystem:;").
Proof.
  split; [reflexivity|].
  apply (@hot_reload_default_policy demoHost demoPath
           (pointersOf demoManifestV2) demoManifestV2 []).
  - reflexivity.
  - reflexivity.
  - vm_compute. reflexivity.
Defined.


(** The dependency the examples expect for a file of the extension:
    stable-named, on the given pipeline, located on line [n] of the
    manifest. *)
Definition fileDependency (url : string) (pl : option string) (n : nat)
  : Dependency :=
  {| specifier := url;
     opts := {| needsStableName := true; pipeline := pl;
                loc := Some {| loc_filePath := "/ext/manifest.json";
                               loc_range :=
                                 {| r_start := {| line := n; column := 0 |};
                                    r_end := {| line := n; column := 1 |} |} |};
                resolveFrom := None; env := None |} |}.

Definition dictionariesManifest : json :=
  JObj [("manifest_version", JNum 2%float);
        ("dictionaries", JObj [("en", JStr "dict/en.dic");
                               ("fr", JStr "dict/fr.txt")])].

Definition dictionariesIndex : Pointers :=
  indexOf [("/dictionaries/en", lineMapping 3);
           ("/dictionaries/fr", lineMapping 4)].

(** Witness of X16: the English dictionary and its affix file are
    registered, both located on the line of the entry's value; the
    French entry, a text file, is refused with a highlight on its own
    line. *)
Lemma dictionaries_rewritten_witness :
  (exists d',
     @collectDictionary demoHost demoPath dictionariesIndex "en"
       (start dictionariesManifest)
     = Ok (tt, {| program := d';
                  deps := [fileDependency "dict/en.dic" None 7;
                           fileDependency "dict/en.aff" None 7] |}) /\
     get_path d' [Key "dictionaries"; Key "en"]
     = Some (JStr "dep:dict/en.dic")) /\
  @collectDictionary demoHost demoPath dictionariesIndex "fr"
    (start dictionariesManifest)
  = Throw (ThrowableDiagnostic
             {| message := "Invalid Web Extension manifest";
                origin := "@parcel/transformer-webextension";
                frame_filePath := "/ext/manifest.json";
                codeHighlights :=
                  [({| r_start := {| line := 9; column := 0 |};
                       r_end := {| line := 9; column := 1 |} |},
                    "Dictionaries must be .dic files")] |}).
Proof.
  destruct (@dictionaries_rewritten demoHost demoPath dictionariesIndex)
    as [Hentry _].
  split.
  - destruct (Hentry (start dictionariesManifest)
                [("en", JStr "dict/en.dic"); ("fr", JStr "dict/fr.txt")]
                "en" "dict/en.dic" (lineMapping 3) eq_refl eq_refl eq_refl)
      as [_ Hok].
    destruct (Hok eq_refl) as (d' & Hset & Hrun & _).
    exists d'. split; [exact Hrun|].
    exact (get_set_path_same _ _ _ Hset).
  - destruct (Hentry (start dictionariesManifest)
                [("en", JStr "dict/en.dic"); ("fr", JStr "dict/fr.txt")]
                "fr" "dict/fr.txt" (lineMapping 4) eq_refl eq_refl eq_refl)
      as [Hbad _].
    apply Hbad. discriminate.
Defined.






Definition workerAsset : Asset :=
  {| asset_filePath := "/ext/sw.js";
     asset_pipeline := Some "mv3-bg-sw";
     asset_code := "self.onmessage = null;";
     asset_dependencies := [] |}.

(** Witness of C8. *)
Lemma service_worker_wrapper_mode_witness :
  exists out,
    @transform demoHost workerAsset true
    = Ok {| asset_filePath := "/ext/sw.js";
            asset_pipeline := Some "mv3-bg-sw";
            asset_code := out;
            asset_dependencies := [] |} /\
    may_start_json out = false.
Proof.
  destruct (service_worker_wrapper_mode demoHost workerAsset true eq_refl)
    as (Hrun & Hjson & _).
  eexists. split; [exact Hrun | exact Hjson].
Defined.

(** A version 3 manifest whose web-accessible-resources entry lists its
    patterns in an array. *)
Definition listedResourcesManifest : json :=
  JObj [("manifest_version", JNum 3%float);
        ("web_accessible_resources",
           JArr [JObj [("resources", JArr [JStr "img/*.png"]);
                       ("matches", JArr [JStr "<all_urls>"])]])].


Definition iconsManifest : json :=
  JObj [("manifest_version", JNum 2%float);
        ("icons", JObj [("16", JStr "icon.png")])].

Definition noPointers : Pointers := fun _ => None.

(** A version 2 manifest with a background script and no content
    script. *)
Definition scriptedBackground : json :=
  JObj [("manifest_version", JNum 2%float);
        ("background", JObj [("scripts", JArr [JStr "bg.js"])]);
        ("icons", JObj [("16", JStr "icon.png")])].

(** Witness of C10 (amended): with an empty index, under hot reload, the
    icons stay, and so do the background scripts of a manifest without
    content scripts. *)
Lemma location_without_pointer_untouched_witness :
  get_path
    (program (final_state (start scriptedBackground)
                (@collectDependencies demoHost demoPath noPointers true
                   (start scriptedBackground))))
    [Key "icons"]
  = Some (JObj [("16", JStr "icon.png")]) /\
  get_path
    (program (final_state (start scriptedBackground)
                (@collectDependencies demoHost demoPath noPointers true
                   (start scriptedBackground))))
    [Key "background"; Key "scripts"]
  = Some (JArr [JStr "bg.js"]) /\
  @collectLocation demoHost demoPath noPointers ["background"; "scripts"]
    (start scriptedBackground)
  = Ok (tt, start scriptedBackground).
Proof.
  split; [|split].
  - destruct (@location_without_pointer_untouched demoHost demoPath noPointers
                true ["icons"]) as [_ H].
    + simpl. tauto.
    + reflexivity.
    + apply (H scriptedBackground []).
      * vm_compute. reflexivity.
      * discriminate.
  - destruct (@location_without_pointer_untouched demoHost demoPath noPointers
                true ["background"; "scripts"]) as [_ H].
    + simpl. tauto.
    + reflexivity.
    + apply (H scriptedBackground []).
      * vm_compute. reflexivity.
      * intros _. right. right. exact I.
  - destruct (@location_without_pointer_untouched demoHost demoPath noPointers
                true ["background"; "scripts"]) as [H _].
    + simpl. tauto.
    + reflexivity.
    + apply H.
Defined.

Definition scriptedManifest : json :=
  JObj [("manifest_version", JNum 2%float);
        ("content_scripts", JArr [JObj [("js", JArr [JStr "cs.js"])]])].

(** C10 as stated fails: [/background/scripts] has no entry in the index
    of a manifest without [background], yet under hot reload the version 2
    wiring stores an array there and registers a dependency for it. *)
Lemma background_scripts_written_without_pointer :
  In ["background"; "scripts"] DEP_LOCS /\
  pointersOf scriptedManifest "/background/scripts" = None /\
  get_path scriptedManifest [Key "background"; Key "scripts"] = None /\
  (exists s', demoRun true scriptedManifest = Ok (tt, s')) /\
  get_path (program (demoFinal true scriptedManifest))
    [Key "background"; Key "scripts"]
  = Some (JArr [JStr "dep:./runtime/autoreload-bg.js"]) /\
  map specifier (deps (demoFinal true scriptedManifest))
  = ["cs.js"; "./runtime/autoreload.js"; "./runtime/autoreload-bg.js"].
Proof.
  split; [simpl; tauto|]. split; [reflexivity|]. split; [reflexivity|].
  split; [eexists; vm_compute; reflexivity|].
  split; vm_compute; reflexivity.
Qed.

(* ================================================================== *)
(** * Further properties of the transformer *)

(** ** The patcher on any parsed policy *)

Lemma obj_has_get {V} (k : string) (o : JsObject V) :
  obj_has k o = false <-> obj_get k o = None.
Proof. unfold obj_has. destruct (obj_get k o); split; congruence. Qed.

Lemma obj_keys_app {V} (o1 o2 : JsObject V) :
  obj_keys (o1 ++ o2) = obj_keys o1 ++ obj_keys o2.
Proof. apply map_app. Qed.

Lemma obj_get_app_absent {V} (k : string) (o1 o2 : JsObject V) :
  obj_get k o1 = None -> obj_get k (o1 ++ o2) = obj_get k o2.
Proof.
  induction o1 as [|[k' v'] o1 IH]; simpl; auto.
  destruct (String.eqb k k'); [discriminate | exact IH].
Qed.

Lemma obj_get_app_present {V} (k : string) (v : V) (o1 o2 : JsObject V) :
  obj_get k o1 = Some v -> obj_get k (o1 ++ o2) = Some v.
Proof.
  induction o1 as [|[k' v'] o1 IH]; simpl; [discriminate|].
  destruct (String.eqb k k'); [auto | exact IH].
Qed.

(** X1. Whatever the parsed policy, after the two conditional updates of
    the patcher [script-src] exists and holds the token ['unsafe-eval'],
    and patching a patched policy changes nothing. *)
Theorem patched_policy_allows_eval (csp : JsObject (list string)) :
  (exists toks, obj_get "script-src" (patchCSP csp) = Some toks /\
                In UNSAFE_EVAL toks) /\
  patchCSP (patchCSP csp) = patchCSP csp.
Proof.
  assert (H : exists toks, obj_get "script-src" (patchCSP csp) = Some toks /\
                           In UNSAFE_EVAL toks).
  { destruct (obj_get "script-src" csp) as [toks|] eqn:Hg.
    - destruct (in_dec string_dec UNSAFE_EVAL toks) as [Hin | Hout].
      + rewrite (patchCSP_present csp Hg Hin). eauto.
      + rewrite (patchCSP_lacking csp Hg Hout), obj_get_set_same.
        eexists. split; [reflexivity|]. apply in_or_app. right. now left.
    - rewrite (patchCSP_absent csp Hg).
      rewrite (obj_get_app_absent _ _ _ Hg). simpl.
      eexists. split; [reflexivity|]. right. now left. }
  split; [exact H|].
  destruct H as (toks & Hg & Hin). exact (patchCSP_present _ Hg Hin).
Qed.

(** X2. The patcher touches no directive but [script-src] and keeps the
    directives in their order, a synthesized [script-src] going last; the
    text returned for a non-empty policy is these directives in order,
    each written as its name, a space, its tokens joined by spaces and a
    semicolon. *)
Theorem patch_keeps_other_directives {host : Host} (p : string) :
  p <> "" ->
  let csp := parseCSP p in
  (forall k, k <> "script-src" ->
             obj_get k (patchCSP csp) = obj_get k csp) /\
  obj_keys (patchCSP csp)
  = obj_keys csp ++ (if obj_has "script-src" csp then [] else ["script-src"]) /\
  cspPatchHMR (Some p)
  = String.concat "" (map directiveText (patchCSP csp)).
Proof.
  intros Hp csp. split; [|split].
  - intros k Hk.
    destruct (obj_get "script-src" csp) as [toks|] eqn:Hg.
    + destruct (in_dec string_dec UNSAFE_EVAL toks) as [Hin | Hout].
      * now rewrite (patchCSP_present csp Hg Hin).
      * rewrite (patchCSP_lacking csp Hg Hout).
        apply obj_get_set_other. congruence.
    + rewrite (patchCSP_absent csp Hg).
      destruct (obj_get k csp) as [v|] eqn:Hk'.
      * now apply obj_get_app_present.
      * rewrite (obj_get_app_absent _ _ _ Hk'). simpl.
        destruct (String.eqb k "script-src") eqn:E; [|reflexivity].
        apply String.eqb_eq in E. contradiction.
  - unfold obj_has.
    destruct (obj_get "script-src" csp) as [toks|] eqn:Hg.
    + rewrite app_nil_r.
      destruct (in_dec string_dec UNSAFE_EVAL toks) as [Hin | Hout].
      * now rewrite (patchCSP_present csp Hg Hin).
      * rewrite (patchCSP_lacking csp Hg Hout).
        eapply obj_set_keys; eauto.
    + rewrite (patchCSP_absent csp Hg). apply obj_keys_app.
  - rewrite (cspPatchHMR_nonempty Hp). apply serializeCSP_concat.
Qed.

(** Witness of X2: a policy with two directives and no [script-src]. *)
Lemma patch_keeps_other_directives_witness :
  obj_keys (patchCSP (@parseCSP demoHost "img-src *; object-src 'self'"))
  = ["img-src"; "object-src"; "script-src"] /\
  obj_get "object-src"
    (patchCSP (@parseCSP demoHost "img-src *; object-src 'self'"))
  = Some ["'self'"].
Proof.
  destruct (@patch_keeps_other_directives demoHost
              "img-src *; object-src 'self'") as (Hget & Hkeys & _).
  - discriminate.
  - split.
    + rewrite Hkeys. reflexivity.
    + rewrite (Hget "object-src"); [reflexivity | discriminate].
Defined.

(** ** What dependency collection leaves alone *)

Section Frames.

Context {host : Host}.
Variable filePath : string.
Variable ptrs : Pointers.

Lemma diverges_sibling_keys (pre : path) (k k' : string) :
  k <> k' -> diverges (pre ++ [Key k]) (pre ++ [Key k']) = true.
Proof.
  intros Hne. induction pre as [|a pre IH]; simpl.
  - destruct (String.eqb k k') eqn:E; [|reflexivity].
    apply String.eqb_eq in E. contradiction.
  - now rewrite seg_eqb_refl.
Qed.

(** X3. A dependency collection that ends well leaves every value alone
    that lies off the fields it rewrites: off [content_scripts],
    [dictionaries], the theme icons ([browser_action.theme_icons] when
    [manifest_version == 2] holds, [action.theme_icons] otherwise),
    [web_accessible_resources], the locations of the table, the policy,
    and [background] except for its properties other than [scripts],
    [page] and [service_worker]. *)
Theorem untouched_fields_stay (hot : bool) (d : json) (ds : list Dependency)
  (s' : State) (q : path) (isMV2 : bool) :
  collectDependencies filePath ptrs hot {| program := d; deps := ds |}
  = Ok (tt, s') ->
  looseEqualsNumber (get_seg d (Key "manifest_version")) 2%float = Ok isMV2 ->
  off_rewrites_b isMV2 q = true ->
  diverges [Key "content_security_policy"] q = true ->
  (diverges [Key "background"] q = true \/
   exists k, q = [Key "background"; Key k] /\
             k <> "scripts" /\ k <> "service_worker") ->
  get_path (program s') q = get_path d q.
Proof.
  intros Hrun Hv Hoff Hcsp Hbg.
  apply collectDependencies_run in Hrun.
  destruct Hrun
    as (isMV2' & s1 & need & s2 & s6 & Hmv & Hloc & Hp1 & Hcs & Hev & Hwire).
  simpl program in *. rewrite Hv in Hmv. injection Hmv as <-.
  pose proof (evolves_frame
                (rewrites_spare (off_rewrites_b_sound ptrs isMV2 q Hoff)) Hev)
    as Hframe.
  rewrite Hp1 in Hframe. rewrite <- Hframe.
  destruct isMV2.
  - eapply wireBackgroundMV2_frame; eauto.
    destruct Hbg as [Hd | (k & -> & Hk1 & Hk2)]; [now left | right].
    exists k. split; [reflexivity|].
    apply (diverges_sibling_keys [Key "background"]). congruence.
  - eapply wireBackgroundMV3_frame; eauto.
    destruct Hbg as [Hd | (k & -> & Hk1 & Hk2)]; [now left | right].
    exists k. split; [reflexivity|].
    apply (diverges_sibling_keys [Key "background"]). congruence.
Qed.

(** X4. The policy is patched only under hot reload and only when
    [manifest_version == 2] holds: without hot reload, or when the loose
    comparison of [manifest_version] with 2 is false, a dependency
    collection that ends well leaves [content_security_policy] as it
    was.  The comparison is false for an absent version, for [null] and
    for every number but 2, and true for the number 2; a string or an
    array is compared through its conversion to a number. *)
Theorem policy_kept_without_hot_reload (hot : bool) (d : json)
  (ds : list Dependency) (s' : State) :
  collectDependencies filePath ptrs hot {| program := d; deps := ds |}
  = Ok (tt, s') ->
  hot = false \/
  looseEqualsNumber (get_seg d (Key "manifest_version")) 2%float = Ok false ->
  get_seg (program s') (Key "content_security_policy")
  = get_seg d (Key "content_security_policy").
Proof.
  intros Hrun Hcase.
  apply collectDependencies_run in Hrun.
  destruct Hrun
    as (isMV2 & s1 & need & s2 & s6 & Hmv & Hloc & Hp1 & Hcs & Hev & Hwire).
  simpl program in *.
  assert (Hoff : off_rewrites ptrs isMV2 [Key "content_security_policy"])
    by (apply off_rewrites_top; reflexivity).
  pose proof (evolves_frame (rewrites_spare Hoff) Hev) as Hframe.
  rewrite !get_path_key, Hp1 in Hframe. rewrite <- Hframe.
  destruct isMV2.
  - destruct Hcase as [-> | Hv]; [|congruence].
    apply wireBackgroundMV2_run in Hwire.
    destruct Hwire as [[_ ->] | [Hhot _]]; [reflexivity | discriminate].
  - rewrite <- !get_path_key.
    eapply wireBackgroundMV3_frame; eauto.
Qed.

(** X5. For a version 2 manifest under hot reload, a dependency
    collection that ends well leaves in [content_security_policy] the
    patched text of the policy it found, and the fixed default when the
    field was absent or falsy. *)
Theorem hot_reload_patches_policy (d : json) (ds : list Dependency)
  (s' : State) :
  is_number_two (get_seg d (Key "manifest_version")) = true ->
  collectDependencies filePath ptrs true {| program := d; deps := ds |}
  = Ok (tt, s') ->
  (forall p, get_seg d (Key "content_security_policy") = Some (JStr p) ->
     get_seg (program s') (Key "content_security_policy")
     = Some (JStr (cspPatchHMR (Some p)))) /\
  (truthy (get_seg d (Key "content_security_policy")) = false ->
     get_seg (program s') (Key "content_security_policy")
     = Some (JStr (cspPatchHMR None))).
Proof.
  intros Hv Hrun.
  apply collectDependencies_run in Hrun.
  destruct Hrun
    as (isMV2 & s1 & need & s2 & s6 & Hmv & Hloc & Hp1 & Hcs & Hev & Hwire).
  simpl program in *. rewrite (number_two_loose _ Hv) in Hmv.
  injection Hmv as <-.
  assert (Hoff : off_rewrites ptrs true [Key "content_security_policy"])
    by (apply off_rewrites_top; reflexivity).
  pose proof (evolves_frame (rewrites_spare Hoff) Hev) as Hframe.
  rewrite !get_path_key, Hp1 in Hframe.
  apply wireBackgroundMV2_run in Hwire.
  destruct Hwire as [[Hhot _] | (_ & policy & d1 & Hcases & Hset & Hev2)];
    [discriminate|].
  assert (Hsp : forall p old new,
             writes_lax (scripts_footprint need) p old new ->
             spares [Key "content_security_policy"] p old new)
    by (apply scripts_spare; reflexivity).
  pose proof (evolves_frame Hsp Hev2) as Hframe2.
  rewrite !get_path_key in Hframe2. simpl program in Hframe2.
  cbn [set_path] in Hset. rewrite (get_set_seg_same _ _ _ Hset) in Hframe2.
  rewrite Hframe2. rewrite Hframe in Hcases.
  split.
  - intros p Hp. rewrite Hp in Hcases.
    destruct Hcases as [(p' & Hp' & ->) | [Hf ->]].
    + inversion Hp'. reflexivity.
    + simpl in Hf. unfold cspPatchHMR.
      destruct (String.eqb p "") eqn:E; [reflexivity | discriminate].
  - intros Hf.
    destruct Hcases as [(p' & Hp' & ->) | [_ ->]]; [|reflexivity].
    rewrite Hp' in Hf. simpl in Hf. unfold cspPatchHMR.
    destruct (String.eqb p' ""); [reflexivity | discriminate].
Qed.

End Frames.

Definition policyManifest : json :=
  JObj [("manifest_version", JNum 2%float);
        ("name", JStr "demo");
        ("content_security_policy", JStr "default-src 'self'")].

(** Witness of X3: the default locale of the demo manifest stays. *)
Lemma untouched_fields_stay_witness :
  get_path (program (demoFinal true demoManifestV2)) [Key "default_locale"]
  = Some (JStr "en").
Proof.
  apply (@untouched_fields_stay demoHost demoPath (pointersOf demoManifestV2)
           true demoManifestV2 [] (demoFinal true demoManifestV2)
           [Key "default_locale"] true).
  - vm_compute. reflexivity.
  - reflexivity.
  - reflexivity.
  - reflexivity.
  - left. reflexivity.
Defined.

Definition policyManifestV3 : json :=
  JObj [("manifest_version", JNum 3%float);
        ("name", JStr "demo");
        ("content_security_policy", JStr "default-src 'self'")].

(** Witness of X4: under hot reload the policy of a version 3 manifest
    stays. *)
Lemma policy_kept_without_hot_reload_witness :
  get_seg (program (demoFinal true policyManifestV3))
    (Key "content_security_policy")
  = Some (JStr "default-src 'self'").
Proof.
  apply (@policy_kept_without_hot_reload demoHost demoPath
           (pointersOf policyManifestV3) true policyManifestV3 []
           (demoFinal true policyManifestV3)).
  - vm_compute. reflexivity.
  - right. reflexivity.
Defined.

(** Witness of X5: under hot reload the policy is patched. *)
Lemma hot_reload_patches_policy_witness :
  get_seg (program (demoFinal true policyManifest))
    (Key "content_security_policy")
  = Some (JStr (@cspPatchHMR demoHost (Some "default-src 'self'"))).
Proof.
  destruct (@hot_reload_patches_policy demoHost demoPath
              (pointersOf policyManifest) policyManifest []
              (demoFinal true policyManifest)) as [H _].
  - reflexivity.
  - vm_compute. reflexivity.
  - apply H. reflexivity.
Defined.

(** ** The dependencies a run registers *)

(** [registers P m]: a run of [m] that ends well keeps the registered
    dependencies and adds only dependencies that satisfy [P]. *)
Definition registers {A} (P : Dependency -> Prop) (m : M A) : Prop :=
  forall s a s', m s = Ok (a, s') ->
    exists l, deps s' = deps s ++ l /\ Forall P l.

Lemma registers_none {A} (P : Dependency -> Prop) (m : M A) :
  (forall s a s', m s = Ok (a, s') -> deps s' = deps s) -> registers P m.
Proof.
  intros H s a s' Hrun. exists []. rewrite app_nil_r. split; eauto.
Qed.

Lemma registers_reads {A} (P : Dependency -> Prop) (m : M A) :
  reads_only m -> registers P m.
Proof.
  intros H. apply registers_none. intros s a s' Hrun.
  now rewrite (H _ _ _ Hrun).
Qed.

Lemma registers_ret {A} (P : Dependency -> Prop) (a : A) : registers P (ret a).
Proof. apply registers_none. intros s b s' H. now inversion H. Qed.

Lemma registers_throw {A} (P : Dependency -> Prop) (e : Exn) :
  registers P (@throw A e).
Proof. intros s a s' H. discriminate. Qed.

Lemma registers_bind {A B} (P : Dependency -> Prop) (m : M A) (f : A -> M B) :
  registers P m -> (forall a, registers P (f a)) -> registers P (bind m f).
Proof.
  intros Hm Hf s b s'' Hrun.
  apply bind_Ok in Hrun. destruct Hrun as (a & s' & H1 & H2).
  destruct (Hm _ _ _ H1) as (l1 & E1 & F1).
  destruct (Hf a _ _ _ H2) as (l2 & E2 & F2).
  exists (l1 ++ l2). split.
  - now rewrite E2, E1, app_assoc.
  - apply Forall_app. auto.
Qed.

Lemma registers_forM {A} (P : Dependency -> Prop) (l : list A)
  (body : A -> M unit) :
  (forall x, In x l -> registers P (body x)) -> registers P (forM l body).
Proof.
  induction l as [|x l IH]; intros Hbody.
  - apply registers_ret.
  - cbn [forM]. apply registers_bind.
    + apply Hbody. now left.
    + intros _. apply IH. intros y Hy. apply Hbody. now right.
Qed.

Lemma registers_foldM {A B} (P : Dependency -> Prop) (l : list A) (acc : B)
  (body : B -> A -> M B) :
  (forall x a, In x l -> registers P (body a x)) ->
  registers P (foldM l acc body).
Proof.
  revert acc. induction l as [|x l IH]; intros acc Hbody.
  - apply registers_ret.
  - cbn [foldM]. apply registers_bind.
    + apply Hbody. now left.
    + intros acc'. apply IH. intros y a Hy. apply Hbody. now right.
Qed.

Lemma registers_mapM {A B} (P : Dependency -> Prop) (l : list A)
  (f : A -> M B) :
  (forall x, In x l -> registers P (f x)) -> registers P (mapM f l).
Proof.
  induction l as [|x l IH]; intros Hf.
  - apply registers_ret.
  - cbn [mapM]. apply registers_bind.
    + apply Hf. now left.
    + intros y. apply registers_bind.
      * apply IH. intros z Hz. apply Hf. now right.
      * intros ys. apply registers_ret.
Qed.

Lemma registers_writeAt (P : Dependency -> Prop) (p : path) (v : json) :
  registers P (writeAt p v).
Proof.
  apply registers_none. intros s a s' H.
  apply writeAt_run in H. destruct H as (d' & _ & ->). reflexivity.
Qed.

Lemma registers_pushAt (P : Dependency -> Prop) (p : path) (v : json) :
  registers P (pushAt p v).
Proof.
  apply registers_none. intros s a s' H.
  apply pushAt_run in H. destruct H as (l & d' & _ & _ & ->). reflexivity.
Qed.

Lemma registers_add {host : Host} (P : Dependency -> Prop) (url : string)
  (o : DepOpts) :
  P {| specifier := url; opts := o |} ->
  registers P (addURLDependency url o).
Proof.
  intros HP s tok s' H. unfold addURLDependency in H. inversion H.
  exists [{| specifier := url; opts := o |}]. split; [reflexivity|].
  constructor; [exact HP | constructor].
Qed.

Lemma registers_weaken {A} (P Q : Dependency -> Prop) (m : M A) :
  (forall d, P d -> Q d) -> registers P m -> registers Q m.
Proof.
  intros HPQ Hm s a s' Hrun. destruct (Hm _ _ _ Hrun) as (l & E & F).
  exists l. split; [exact E|]. eapply Forall_impl; eauto.
Qed.

(** A dependency on a file of the extension: stable-named, resolved from
    the manifest. *)
Definition stableDependency (d : Dependency) : Prop :=
  needsStableName (opts d) = true /\ resolveFrom (opts d) = None.

(** A dependency on one of the two bundled runtime scripts, resolved from
    the transformer's own file. *)
Definition runtimeDependency {host : Host} (d : Dependency) : Prop :=
  needsStableName (opts d) = false /\
  resolveFrom (opts d) = Some this_filename /\
  (specifier d = "./runtime/autoreload.js" \/
   specifier d = "./runtime/autoreload-bg.js").

Definition expected {host : Host} (flag : bool) (d : Dependency) : Prop :=
  stableDependency d \/ (flag = true /\ runtimeDependency d).

Ltac reg_step :=
  match goal with
  | |- registers _ (ret _) => apply registers_ret
  | |- registers _ (throw _) => apply registers_throw
  | |- registers _ (bind _ _) => apply registers_bind; [|intros ?; cbv beta]
  | |- registers _ (forM _ _) => apply registers_forM; intros ? ?; cbv beta
  | |- registers _ (foldM _ _ _) => apply registers_foldM; intros ? ? ?; cbv beta
  | |- registers _ (mapM _ _) => apply registers_mapM; intros ? ?; cbv beta
  | |- registers _ (readAt _) => apply registers_reads, readAt_reads_only
  | |- registers _ (readProp _ _) => apply registers_reads, readProp_reads_only
  | |- registers _ (asString _ _) => apply registers_reads, asString_reads_only
  | |- registers _ (looseEq2 _) => apply registers_reads, looseEq2_reads_only
  | |- registers _ (looseEqString _ _) =>
      apply registers_reads, looseEqString_reads_only
  | |- registers _ (sourceLocation _ _ _) =>
      apply registers_reads, sourceLocation_reads_only
  | |- registers _ (writeAt _ _) => apply registers_writeAt
  | |- registers _ (pushAt _ _) => apply registers_pushAt
  | |- registers _ (addURLDependency _ _) => apply registers_add
  | |- registers _ (if ?b then _ else _) => destruct b
  | |- registers _ (match ?x with _ => _ end) => destruct x
  | |- registers _ _ => cbv zeta
  end.

Ltac reg :=
  repeat reg_step;
  try solve [left; split; reflexivity
            | right; split; [reflexivity|];
              split; [reflexivity|]; split; [reflexivity|]; auto].

Section Registered.

Context {host : Host}.
Variable filePath : string.
Variable ptrs : Pointers.

Lemma collectLocales_registers (flag : bool) :
  registers (expected flag) (collectLocales filePath ptrs).
Proof. unfold collectLocales. reg. Qed.

Lemma rewriteElement_registers (flag : bool) (p : path) :
  registers (expected flag) (rewriteElement filePath ptrs p).
Proof. unfold rewriteElement. reg. Qed.

Lemma rewriteAssets_registers (flag : bool) (sc : path) (k : string) :
  registers (expected flag) (rewriteAssets filePath ptrs sc k).
Proof.
  unfold rewriteAssets. reg; apply rewriteElement_registers.
Qed.

Lemma collectContentScripts_registers (hot : bool) :
  registers (expected hot) (collectContentScripts filePath ptrs hot).
Proof.
  unfold collectContentScripts. reg.
  unfold collectContentScript.
  apply registers_bind;
    [apply registers_forM; intros k _; apply rewriteAssets_registers|].
  intros _. destruct hot; reg.
Qed.

(** The flag is only set under hot reload. *)
Lemma collectContentScripts_flag (hot needRuntimeBG : bool) (s s' : State) :
  collectContentScripts filePath ptrs hot s = Ok (needRuntimeBG, s') ->
  needRuntimeBG = true -> hot = true.
Proof.
  unfold collectContentScripts. intros H.
  bind_inv H cs s1 Hr.
  destruct (truthy cs); [|apply ret_run in H; destruct H; congruence].
  destruct cs as [[| | | |scs|]|]; try discriminate H;
    try (apply ret_run in H; destruct H; congruence).
  eapply (foldM_invariant (fun need _ => need = true -> hot = true)
                          (fun _ => True)) in H.
  - exact (proj1 H).
  - intros i acc acc' t t' _ Hacc Hbody. split; [|exact I].
    unfold collectContentScript in Hbody.
    bind_inv Hbody u t1 Hassets.
    destruct hot; [reflexivity|].
    apply ret_run in Hbody. destruct Hbody as [-> _]. exact Hacc.
  - discriminate.
Qed.

Lemma collectDictionaries_registers (flag : bool) :
  registers (expected flag) (collectDictionaries filePath ptrs).
Proof. unfold collectDictionaries. reg. unfold collectDictionary. reg. Qed.

Lemma collectThemeIcons_registers (flag isMV2 : bool) :
  registers (expected flag) (collectThemeIcons filePath ptrs isMV2).
Proof. unfold collectThemeIcons. reg. Qed.

Lemma collectWebAccessibleResources_registers (flag isMV2 : bool) :
  registers (expected flag)
            (collectWebAccessibleResources filePath ptrs isMV2).
Proof. unfold collectWebAccessibleResources, globDependencies. reg. Qed.

Lemma rewriteLocation_registers (flag : bool) (ptr : string) (p : path) :
  registers (expected flag) (rewriteLocation filePath ptrs ptr p).
Proof. unfold rewriteLocation. reg. Qed.

Lemma walk_registers (flag : bool) (loc : list string) : forall parent,
  registers (expected flag) (walk parent loc).
Proof.
  induction loc as [|k loc IH]; intros parent; [apply registers_throw|].
  destruct loc as [|k' loc].
  - cbn [walk]. reg.
  - change (walk parent (k :: k' :: loc))
      with (_ <- readProp parent k ;; walk (parent ++ [Key k]) (k' :: loc)).
    apply registers_bind; [reg | intros _; apply IH].
Qed.

Lemma collectLocations_registers (flag : bool) (table : list (list string)) :
  registers (expected flag) (collectLocations filePath ptrs table).
Proof.
  unfold collectLocations. apply registers_forM. intros loc _.
  unfold collectLocation. cbv zeta.
  destruct (ptrs _); [|apply registers_ret].
  apply registers_bind; [apply walk_registers|].
  intros [p obj]. reg; apply rewriteLocation_registers.
Qed.

Lemma wireBackgroundMV2_registers (hot needRuntimeBG : bool) :
  registers (expected hot) (wireBackgroundMV2 hot needRuntimeBG).
Proof. unfold wireBackgroundMV2, autoreloadBg. destruct hot; reg. Qed.

Lemma wireBackgroundMV3_registers (needRuntimeBG : bool) :
  registers (expected needRuntimeBG) (wireBackgroundMV3 needRuntimeBG).
Proof. unfold wireBackgroundMV3, autoreloadBg. destruct needRuntimeBG; reg. Qed.

End Registered.

Section RegisteredByCollection.

Context {host : Host}.
Variable filePath : string.
Variable ptrs : Pointers.

Lemma collectDependencies_registers (hot : bool) :
  registers (expected hot) (collectDependencies filePath ptrs hot).
Proof.
  intros s [] s' H.
  unfold collectDependencies in H.
    bind_inv H mv s0 Hmv. apply readProp_run in Hmv. destruct Hmv as [-> _].
    bind_inv H isMV2 s0 Hv. apply looseEq2_run in Hv. destruct Hv as [-> Hv].
    bind_inv H u1 s1 Hloc. bind_inv H need s2 Hcs.
    bind_inv H u3 s3 Hdict. bind_inv H u4 s4 Hth. bind_inv H u5 s5 Hwar.
    bind_inv H u6 s6 Hlocs.
    destruct (collectLocales_registers filePath ptrs hot _ _ _ Hloc)
      as (l1 & E1 & F1).
    destruct (collectContentScripts_registers filePath ptrs hot _ _ _ Hcs)
      as (l2 & E2 & F2).
    destruct (collectDictionaries_registers filePath ptrs hot _ _ _ Hdict)
      as (l3 & E3 & F3).
    destruct (collectThemeIcons_registers filePath ptrs hot isMV2 _ _ _ Hth)
      as (l4 & E4 & F4).
    destruct (collectWebAccessibleResources_registers filePath ptrs hot isMV2
                _ _ _ Hwar) as (l5 & E5 & F5).
    destruct (collectLocations_registers filePath ptrs hot DEP_LOCS _ _ _ Hlocs)
      as (l6 & E6 & F6).
    assert (Hw : exists l7, deps s' = deps s6 ++ l7 /\ Forall (expected hot) l7).
    { destruct isMV2.
      - exact (wireBackgroundMV2_registers hot need _ _ _ H).
      - destruct (wireBackgroundMV3_registers need _ _ _ H) as (l7 & E7 & F7).
        exists l7. split; [exact E7|].
        eapply Forall_impl; [|exact F7].
        intros d [Hs | [Hneed Hr]]; [now left | right].
        split; [|exact Hr].
        exact (collectContentScripts_flag filePath ptrs hot need _ _ Hcs Hneed). }
    destruct Hw as (l7 & E7 & F7).
    exists (l1 ++ l2 ++ l3 ++ l4 ++ l5 ++ l6 ++ l7). split.
    - rewrite E7, E6, E5, E4, E3, E2, E1. now rewrite <- !app_assoc.
    - repeat (apply Forall_app; split; auto).
Qed.

(** X6. A dependency collection that ends well keeps the dependencies
    registered before it, and every dependency it adds is either
    stable-named and resolved from the manifest, or one of the two bundled
    runtime scripts ([./runtime/autoreload.js],
    [./runtime/autoreload-bg.js]), not stable-named and resolved from the
    transformer's own file; the runtime scripts are registered only under
    hot reload. *)
Theorem registered_dependencies_kinds (hot : bool) (s s' : State) :
  collectDependencies filePath ptrs hot s = Ok (tt, s') ->
  exists l,
    deps s' = deps s ++ l /\
    Forall (expected hot) l /\
    (hot = false -> Forall stableDependency l).
Proof.
  intros H.
  destruct (collectDependencies_registers hot _ _ _ H) as (l & E & F).
  exists l. split; [exact E|]. split; [exact F|].
  intros ->. eapply Forall_impl; [|exact F].
  intros d [Hs | [Hf _]]; [exact Hs | discriminate].
Qed.

End RegisteredByCollection.

(** Witness of X6: the demo manifest under hot reload registers the two
    runtime scripts besides the files of the extension. *)
Lemma registered_dependencies_kinds_witness :
  exists l,
    deps (demoFinal true demoManifestV2) = l /\
    Forall (@expected demoHost true) l.
Proof.
  destruct (@registered_dependencies_kinds demoHost demoPath
              (pointersOf demoManifestV2) true (start demoManifestV2)
              (demoFinal true demoManifestV2)) as (l & E & F & _).
  - vm_compute. reflexivity.
  - exists l. split; [exact E | exact F].
Defined.

(** ** The walk over the table of locations *)

Lemma set_seg_defined (d c v : json) (a : seg) :
  get_seg d a = Some c -> exists d', set_seg d a v = Some d'.
Proof.
  destruct d, a; simpl; try discriminate.
  - intros H.
    assert (Hi : i < length items) by (apply nth_error_Some; congruence).
    apply Nat.ltb_lt in Hi. rewrite Hi. eauto.
  - eauto.
Qed.

(** A value that is there can be assigned to. *)
Lemma set_path_defined (p : path) : forall (d a v : json),
  get_path d p = Some a -> exists d', set_path d p v = Some d'.
Proof.
  induction p as [|s p IH]; intros d a v H.
  - simpl. eauto.
  - cbn [get_path] in H.
    destruct (get_seg d s) as [c|] eqn:Ec; [|discriminate].
    destruct p as [|s' p].
    + cbn [set_path]. eapply set_seg_defined; eauto.
    + rewrite set_path_cons, Ec.
      destruct (IH c a v H) as [c' Hc']. rewrite Hc'.
      eapply set_seg_defined; eauto.
Qed.

Lemma get_path_step (d c : json) (p : path) (k : seg) :
  get_path d p = Some c -> get_path d (p ++ [k]) = get_seg c k.
Proof.
  intros H. rewrite get_path_app, H. simpl.
  destruct (get_seg c k); reflexivity.
Qed.

Lemma get_path_step_none (d : json) (p r : path) :
  get_path d p = None \/ get_path d p = Some JNull ->
  r <> [] -> get_path d (p ++ r) = None.
Proof.
  intros H Hr. rewrite get_path_app.
  destruct H as [-> | ->]; [reflexivity|].
  destruct r as [|b r]; [contradiction|]. destruct b; reflexivity.
Qed.

Lemma readProp_throw (p : path) (k : string) (e : Exn) (s : State) :
  readProp p k s = Throw e ->
  e = TypeError /\
  (get_path (program s) p = None \/ get_path (program s) p = Some JNull).
Proof.
  unfold readProp. intros H.
  destruct (get_path (program s) p) as [[]|]; try discriminate;
    inversion H; auto.
Qed.

Section Locations.

Context {host : Host}.
Variable filePath : string.
Variable ptrs : Pointers.

(** The walk down to a location either arrives, with the value found
    there, or fails on a parent that is [undefined] or [null]; then
    nothing is at the location. *)
Lemma walk_result (loc : list string) : loc <> [] -> forall parent s,
  walk parent loc s
  = Ok ((parent ++ map Key loc,
         get_path (program s) (parent ++ map Key loc)), s) \/
  (walk parent loc s = Throw TypeError /\
   get_path (program s) (parent ++ map Key loc) = None).
Proof.
  induction loc as [|k loc IH]; intros Hne parent s; [contradiction|].
  destruct loc as [|k' loc].
  - cbn [walk map].
    destruct (readProp parent k s) as [[x s1]|e] eqn:Er.
    + rewrite (@bind_step _ _ _ _ _ _ _ Er). left.
      apply readProp_run in Er. destruct Er as (-> & c & Hc & _ & ->).
      unfold ret. now rewrite (get_path_step _ _ _ (Key k) Hc).
    + rewrite (@bind_Throw _ _ _ _ _ _ Er).
      apply readProp_throw in Er. destruct Er as [-> Hp]. right.
      split; [reflexivity|]. apply get_path_step_none; [exact Hp | discriminate].
  - change (walk parent (k :: k' :: loc))
      with (_ <- readProp parent k ;; walk (parent ++ [Key k]) (k' :: loc)).
    change (parent ++ map Key (k :: k' :: loc))
      with (parent ++ [Key k] ++ map Key (k' :: loc)).
    rewrite app_assoc.
    destruct (readProp parent k s) as [[x s1]|e] eqn:Er.
    + rewrite (@bind_step _ _ _ _ _ _ _ Er).
      apply readProp_run in Er. destruct Er as (-> & _).
      apply IH. discriminate.
    + rewrite (@bind_Throw _ _ _ _ _ _ Er).
      apply readProp_throw in Er. destruct Er as [-> Hp]. right.
      split; [reflexivity|]. rewrite <- app_assoc.
      apply get_path_step_none; [exact Hp | discriminate].
Qed.

(** The dependency registered for the string [url] found at a location
    whose index entry is [m]: stable-named, located at the value, on the
    [url] pipeline when the extension is [.json]. *)
Definition locationDependency (url : string) (m : Mapping) : Dependency :=
  {| specifier := url;
     opts := {| needsStableName := true;
                pipeline := if String.eqb (path_extname url) ".json"
                            then Some "url" else None;
                loc := Some {| loc_filePath := filePath;
                               loc_range :=
                                 getJSONSourceLocation m (Some LValue) |};
                resolveFrom := None; env := None |} |}.

Lemma rewriteLocation_run (ptr : string) (p : path) (s s' : State) :
  rewriteLocation filePath ptrs ptr p s = Ok (tt, s') ->
  exists url m d',
    get_path (program s) p = Some (JStr url) /\
    ptrs ptr = Some m /\
    set_path (program s) p (tokenValue (locationDependency url m)) = Some d' /\
    s' = {| program := d'; deps := deps s ++ [locationDependency url m] |}.
Proof.
  unfold rewriteLocation. intros H.
  bind_inv H v s1 Hv. apply readAt_run in Hv. destruct Hv as [-> ->].
  bind_inv H r s1 Hr. apply sourceLocation_run in Hr.
  destruct Hr as (-> & m & Hm & ->).
  bind_inv H url s1 Hu. apply asString_run in Hu. destruct Hu as [Hu ->].
  bind_inv H tok s1 Ht. apply addURLDependency_run in Ht. cbv zeta in Ht.
  destruct Ht as [-> ->].
  apply writeAt_run in H. destruct H as (d' & Hset & ->).
  exists url, m, d'. cbn [program deps] in *. auto.
Qed.

Lemma rewriteLocation_forward (ptr : string) (p : path) (url : string)
  (m : Mapping) (s : State) :
  get_path (program s) p = Some (JStr url) ->
  ptrs ptr = Some m ->
  exists d',
    set_path (program s) p (tokenValue (locationDependency url m)) = Some d' /\
    rewriteLocation filePath ptrs ptr p s
    = Ok (tt, {| program := d'; deps := deps s ++ [locationDependency url m] |}).
Proof.
  intros Hg Hm.
  destruct (set_path_defined p _ _ (tokenValue (locationDependency url m)) Hg)
    as [d' Hset].
  exists d'. split; [exact Hset|].
  unfold rewriteLocation, bind, readAt, sourceLocation, ret, asString,
    addURLDependency, writeAt.
  rewrite Hg. cbv beta iota zeta. rewrite Hm. cbv beta iota zeta.
  unfold ret. cbv beta iota. cbn [program deps]. unfold stable.
  unfold tokenValue, locationDependency in Hset. rewrite Hset. reflexivity.
Qed.

End Locations.

Section LocationRounds.

Context {host : Host}.
Variable filePath : string.
Variable ptrs : Pointers.

(** X7. One round of the table walk at a location that has an index
    entry under its pointer, the names of the location joined by [/]
    after a leading [/], and holds a string: the string is replaced by the
    token of one new dependency on it, stable-named, located at the value
    range of that entry and on the [url] pipeline exactly when its
    extension is [.json]; nothing else is registered. *)
Theorem location_string_rewritten (loc : list string) (m : Mapping)
  (url : string) (s : State) :
  loc <> [] ->
  ptrs ("/" ++ String.concat "/" loc)%string = Some m ->
  get_path (program s) (map Key loc) = Some (JStr url) ->
  let dep :=
    {| specifier := url;
       opts := {| needsStableName := true;
                  pipeline := if String.eqb (path_extname url) ".json"
                              then Some "url" else None;
                  loc := Some {| loc_filePath := filePath;
                                 loc_range :=
                                   getJSONSourceLocation m (Some LValue) |};
                  resolveFrom := None; env := None |} |} in
  exists d',
    set_path (program s) (map Key loc) (JStr (depToken dep)) = Some d' /\
    collectLocation filePath ptrs loc s
    = Ok (tt, {| program := d'; deps := deps s ++ [dep] |}).
Proof.
  intros Hne Hm Hg dep. rewrite <- join_concat in Hm.
  unfold collectLocation. cbv zeta. rewrite Hm.
  destruct (walk_result loc Hne [] s) as [Hw | [_ Hnone]];
    [|simpl app in Hnone; congruence].
  simpl app in Hw. rewrite (@bind_step _ _ _ _ _ _ _ Hw), Hg.
  exact (rewriteLocation_forward filePath ptrs _ _ _ _ _ Hg Hm).
Qed.

(** X8. A location that has an index entry but no value, or the value
    [null], ends the walk with a [TypeError], whether the value itself or
    one of its parents is missing. *)
Theorem location_without_value_fails (loc : list string) (m : Mapping)
  (s : State) :
  loc <> [] ->
  ptrs ("/" ++ join "/" loc)%string = Some m ->
  get_path (program s) (map Key loc) = None \/
  get_path (program s) (map Key loc) = Some JNull ->
  collectLocation filePath ptrs loc s = Throw TypeError.
Proof.
  intros Hne Hm Hg. unfold collectLocation. cbv zeta. rewrite Hm.
  destruct (walk_result loc Hne [] s) as [Hw | [Hw _]].
  - simpl app in Hw. rewrite (@bind_step _ _ _ _ _ _ _ Hw).
    destruct Hg as [-> | ->]; reflexivity.
  - now apply bind_Throw.
Qed.

(** The dependency of one member of the value at a location. *)
Definition memberDependencies (loc : list string) (v : json) (k : seg)
  : list Dependency :=
  match get_seg v k,
        ptrs ("/" ++ join "/" loc ++ "/" ++ seg_to_string k)%string with
  | Some (JStr url), Some m => [locationDependency filePath url m]
  | _, _ => []
  end.

(** X9. One round of the table walk at a location that has an index
    entry and holds a value that is not a string: when it ends well, every
    member of the value (property of an object, element of an array) was
    a string with an index entry of its own and has been replaced by the
    token of a dependency on it, and these dependencies, in the order of
    the members, are what the round registered; a number or boolean has
    no members and nothing happens. *)
Theorem location_members_rewritten (loc : list string) (m0 : Mapping)
  (v : json) (s s' : State) :
  loc <> [] ->
  ptrs ("/" ++ join "/" loc)%string = Some m0 ->
  get_path (program s) (map Key loc) = Some v ->
  (forall url, v <> JStr url) ->
  NoDup (own_segs v) ->
  collectLocation filePath ptrs loc s = Ok (tt, s') ->
  deps s' = deps s ++ flat_map (memberDependencies loc v) (own_segs v) /\
  (forall k, In k (own_segs v) ->
     exists url m,
       get_seg v k = Some (JStr url) /\
       ptrs ("/" ++ join "/" loc ++ "/" ++ seg_to_string k)%string = Some m /\
       get_path (program s') (map Key loc ++ [k])
       = Some (tokenValue (locationDependency filePath url m))).
Proof.
  intros Hne Hm Hg Hstr Hnd Hrun. unfold collectLocation in Hrun.
  cbv zeta in Hrun. rewrite Hm in Hrun.
  destruct (walk_result loc Hne [] s) as [Hw | [_ Hnone]];
    [|simpl app in Hnone; congruence].
  simpl app in Hw. rewrite (@bind_step _ _ _ _ _ _ _ Hw), Hg in Hrun.
  assert (Hloop : forM (own_segs v) (fun k =>
            rewriteLocation filePath ptrs
              ("/" ++ join "/" loc ++ "/" ++ seg_to_string k)%string
              (map Key loc ++ [k])) s = Ok (tt, s')).
  { destruct v; try exact Hrun; try discriminate Hrun.
    exfalso. eapply Hstr. reflexivity. }
  clear Hrun.
  set (J := fun (done : list seg) (t : State) =>
    (forall k, ~ In k done ->
       get_path (program t) (map Key loc ++ [k]) = get_seg v k) /\
    deps t = deps s ++ flat_map (memberDependencies loc v) done /\
    (forall k, In k done ->
       exists url m,
         get_seg v k = Some (JStr url) /\
         ptrs ("/" ++ join "/" loc ++ "/" ++ seg_to_string k)%string = Some m /\
         get_path (program t) (map Key loc ++ [k])
         = Some (tokenValue (locationDependency filePath url m)))).
  assert (HJ : J (own_segs v) s').
  { eapply (forM_prefix J); [| |exact Hloop].
    - intros done x rest t t' Hl (Hfr & Hdeps & Hdone) Hbody.
      assert (Hx : ~ In x done).
      { rewrite Hl in Hnd. apply NoDup_remove_2 in Hnd.
        intros Hin. apply Hnd. apply in_or_app. now left. }
      apply rewriteLocation_run in Hbody.
      destruct Hbody as (url & m & d' & Hold & Hmx & Hset & ->).
      rewrite (Hfr x Hx) in Hold.
      assert (Hother : forall k, k <> x ->
                get_path d' (map Key loc ++ [k])
                = get_path (program t) (map Key loc ++ [k])).
      { intros k Hk. eapply set_path_frame; eauto.
        apply (diverges_siblings (map Key loc) x k [] []). congruence. }
      split; [|split].
      + intros k Hk. simpl program. rewrite Hother.
        * apply Hfr. intros Hin. apply Hk. apply in_or_app. now left.
        * intros ->. apply Hk. apply in_or_app. right. now left.
      + assert (E : memberDependencies loc v x
                    = [locationDependency filePath url m])
          by (unfold memberDependencies; now rewrite Hold, Hmx).
        cbn [deps]. rewrite Hdeps, flat_map_app. cbn [flat_map].
        rewrite E, app_nil_r, <- app_assoc. reflexivity.
      + intros k Hk. apply in_app_or in Hk. destruct Hk as [Hk | [<- | []]].
        * destruct (Hdone k Hk) as (url' & m' & H1 & H2 & H3).
          exists url', m'. repeat split; auto. simpl program.
          rewrite Hother; auto. intros ->. contradiction.
        * exists url, m. repeat split; auto. simpl program.
          eapply get_set_path_same; eauto.
    - unfold J. split; [|split].
      + intros k _. now apply get_path_step.
      + simpl. now rewrite app_nil_r.
      + intros k []. }
  destruct HJ as (_ & Hdeps & Hall). split; auto.
Qed.

End LocationRounds.

Definition pagesManifest : json :=
  JObj [("manifest_version", JNum 2%float);
        ("devtools_page", JStr "devtools.html");
        ("storage", JObj [("managed_schema", JStr "schema.json")]);
        ("icons", JObj [("16", JStr "a.png"); ("48", JStr "b.png")])].

Definition pagesIndex : Pointers :=
  indexOf [("/storage/managed_schema", lineMapping 4);
           ("/devtools_page", lineMapping 2)].

(** Witness of X7: the managed schema goes to the [url] pipeline and is
    located on the line of its index entry; the page next to it stays on
    the default pipeline. *)
Lemma location_string_rewritten_witness :
  (exists d',
     @collectLocation demoHost demoPath pagesIndex
       ["storage"; "managed_schema"] (start pagesManifest)
     = Ok (tt, {| program := d';
                  deps := [fileDependency "schema.json" (Some "url") 9] |})) /\
  (exists d',
     @collectLocation demoHost demoPath pagesIndex
       ["devtools_page"] (start pagesManifest)
     = Ok (tt, {| program := d';
                  deps := [fileDependency "devtools.html" None 5] |})).
Proof.
  split.
  - destruct (@location_string_rewritten demoHost demoPath pagesIndex
                ["storage"; "managed_schema"] (lineMapping 4) "schema.json"
                (start pagesManifest))
      as (d' & _ & Hrun).
    + discriminate.
    + reflexivity.
    + reflexivity.
    + exists d'. exact Hrun.
  - destruct (@location_string_rewritten demoHost demoPath pagesIndex
                ["devtools_page"] (lineMapping 2) "devtools.html"
                (start pagesManifest))
      as (d' & _ & Hrun).
    + discriminate.
    + reflexivity.
    + reflexivity.
    + exists d'. exact Hrun.
Defined.

(** Witness of X8: an index entry for a page the document does not
    have. *)
Lemma location_without_value_fails_witness :
  @collectLocation demoHost demoPath (pointersOf pagesManifest)
    ["devtools_page"] (start iconsManifest)
  = Throw TypeError.
Proof.
  apply (@location_without_value_fails demoHost demoPath
           (pointersOf pagesManifest) ["devtools_page"] (lineMapping 2)).
  - discriminate.
  - reflexivity.
  - left. reflexivity.
Defined.

(** Witness of X9: the two icons. *)
Lemma location_members_rewritten_witness :
  map specifier
    (deps (final_state (start pagesManifest)
             (@collectLocation demoHost demoPath (pointersOf pagesManifest)
                ["icons"] (start pagesManifest))))
  = ["a.png"; "b.png"].
Proof.
  destruct (@location_members_rewritten demoHost demoPath
              (pointersOf pagesManifest) ["icons"] (lineMapping 5)
              (JObj [("16", JStr "a.png"); ("48", JStr "b.png")])
              (start pagesManifest)
              (final_state (start pagesManifest)
                 (@collectLocation demoHost demoPath (pointersOf pagesManifest)
                    ["icons"] (start pagesManifest)))) as [Hdeps _].
  - discriminate.
  - reflexivity.
  - reflexivity.
  - intros url. discriminate.
  - repeat constructor; simpl; intuition discriminate.
  - vm_compute. reflexivity.
  - rewrite Hdeps. reflexivity.
Defined.

(** ** Web-accessible resources *)

Section Resources.

Context {host : Host}.
Variable filePath : string.
Variable ptrs : Pointers.







(** X11. The expansion fails with a [TypeError] at a first element it
    cannot hand to [path.join]: in a version 2 manifest an element that is
    no string, in any other manifest an entry whose [resources] is no
    string, an array of patterns included. *)
Theorem resources_first_entry_rejected (isMV2 : bool) (e : json)
  (rest : list json) (s : State) :
  get_seg (program s) (Key "web_accessible_resources")
  = Some (JArr (e :: rest)) ->
  (forall pat,
     (if isMV2 then Some e else get_seg e (Key "resources"))
     <> Some (JStr pat)) ->
  collectWebAccessibleResources filePath ptrs isMV2 s = Throw TypeError.
Proof.
  intros Hwar Hbad. unfold collectWebAccessibleResources.
  assert (Hd : program s <> JNull) by (intros E; rewrite E in Hwar; discriminate).
  assert (Hread : readProp [] "web_accessible_resources" s
                  = Ok (Some (JArr (e :: rest)), s)).
  { unfold readProp. cbn [get_path]. rewrite <- Hwar.
    destruct (program s); try reflexivity. contradiction. }
  rewrite (@bind_step _ _ _ _ _ _ _ Hread).
  change (truthy (Some (JArr (e :: rest)))) with true. cbv iota.
  apply bind_Throw. cbn [length seq foldM]. apply bind_Throw.
  cbv beta zeta.
  assert (Hentry : get_path (program s)
                     [Key "web_accessible_resources"; Idx 0] = Some e).
  { cbn [get_path]. rewrite Hwar. reflexivity. }
  destruct isMV2.
  - unfold bind, readAt. rewrite Hentry.
    destruct e; try reflexivity. exfalso. eapply Hbad. reflexivity.
  - unfold bind, readProp. rewrite Hentry.
    destruct e; try reflexivity;
      cbn [get_seg] in *; try (destruct (obj_get "resources" props) as [[]|];
      try reflexivity; exfalso; eapply Hbad; reflexivity).
Qed.

End Resources.





(** Witness of X11: an entry that lists its patterns in an array. *)
Lemma resources_first_entry_rejected_witness :
  @collectWebAccessibleResources demoHost demoPath
    (pointersOf listedResourcesManifest) false (start listedResourcesManifest)
  = Throw TypeError.
Proof.
  apply (@resources_first_entry_rejected demoHost demoPath
           (pointersOf listedResourcesManifest) false
           (JObj [("resources", JArr [JStr "img/*.png"]);
                  ("matches", JArr [JStr "<all_urls>"])]) []).
  - reflexivity.
  - intros pat. discriminate.
Defined.

(** ** Theme icons *)

Lemma optProp_get_path (d : json) (a b : string) :
  optProp (get_seg d (Key a)) b = get_path d [Key a; Key b].
Proof.
  cbn [get_path]. destruct (get_seg d (Key a)) as [c|]; [|reflexivity].
  destruct c; cbn [optProp get_seg]; try reflexivity;
    destruct (obj_get _ _); reflexivity.
Qed.

Lemma icon_paths_diverge (b : string) (x i : nat) (k0 k : string) :
  x <> i \/ k0 <> k ->
  diverges [Key b; Key "theme_icons"; Idx x; Key k0]
           [Key b; Key "theme_icons"; Idx i; Key k] = true.
Proof.
  intros H. destruct (Nat.eq_dec x i) as [-> | Hne].
  - destruct H as [H | H]; [contradiction|].
    apply (diverges_siblings [Key b; Key "theme_icons"; Idx i]
             (Key k0) (Key k) [] []). congruence.
  - apply (diverges_siblings [Key b; Key "theme_icons"]
             (Idx x) (Idx i) [Key k0] [Key k]). congruence.
Qed.

Section ThemeIcons.

Context {host : Host}.
Variable filePath : string.
Variable ptrs : Pointers.

(** The path of a theme icon: entry [i], scheme [k]. *)
Definition iconPath (isMV2 : bool) (i : nat) (k : string) : path :=
  [Key (browserActionName isMV2); Key "theme_icons"; Idx i; Key k].

(** The pointer of a theme icon, as line 171 writes it. *)
Definition iconPointer (isMV2 : bool) (i : nat) (k : string) : string :=
  "/" ++ (if isMV2 then "browser_action" else "action") ++ "/theme_icons/"
  ++ decimal i ++ "/" ++ k.

Lemma iconPointer_path (isMV2 : bool) (i : nat) (k : string) :
  pointer (iconPath isMV2 i k) = iconPointer isMV2 i k.
Proof. destruct isMV2; reflexivity. Qed.

Definition iconDependency (isMV2 : bool) (i : nat) (e : json) (k : string)
  : list Dependency :=
  match get_seg e (Key k), ptrs (iconPointer isMV2 i k) with
  | Some (JStr url), Some m => [assetDependency filePath url m]
  | _, _ => []
  end.

(** The dependencies of the entries at the positions [done]: for each
    entry the light icon, then the dark one. *)
Definition iconsDependencies (isMV2 : bool) (l : list json) (done : list nat)
  : list Dependency :=
  flat_map (fun i => match nth_error l i with
                     | Some e => iconDependency isMV2 i e "light"
                                 ++ iconDependency isMV2 i e "dark"
                     | None => []
                     end) done.

Lemma icon_step_run (base : path) (k : string) (s s' : State) :
  (r <- sourceLocation ptrs (pointer (base ++ [Key k])) (Some LValue) ;;
   icon <- readProp base k ;;
   url <- asString OutOfModel icon ;;
   tok <- addURLDependency url (stable filePath r None) ;;
   writeAt (base ++ [Key k]) (JStr tok)) s = Ok (tt, s') ->
  exists url m d',
    get_path (program s) (base ++ [Key k]) = Some (JStr url) /\
    ptrs (pointer (base ++ [Key k])) = Some m /\
    set_path (program s) (base ++ [Key k])
      (tokenValue (assetDependency filePath url m)) = Some d' /\
    s' = {| program := d'; deps := deps s ++ [assetDependency filePath url m] |}.
Proof.
  intros H.
  bind_inv H r s1 Hr. apply sourceLocation_run in Hr.
  destruct Hr as (-> & m & Hm & ->).
  bind_inv H icon s1 Hi. apply readProp_run in Hi.
  destruct Hi as (-> & c & Hc & _ & ->).
  bind_inv H url s1 Hu. apply asString_run in Hu. destruct Hu as [Hu ->].
  bind_inv H tok s1 Ht. apply addURLDependency_run in Ht. cbv zeta in Ht.
  destruct Ht as [-> ->].
  apply writeAt_run in H. destruct H as (d' & Hset & ->).
  exists url, m, d'. cbn [program deps] in *. repeat split; auto.
  rewrite (@get_path_prop _ _ _ k Hc). exact Hu.
Qed.

(** X12. The theme-icons step on an array of entries, when it ends well:
    in every entry the [light] and the [dark] icon were strings, the index
    has an entry under the icon's own pointer
    [/<action>/theme_icons/i/<scheme>], and the icon has been replaced by
    the token of a dependency on it, stable-named and located at the
    value range of that entry; the other properties of the entries are as
    before; and what was registered is, entry by entry, the light icon's
    dependency and then the dark one's.  The array is that of
    [browser_action] in a version 2 manifest and of [action] otherwise. *)
Theorem theme_icons_rewritten (isMV2 : bool) (l : list json) (s s' : State) :
  get_path (program s) [Key (browserActionName isMV2); Key "theme_icons"]
  = Some (JArr l) ->
  collectThemeIcons filePath ptrs isMV2 s = Ok (tt, s') ->
  deps s' = deps s ++ iconsDependencies isMV2 l (seq 0 (length l)) /\
  (forall i e, nth_error l i = Some e ->
     (forall k, k = "light" \/ k = "dark" ->
        exists url m,
          get_seg e (Key k) = Some (JStr url) /\
          ptrs (iconPointer isMV2 i k) = Some m /\
          get_path (program s') (iconPath isMV2 i k)
          = Some (tokenValue (assetDependency filePath url m))) /\
     (forall k, k <> "light" -> k <> "dark" ->
        get_path (program s') (iconPath isMV2 i k) = get_seg e (Key k))).
Proof.
  intros Hicons Hrun. unfold collectThemeIcons in Hrun. cbv zeta in Hrun.
  change (if isMV2 then "browser_action" else "action")
    with (browserActionName isMV2) in Hrun.
  set (b := browserActionName isMV2) in *.
  bind_inv Hrun action s0 Hread. apply readProp_run in Hread.
  destruct Hread as (-> & d & Hroot & _ & ->). apply root_value in Hroot.
  subst d. rewrite optProp_get_path, Hicons in Hrun.
  change (truthy (Some (JArr l))) with true in Hrun. cbv iota in Hrun.
  assert (Hstart : forall i k,
            get_path (program s) [Key b; Key "theme_icons"; Idx i; Key k]
            = match nth_error l i with
              | Some e => get_seg e (Key k)
              | None => None
              end).
  { intros i k.
    change [Key b; Key "theme_icons"; Idx i; Key k]
      with ([Key b; Key "theme_icons"] ++ [Idx i; Key k]).
    rewrite get_path_app, Hicons. cbn [get_path get_seg].
    destruct (nth_error l i) as [e|]; [|reflexivity].
    destruct (get_seg e (Key k)); reflexivity. }
  set (J := fun (done : list nat) (t : State) =>
    (forall i k, ~ In i done ->
       get_path (program t) [Key b; Key "theme_icons"; Idx i; Key k]
       = get_path (program s) [Key b; Key "theme_icons"; Idx i; Key k]) /\
    deps t = deps s ++ iconsDependencies isMV2 l done /\
    (forall i e, In i done -> nth_error l i = Some e ->
       (forall k, k = "light" \/ k = "dark" ->
          exists url m,
            get_seg e (Key k) = Some (JStr url) /\
            ptrs (iconPointer isMV2 i k) = Some m /\
            get_path (program t) (iconPath isMV2 i k)
            = Some (tokenValue (assetDependency filePath url m))) /\
       (forall k, k <> "light" -> k <> "dark" ->
          get_path (program t) (iconPath isMV2 i k) = get_seg e (Key k)))).
  assert (HJ : J (seq 0 (length l)) s').
  { eapply (forM_prefix J); [| |exact Hrun].
    - intros done x rest t t' Hl (Hfr & Hdeps & Hdone) Hbody.
      destruct (seq_prefix _ _ _ _ Hl) as [Hx Hlt].
      assert (Hnew : ~ In x done).
      { assert (Hnd : NoDup (seq 0 (length l))) by apply seq_NoDup.
        rewrite Hl in Hnd. apply NoDup_remove_2 in Hnd.
        intros Hin. apply Hnd. apply in_or_app. now left. }
      destruct (nth_error l x) as [e|] eqn:Ee;
        [|apply nth_error_None in Ee; lia].
      cbn [forM] in Hbody.
      bind_inv Hbody u1 t1 Hlight. bind_inv Hbody u2 t2 Hdark.
      apply ret_run in Hbody. destruct Hbody as [_ ->].
      destruct u1, u2.
      apply icon_step_run in Hlight.
      destruct Hlight as (url1 & m1 & d1 & Hold1 & Hm1 & Hset1 & ->).
      apply icon_step_run in Hdark.
      destruct Hdark as (url2 & m2 & d2 & Hold2 & Hm2 & Hset2 & ->).
      simpl app in *. cbn [program deps] in *.
      change (pointer [Key b; Key "theme_icons"; Idx x; Key "light"])
        with (pointer (iconPath isMV2 x "light")) in Hm1.
      change (pointer [Key b; Key "theme_icons"; Idx x; Key "dark"])
        with (pointer (iconPath isMV2 x "dark")) in Hm2.
      rewrite iconPointer_path in Hm1, Hm2.
      assert (Hf1 : forall i k, x <> i \/ "light" <> k ->
                get_path d1 [Key b; Key "theme_icons"; Idx i; Key k]
                = get_path (program t) [Key b; Key "theme_icons"; Idx i; Key k]).
      { intros i k Hik. eapply set_path_frame; [|exact Hset1].
        now apply icon_paths_diverge. }
      assert (Hf2 : forall i k, x <> i \/ "dark" <> k ->
                get_path d2 [Key b; Key "theme_icons"; Idx i; Key k]
                = get_path d1 [Key b; Key "theme_icons"; Idx i; Key k]).
      { intros i k Hik. eapply set_path_frame; [|exact Hset2].
        now apply icon_paths_diverge. }
      rewrite (Hfr x "light" Hnew), Hstart, Ee in Hold1.
      rewrite (Hf1 x "dark"), (Hfr x "dark" Hnew), Hstart, Ee in Hold2
        by (right; discriminate).
      split; [|split].
      + intros i k Hi.
        assert (Hxi : x <> i).
        { intros <-. apply Hi. apply in_or_app. right. now left. }
        rewrite Hf2, Hf1 by auto. apply Hfr.
        intros Hin. apply Hi. apply in_or_app. now left.
      + assert (E : iconsDependencies isMV2 l (done ++ [x])
                    = iconsDependencies isMV2 l done
                      ++ [assetDependency filePath url1 m1;
                          assetDependency filePath url2 m2]).
        { unfold iconsDependencies. rewrite flat_map_app. cbn [flat_map].
          rewrite Ee. unfold iconDependency, iconPath. fold b.
          rewrite Hold1, Hold2, Hm1, Hm2. now rewrite app_nil_r. }
        rewrite E, Hdeps, <- !app_assoc. reflexivity.
      + intros i e' Hi He'. apply in_app_or in Hi.
        destruct Hi as [Hi | [<- | []]].
        * assert (Hxi : x <> i) by (intros <-; contradiction).
          destruct (Hdone i e' Hi He') as [Hrew Hoth]. split.
          -- intros k Hk. destruct (Hrew k Hk) as (url & m & H1 & H2 & H3).
             exists url, m. repeat split; auto.
             unfold iconPath. fold b. rewrite Hf2, Hf1 by auto. exact H3.
          -- intros k Hk1 Hk2. unfold iconPath. fold b.
             rewrite Hf2, Hf1 by auto. now apply Hoth.
        * rewrite Ee in He'. inversion He'. subst e'. split.
          -- intros k [-> | ->].
             ++ exists url1, m1. repeat split; auto.
                unfold iconPath. fold b.
                rewrite Hf2 by (right; discriminate).
                eapply get_set_path_same; eauto.
             ++ exists url2, m2. repeat split; auto.
                unfold iconPath. fold b.
                eapply get_set_path_same; eauto.
          -- intros k Hk1 Hk2. unfold iconPath. fold b.
             rewrite Hf2, Hf1, (Hfr x k Hnew), Hstart, Ee
               by (right; congruence).
             reflexivity.
    - unfold J. split; [|split].
      + intros i k _. reflexivity.
      + simpl. now rewrite app_nil_r.
      + intros i e []. }
  destruct HJ as (_ & Hdeps & Hall). split; [exact Hdeps|].
  intros i e He. apply Hall; [|exact He].
  apply in_seq. split; [lia|]. simpl. apply nth_error_Some. congruence.
Qed.

End ThemeIcons.

Definition themedManifest : json :=
  JObj [("manifest_version", JNum 2%float);
        ("browser_action",
           JObj [("theme_icons",
                    JArr [JObj [("light", JStr "sun.png");
                                ("dark", JStr "moon.png");
                                ("size", JNum 16%float)]])])].

Definition iconsIndex : Pointers :=
  indexOf [("/browser_action/theme_icons/0/light", lineMapping 3);
           ("/browser_action/theme_icons/0/dark", lineMapping 4)].

Definition iconsRun : Result (unit * State) :=
  @collectThemeIcons demoHost demoPath iconsIndex true (start themedManifest).

(** Witness of X12: one entry, its light icon before its dark one, each
    located on the line of its own index entry. *)
Lemma theme_icons_rewritten_witness :
  deps (final_state (start themedManifest) iconsRun)
  = [fileDependency "sun.png" None 7; fileDependency "moon.png" None 9] /\
  get_path (program (final_state (start themedManifest) iconsRun))
    [Key "browser_action"; Key "theme_icons"; Idx 0; Key "dark"]
  = Some (JStr "dep:moon.png").
Proof.
  destruct (@theme_icons_rewritten demoHost demoPath iconsIndex true
              [JObj [("light", JStr "sun.png"); ("dark", JStr "moon.png");
                     ("size", JNum 16%float)]]
              (start themedManifest)
              (final_state (start themedManifest) iconsRun))
    as [Hdeps Hicons].
  - reflexivity.
  - vm_compute. reflexivity.
  - split.
    + rewrite Hdeps. vm_compute. reflexivity.
    + destruct (Hicons 0 _ eq_refl) as [Hrew _].
      destruct (Hrew "dark" (or_intror eq_refl))
        as (url & m & Hurl & Hm & Htok).
      injection Hurl as <-. vm_compute in Hm. injection Hm as <-.
      unfold iconPath, browserActionName in Htok. rewrite Htok. reflexivity.
Defined.

(** ** The background scripts of a version 2 manifest *)

Section BackgroundScripts.

Context {host : Host}.

Definition scripts_path : path := [Key "background"; Key "scripts"].

Definition reloadBackgroundDependency : Dependency :=
  {| specifier := "./runtime/autoreload-bg.js"; opts := autoreloadBg None |}.

(** The background scripts a document lists; none when the field is
    absent. *)
Definition listedScripts (d : json) : list json :=
  match get_path d scripts_path with
  | Some (JArr l) => l
  | _ => []
  end.

Lemma falsy_has_no_member (d : json) (p : path) (k : seg) :
  truthy (get_path d p) = false -> get_path d (p ++ [k]) = None.
Proof.
  intros H. rewrite get_path_app.
  destruct (get_path d p) as [c|]; [|reflexivity].
  destruct c; try discriminate; destruct k; reflexivity.
Qed.

(** X13. The wiring of a version 2 manifest under hot reload, when a
    content script needed the runtime companion and the wiring ends well:
    exactly one dependency is registered, on the bundled auto-reload
    background script, and [background.scripts] is afterwards the array
    of the scripts listed before followed by its token, [background] and
    [background.scripts] being created when absent or falsy. *)
Theorem background_script_appended (s s' : State) :
  wireBackgroundMV2 true true s = Ok (tt, s') ->
  deps s' = deps s ++ [reloadBackgroundDependency] /\
  get_path (program s') scripts_path
  = Some (JArr (listedScripts (program s)
                ++ [tokenValue reloadBackgroundDependency])).
Proof.
  unfold wireBackgroundMV2, scripts_path, listedScripts. intros H.
  bind_inv H csp s1 Hcsp. apply readProp_run in Hcsp. destruct Hcsp as (-> & _).
  bind_inv H policy s2 Hpol.
  assert (Es2 : s2 = s).
  { destruct csp as [[]|];
      try (destruct (truthy _); [discriminate|]);
      apply ret_run in Hpol; now destruct Hpol. }
  subst s2. clear Hpol.
  bind_inv H u1 s3 Hw. apply writeAt_run in Hw. destruct Hw as (d1 & Hset & ->).
  assert (Hbg1 : get_path d1 [Key "background"]
                 = get_path (program s) [Key "background"]).
  { eapply set_path_frame; [|exact Hset]. reflexivity. }
  assert (Hsc1 : get_path d1 [Key "background"; Key "scripts"]
                 = get_path (program s) [Key "background"; Key "scripts"]).
  { eapply set_path_frame; [|exact Hset]. reflexivity. }
  bind_inv H bg s4 Hrb. bind_inv H u2 s6 Hmk.
  destruct (@ensure_evolves (fun _ _ _ => True) _ _ _ _ _ _ _ _ Hrb Hmk)
    as (_ & Hd6 & Hcase1); [auto|].
  pose proof Hrb as Hrb'. apply readProp_run in Hrb'.
  destruct Hrb' as (_ & c0 & Hc0 & _ & Ebg).
  pose proof (@get_path_prop _ _ _ "background" Hc0) as Hbgv.
  simpl app in Hbgv. cbn [program] in Hbgv. rewrite <- Ebg, Hbg1 in Hbgv.
  bind_inv H sc s7 Hrs. bind_inv H u3 s9 Hmk2.
  destruct (@ensure_evolves (fun _ _ _ => True) _ _ _ _ _ _ _ _ Hrs Hmk2)
    as (_ & Hd9 & Hcase2); [auto|].
  pose proof Hrs as Hrs'. apply readProp_run in Hrs'.
  destruct Hrs' as (_ & c1 & Hc1 & _ & Esc).
  pose proof (@get_path_prop _ _ _ "scripts" Hc1) as Hscv.
  simpl app in Hscv. rewrite <- Esc in Hscv.
  bind_inv H tok s10 Hdep. apply addURLDependency_run in Hdep.
  cbv zeta in Hdep. destruct Hdep as [-> ->].
  apply pushAt_run in H. destruct H as (l & d' & Hl & Hpush & ->).
  cbn [program deps] in *.
  rewrite (@set_path_push _ _ _ _ Hl) in Hpush.
  split; [now rewrite Hd9, Hd6|].
  rewrite (get_set_path_same _ _ _ Hpush).
  do 3 f_equal. unfold scripts_path. symmetry.
  destruct Hcase2 as [[Hsct ->] | [Hscf Hmk2']].
  - (* the scripts were there *)
    rewrite Hscv in Hl.
    destruct Hcase1 as [[_ ->] | [Hbf Hmk1']].
    + cbn [program] in Hscv. rewrite Hsc1 in Hscv. now rewrite Hscv, Hl.
    + simpl app in Hmk1'. cbn [program set_path] in Hmk1'.
      cbn [get_path] in Hscv. rewrite (get_set_seg_same _ _ _ Hmk1') in Hscv.
      cbn [get_seg obj_get] in Hscv. congruence.
  - (* the scripts were created *)
    simpl app in Hmk2'. rewrite (get_set_path_same _ _ _ Hmk2') in Hl.
    inversion Hl. subst l.
    destruct Hcase1 as [[_ ->] | [Hbf _]].
    + cbn [program] in Hscv. rewrite Hsc1 in Hscv. rewrite Hscv.
      destruct sc as [[]|]; try reflexivity. discriminate.
    + rewrite <- Hbgv in Hbf.
      pose proof (falsy_has_no_member _ [Key "background"] (Key "scripts") Hbf)
        as Hnone.
      simpl app in Hnone. now rewrite Hnone.
Qed.

End BackgroundScripts.

Definition backgroundManifest : json :=
  JObj [("manifest_version", JNum 2%float);
        ("background", JObj [("scripts", JArr [JStr "bg.js"])])].

(** Witness of X13: the companion goes after the listed script. *)
Lemma background_script_appended_witness :
  get_path
    (program (final_state (start backgroundManifest)
                (@wireBackgroundMV2 demoHost true true
                   (start backgroundManifest))))
    scripts_path
  = Some (JArr [JStr "bg.js"; JStr "dep:./runtime/autoreload-bg.js"]).
Proof.
  destruct (@background_script_appended demoHost (start backgroundManifest)
              (final_state (start backgroundManifest)
                 (@wireBackgroundMV2 demoHost true true
                    (start backgroundManifest)))) as [_ H].
  - vm_compute. reflexivity.
  - rewrite H. reflexivity.
Defined.

(** ** The manifest branch of the transformer *)

Lemma other_pipeline {A} (p : option string) (x y : A) :
  p <> Some "mv3-bg-sw" ->
  match p with Some "mv3-bg-sw" => x | _ => y end = y.
Proof.
  intros Hp. destruct p as [s|]; [|reflexivity].
  repeat (match goal with
          | |- match ?v with _ => _ end = _ =>
              is_var v; destruct v; try reflexivity
          end).
  contradiction.
Qed.

(** The schema the manifest is validated against: chosen by strict
    equality of [manifest_version] with the numbers 3 and 2. *)
Definition chosenSchema (data : json) : Schema :=
  let version := get_seg data (Key "manifest_version") in
  if strictEqNum version 3%float then MV3Schema
  else if strictEqNum version 2%float then MV2Schema
  else VersionSchema.

Section ManifestTransform.

Context {host : Host}.

(** X14. The transformer on an asset of any pipeline but ['mv3-bg-sw']
    whose code parses to a document that is not [null]: a violation the
    schema validation reports is thrown as it is, before any dependency is
    collected; otherwise an exception of the dependency collection is
    passed on, and when the collection ends well the asset keeps its file
    path, its pipeline and its earlier dependencies, its code becomes the
    serialization of the rewritten document, and the dependencies added
    are those the collection registered: stable-named ones, and under hot
    reload the bundled runtime scripts. *)
Theorem manifest_transform (asset : Asset) (hmr : bool) (data : json)
  (pointers : Pointers) :
  asset_pipeline asset <> Some "mv3-bg-sw" ->
  jsm_parse (asset_code asset) = Some (data, pointers) ->
  data <> JNull ->
  let run := collectDependencies (asset_filePath asset) pointers hmr
               {| program := data; deps := asset_dependencies asset |} in
  let verdict := validateSchema (chosenSchema data) data (asset_code asset)
                   (asset_filePath asset) in
  (forall diag, verdict = Some diag ->
     transform asset hmr = Throw (ThrowableDiagnostic diag)) /\
  (verdict = None ->
     (forall e, run = Throw e -> transform asset hmr = Throw e) /\
     (forall s, run = Ok (tt, s) ->
        exists added,
          transform asset hmr
          = Ok {| asset_filePath := asset_filePath asset;
                  asset_pipeline := asset_pipeline asset;
                  asset_code := JSON_stringify (program s);
                  asset_dependencies := asset_dependencies asset ++ added |} /\
          Forall (expected hmr) added)).
Proof.
  intros Hp Hparse Hnull run verdict.
  assert (E : transform asset hmr
              = match verdict with
                | Some d => Throw (ThrowableDiagnostic d)
                | None =>
                    match run with
                    | Ok (_, s) =>
                        Ok (setCode asset (JSON_stringify (program s)) (deps s))
                    | Throw e => Throw e
                    end
                end).
  { unfold transform. cbv zeta. rewrite (other_pipeline _ _ _ Hp), Hparse.
    destruct data; try reflexivity. contradiction. }
  rewrite E. split.
  - intros diag ->. reflexivity.
  - intros ->. split.
    + intros e ->. reflexivity.
    + intros s Hrun. rewrite Hrun.
      destruct (collectDependencies_registers (asset_filePath asset) pointers
                  hmr _ _ _ Hrun) as (added & Hdeps & Hadded).
      exists added. split; [|exact Hadded].
      unfold setCode. cbn [deps] in Hdeps. now rewrite Hdeps.
Qed.

End ManifestTransform.

(** A host whose parser reads every manifest as [backgroundManifest]. *)
Definition parsingHost : Host :=
  exampleHost [] []
    (fun _ => Some (backgroundManifest, pointersOf backgroundManifest)).

Definition manifestAsset : Asset :=
  {| asset_filePath := demoPath;
     asset_pipeline := None;
     asset_code := "{ }";
     asset_dependencies := [] |}.

(** Witness of X14: the manifest asset under hot reload. *)
Lemma manifest_transform_witness :
  let s := final_state (start backgroundManifest)
             (@collectDependencies parsingHost demoPath
                (pointersOf backgroundManifest) true
                (start backgroundManifest)) in
  exists added,
    @transform parsingHost manifestAsset true
    = Ok {| asset_filePath := demoPath;
            asset_pipeline := None;
            asset_code := @JSON_stringify parsingHost (program s);
            asset_dependencies := [] ++ added |} /\
    Forall (@expected parsingHost true) added.
Proof.
  intros s.
  destruct (@manifest_transform parsingHost manifestAsset true
              backgroundManifest (pointersOf backgroundManifest)) as [_ H].
  - discriminate.
  - reflexivity.
  - discriminate.
  - destruct (H eq_refl) as [_ H2]. apply (H2 s). vm_compute. reflexivity.
Defined.

(** ** The auto-reload client and its background companion *)

(** A dependency on a file of the extension that is not handed to the
    service-worker wrapper. *)
Definition plainDependency (d : Dependency) : Prop :=
  needsStableName (opts d) = true /\ pipeline (opts d) <> Some "mv3-bg-sw".

Ltac plain :=
  repeat reg_step;
  try solve [split; [reflexivity|]; cbn;
             repeat (match goal with
                     | |- context [if ?b then _ else _] => destruct b
                     end);
             discriminate].

Section Companion.

Context {host : Host}.
Variable filePath : string.
Variable ptrs : Pointers.

Lemma collectLocales_plain :
  registers plainDependency (collectLocales filePath ptrs).
Proof. unfold collectLocales. plain. Qed.

Lemma rewriteAssets_plain (sc : path) (k : string) :
  registers plainDependency (rewriteAssets filePath ptrs sc k).
Proof. unfold rewriteAssets, rewriteElement. plain. Qed.

Lemma collectDictionaries_plain :
  registers plainDependency (collectDictionaries filePath ptrs).
Proof. unfold collectDictionaries. plain. unfold collectDictionary. plain. Qed.

Lemma collectThemeIcons_plain (isMV2 : bool) :
  registers plainDependency (collectThemeIcons filePath ptrs isMV2).
Proof. unfold collectThemeIcons. plain. Qed.

Lemma collectWebAccessibleResources_plain (isMV2 : bool) :
  registers plainDependency (collectWebAccessibleResources filePath ptrs isMV2).
Proof. unfold collectWebAccessibleResources, globDependencies. plain. Qed.

Lemma walk_plain (loc : list string) : forall parent,
  registers plainDependency (walk parent loc).
Proof.
  induction loc as [|k loc IH]; intros parent; [apply registers_throw|].
  destruct loc as [|k' loc].
  - cbn [walk]. plain.
  - change (walk parent (k :: k' :: loc))
      with (_ <- readProp parent k ;; walk (parent ++ [Key k]) (k' :: loc)).
    apply registers_bind; [plain | intros _; apply IH].
Qed.

Lemma collectLocations_plain (table : list (list string)) :
  registers plainDependency (collectLocations filePath ptrs table).
Proof.
  unfold collectLocations. apply registers_forM. intros loc _.
  unfold collectLocation. cbv zeta.
  destruct (ptrs _); [|apply registers_ret].
  apply registers_bind; [apply walk_plain|].
  intros [p obj]. unfold rewriteLocation. plain.
Qed.

Lemma registers_nothing {A} (m : M A) (s s' : State) (a : A) :
  registers (fun _ => False) m -> m s = Ok (a, s') -> deps s' = deps s.
Proof.
  intros Hm H. destruct (Hm _ _ _ H) as (l & E & F).
  destruct l as [|d l]; [now rewrite app_nil_r in E|].
  inversion F; contradiction.
Qed.

Lemma plain_not_client (l : list Dependency) :
  Forall plainDependency l -> ~ In autoreloadDependency l.
Proof.
  intros F Hin. rewrite Forall_forall in F.
  destruct (F _ Hin) as [Hs _]. discriminate Hs.
Qed.

(** One content script: the flag is raised exactly when the client is
    registered, and nothing but the client and plain dependencies is. *)
Lemma collectContentScript_client (hot acc acc' : bool) (i : nat)
  (t t' : State) :
  collectContentScript filePath ptrs hot acc i t = Ok (acc', t') ->
  exists l, deps t' = deps t ++ l /\
    Forall (fun d => plainDependency d \/ d = autoreloadDependency) l /\
    (acc' = true <-> acc = true \/ In autoreloadDependency l).
Proof.
  unfold collectContentScript. intros H.
  bind_inv H u t1 Hassets.
  assert (Ha : registers plainDependency
                 (forM ["css"; "js"]
                    (rewriteAssets filePath ptrs [Key "content_scripts"; Idx i])))
    by (apply registers_forM; intros k _; apply rewriteAssets_plain).
  destruct (Ha _ _ _ Hassets) as (l1 & E1 & F1).
  assert (Hkeep : acc' = acc /\ t' = t1 ->
            exists l, deps t' = deps t ++ l /\
              Forall (fun d => plainDependency d \/ d = autoreloadDependency) l /\
              (acc' = true <-> acc = true \/ In autoreloadDependency l)).
  { intros [-> ->]. exists l1. split; [exact E1|]. split.
    - eapply Forall_impl; [|exact F1]. now left.
    - split; [now left|]. intros [Hacc|Hin]; [exact Hacc|].
      now apply plain_not_client in Hin. }
  destruct hot; [|apply ret_run in H; exact (Hkeep H)].
  bind_inv H js t2 Hjs. apply readProp_run in Hjs. destruct Hjs as [-> _].
  destruct js as [[| | | | l |]|]; try (apply ret_run in H; exact (Hkeep H)).
  destruct (negb (length l =? 0)%nat); [|apply ret_run in H; exact (Hkeep H)].
  bind_inv H tok t3 Hadd. apply addURLDependency_run in Hadd.
  cbv zeta in Hadd. destruct Hadd as [_ ->].
  bind_inv H u' t4 Hpush. apply pushAt_run in Hpush.
  destruct Hpush as (l0 & d' & _ & _ & ->).
  apply ret_run in H. destruct H as [-> ->].
  exists (l1 ++ [autoreloadDependency]). cbn [deps]. split.
  - now rewrite E1, app_assoc.
  - split.
    + apply Forall_app. split.
      * eapply Forall_impl; [|exact F1]. now left.
      * constructor; [now right | constructor].
    + split; [|reflexivity]. intros _. right.
      apply in_or_app. right. now left.
Qed.

Lemma collectContentScripts_client (hot need : bool) (s s' : State) :
  collectContentScripts filePath ptrs hot s = Ok (need, s') ->
  exists l, deps s' = deps s ++ l /\
    Forall (fun d => plainDependency d \/ d = autoreloadDependency) l /\
    (need = true <-> In autoreloadDependency l).
Proof.
  unfold collectContentScripts. intros H.
  bind_inv H cs s1 Hr. apply readProp_run in Hr. destruct Hr as [-> _].
  assert (Hnone : need = false /\ s' = s ->
            exists l, deps s' = deps s ++ l /\
              Forall (fun d => plainDependency d \/ d = autoreloadDependency) l /\
              (need = true <-> In autoreloadDependency l)).
  { intros [-> ->]. exists []. rewrite app_nil_r.
    repeat split; [constructor | discriminate | contradiction]. }
  destruct (truthy cs); [|apply ret_run in H; exact (Hnone H)].
  destruct cs as [[| | | | scs |]|]; try discriminate H;
    try (apply ret_run in H; exact (Hnone H)).
  assert (G : forall (idx : list nat) (acc : bool) (t : State),
            foldM idx acc (collectContentScript filePath ptrs hot) t
            = Ok (need, s') ->
            exists l, deps s' = deps t ++ l /\
              Forall (fun d => plainDependency d \/ d = autoreloadDependency) l /\
              (need = true <-> acc = true \/ In autoreloadDependency l)).
  { clear H Hnone. induction idx as [|i idx IH]; intros acc t H.
    - apply ret_run in H. destruct H as [-> ->]. exists [].
      rewrite app_nil_r. repeat split; [constructor | now left |].
      now intros [Hacc|[]].
    - cbn [foldM] in H. bind_inv H acc1 t1 Hbody.
      destruct (collectContentScript_client _ _ _ _ _ _ Hbody)
        as (l1 & E1 & F1 & I1).
      destruct (IH _ _ H) as (l2 & E2 & F2 & I2).
      exists (l1 ++ l2). split; [now rewrite E2, E1, app_assoc|].
      split; [apply Forall_app; auto|].
      rewrite I2, I1, in_app_iff. tauto. }
  destruct (G _ _ _ H) as (l & E & F & I).
  exists l. split; [exact E|]. split; [exact F|].
  rewrite I. split; [now intros [Hf|Hin] | now right].
Qed.

Ltac unchanged H := apply registers_nothing in H; [|solve [reg]].

Lemma wireBackgroundMV2_adds (hot need : bool) (s s' : State) :
  wireBackgroundMV2 hot need s = Ok (tt, s') ->
  deps s' = deps s ++ (if (hot && need)%bool then [reloadBackgroundDependency]
                       else []).
Proof.
  unfold wireBackgroundMV2. intros H.
  destruct hot;
    [|apply ret_run in H; destruct H as [_ ->]; cbn; now rewrite app_nil_r].
  bind_inv H csp s1 Hr. unchanged Hr.
  bind_inv H policy s2 Hpol. unchanged Hpol.
  bind_inv H u s3 Hw. unchanged Hw.
  destruct need; cbn [andb];
    [|apply ret_run in H; destruct H as [_ ->]; rewrite app_nil_r; congruence].
  bind_inv H bg s4 Hbg. unchanged Hbg.
  bind_inv H u1 s5 Hmk. unchanged Hmk.
  bind_inv H sc s6 Hsc. unchanged Hsc.
  bind_inv H u2 s7 Hmk2. unchanged Hmk2.
  bind_inv H tok s8 Hadd. apply addURLDependency_run in Hadd.
  cbv zeta in Hadd. destruct Hadd as [_ ->].
  unchanged H. cbn [deps] in H. rewrite H.
  unfold reloadBackgroundDependency. congruence.
Qed.

Lemma wireBackgroundMV3_adds (need : bool) (s s' : State) :
  wireBackgroundMV3 need s = Ok (tt, s') ->
  exists l, deps s' = deps s ++ l /\
    ((exists url isModule, l = [workerDependency url need isModule]) \/
     l = (if need then [reloadWorkerDependency] else [])).
Proof.
  unfold wireBackgroundMV3. intros H.
  bind_inv H bg s1 Hbg. unchanged Hbg. cbv zeta in H.
  destruct (truthy (optProp bg "service_worker")).
  - bind_inv H url s2 Hurl. unchanged Hurl.
    bind_inv H type s3 Hty. unchanged Hty.
    bind_inv H isModule s4 Hm. unchanged Hm.
    bind_inv H tok s5 Hadd. apply addURLDependency_run in Hadd.
    cbv zeta in Hadd. destruct Hadd as [_ ->].
    unchanged H. cbn [deps] in H.
    exists [workerDependency url need isModule]. split.
    + rewrite H. unfold workerDependency. congruence.
    + left. eauto.
  - destruct need.
    + bind_inv H u s2 Hmk. unchanged Hmk.
      bind_inv H tok s3 Hadd. apply addURLDependency_run in Hadd.
      cbv zeta in Hadd. destruct Hadd as [_ ->].
      unchanged H. cbn [deps] in H.
      exists [reloadWorkerDependency]. split; [|now right].
      rewrite H. unfold reloadWorkerDependency, autoreloadBg. congruence.
    + apply ret_run in H. destruct H as [_ ->].
      exists []. rewrite app_nil_r. split; [exact Hbg | now right].
Qed.

(** The auto-reload client of the content scripts. *)
Definition clientDependency (d : Dependency) : Prop :=
  specifier d = "./runtime/autoreload.js" /\ needsStableName (opts d) = false.

(** Its counterpart in the background: the bundled background script, or
    a service worker handed to the wrapper pipeline. *)
Definition companionDependency (d : Dependency) : Prop :=
  (specifier d = "./runtime/autoreload-bg.js" /\
   needsStableName (opts d) = false) \/
  pipeline (opts d) = Some "mv3-bg-sw".

Lemma no_plain_client (l : list Dependency) :
  Forall plainDependency l -> ~ Exists clientDependency l.
Proof.
  rewrite Forall_forall, Exists_exists. intros F (d & Hin & _ & Hn).
  destruct (F d Hin) as [Hs _]. congruence.
Qed.

Lemma no_plain_companion (l : list Dependency) :
  Forall plainDependency l -> ~ Exists companionDependency l.
Proof.
  rewrite Forall_forall, Exists_exists. intros F (d & Hin & Hc).
  destruct (F d Hin) as [Hs Hp]. destruct Hc as [[_ Hn]|Hpl]; congruence.
Qed.

Lemma scripts_client (l : list Dependency) :
  Forall (fun d => plainDependency d \/ d = autoreloadDependency) l ->
  (Exists clientDependency l <-> In autoreloadDependency l).
Proof.
  rewrite Forall_forall, Exists_exists. intros F. split.
  - intros (d & Hin & _ & Hn).
    destruct (F d Hin) as [[Hs _]| ->]; [congruence | exact Hin].
  - intros Hin. exists autoreloadDependency. split; [exact Hin|].
    split; reflexivity.
Qed.

Lemma scripts_companion (l : list Dependency) :
  Forall (fun d => plainDependency d \/ d = autoreloadDependency) l ->
  ~ Exists companionDependency l.
Proof.
  rewrite Forall_forall, Exists_exists. intros F (d & Hin & Hc).
  destruct (F d Hin) as [[Hs Hp]| ->].
  - destruct Hc as [[_ Hn]|Hpl]; congruence.
  - destruct Hc as [[Hsp _]|Hpl]; discriminate.
Qed.

(** X15. In a dependency collection that ends well, the auto-reload
    client of the content scripts and its background counterpart come
    together: among the dependencies added there is a client exactly when
    there is a counterpart (the bundled background script, or the declared
    service worker handed to the wrapper pipeline), and a client is only
    ever added under hot reload. *)
Theorem client_has_companion (hot : bool) (s s' : State) :
  collectDependencies filePath ptrs hot s = Ok (tt, s') ->
  exists l, deps s' = deps s ++ l /\
    (Exists clientDependency l <-> Exists companionDependency l) /\
    (Exists clientDependency l -> hot = true).
Proof.
  intros H. unfold collectDependencies in H.
  bind_inv H mv s0 Hmv. apply readProp_run in Hmv. destruct Hmv as [-> _].
  bind_inv H isMV2 s0 Hv. apply looseEq2_run in Hv. destruct Hv as [-> Hv].
  bind_inv H u1 s1 Hloc. bind_inv H need s2 Hcs.
  bind_inv H u3 s3 Hdict. bind_inv H u4 s4 Hth. bind_inv H u5 s5 Hwar.
  bind_inv H u6 s6 Hlocs.
  destruct (collectLocales_plain _ _ _ Hloc) as (l1 & E1 & F1).
  destruct (collectContentScripts_client _ _ _ _ Hcs) as (l2 & E2 & F2 & I2).
  destruct (collectDictionaries_plain _ _ _ Hdict) as (l3 & E3 & F3).
  destruct (collectThemeIcons_plain isMV2 _ _ _ Hth) as (l4 & E4 & F4).
  destruct (collectWebAccessibleResources_plain isMV2 _ _ _ Hwar)
    as (l5 & E5 & F5).
  destruct (collectLocations_plain DEP_LOCS _ _ _ Hlocs) as (l6 & E6 & F6).
  pose proof (collectContentScripts_flag filePath ptrs hot need _ _ Hcs)
    as Hflag.
  assert (Hw : exists l7, deps s' = deps s6 ++ l7 /\
                 ~ Exists clientDependency l7 /\
                 (Exists companionDependency l7 <-> need = true)).
  { destruct isMV2.
    - apply wireBackgroundMV2_adds in H. eexists. split; [exact H|].
      destruct need.
      + rewrite (Hflag eq_refl). cbn [andb]. split.
        * intros Hc. inversion Hc as [? ? [Hsp _]|? ? Hc']; subst;
            [discriminate Hsp | inversion Hc'].
        * split; [reflexivity|]. intros _. constructor. left. now split.
      + rewrite Bool.andb_false_r. split.
        * intros Hc. inversion Hc.
        * split; [intros Hc; inversion Hc | discriminate].
    - apply wireBackgroundMV3_adds in H.
      destruct H as (l7 & E7 & [(url & isModule & ->) | ->]).
      + exists [workerDependency url need isModule]. split; [exact E7|]. split.
        * intros Hc. inversion Hc as [? ? [_ Hn]|? ? Hc']; subst;
            [discriminate Hn | inversion Hc'].
        * split.
          -- intros Hc. inversion Hc as [? ? [[_ Hn]|Hp]|? ? Hc']; subst;
               [discriminate Hn | | inversion Hc'].
             destruct need; [reflexivity | discriminate Hp].
          -- intros ->. constructor. now right.
      + exists (if need then [reloadWorkerDependency] else []).
        split; [exact E7|]. destruct need.
        * split.
          -- intros Hc. inversion Hc as [? ? [Hsp _]|? ? Hc']; subst;
               [discriminate Hsp | inversion Hc'].
          -- split; [reflexivity|]. intros _. constructor. left. now split.
        * split; [intros Hc; inversion Hc|].
          split; [intros Hc; inversion Hc | discriminate]. }
  destruct Hw as (l7 & E7 & C7 & I7).
  pose proof (no_plain_client _ F1) as N1. pose proof (no_plain_companion _ F1) as M1.
  pose proof (no_plain_client _ F3) as N3. pose proof (no_plain_companion _ F3) as M3.
  pose proof (no_plain_client _ F4) as N4. pose proof (no_plain_companion _ F4) as M4.
  pose proof (no_plain_client _ F5) as N5. pose proof (no_plain_companion _ F5) as M5.
  pose proof (no_plain_client _ F6) as N6. pose proof (no_plain_companion _ F6) as M6.
  pose proof (scripts_client _ F2) as N2. pose proof (scripts_companion _ F2) as M2.
  exists (l1 ++ l2 ++ l3 ++ l4 ++ l5 ++ l6 ++ l7). split.
  - rewrite E7, E6, E5, E4, E3, E2, E1. now rewrite <- !app_assoc.
  - rewrite !Exists_app. split; [tauto|].
    intros Hc. apply Hflag. tauto.
Qed.

End Companion.

(** Witness of X15: the demo manifest under hot reload. *)
Lemma client_has_companion_witness :
  exists l, deps (demoFinal true demoManifestV2) = [] ++ l /\
    (Exists clientDependency l <-> Exists companionDependency l) /\
    (Exists clientDependency l -> true = true).
Proof.
  apply (@client_has_companion demoHost demoPath (pointersOf demoManifestV2)
           true (start demoManifestV2) (demoFinal true demoManifestV2)).
  vm_compute. reflexivity.
Defined.
